(** * Voice evaluation microservice: the upload / poll pipeline and the
      analysis stages, embedded from the Python sources.

    - [src/services/pronunciation.py], [pacing.py], [pause_analysis.py]:
      pure functions over the word list;
    - [src/services/transcription.py]: upload with retry, submit, poll,
      result normalisation;
    - [src/services/feedback_generator.py], [src/main.py]: the feedback
      call, the background task with its cleanup, the provider health
      check and the upload endpoint.

    Python floats are IEEE binary64, which is what Rocq's primitive
    floats are; the program is written once over an interface [PyFloat]
    of the float operations it uses, with two instances: [binary64]
    (the arithmetic the interpreter runs) and [exact] (rationals: the
    same program without rounding, to tell which failures are due to
    the rounding).

    Effects are explicit: a computation takes the world (the files on
    disk, the answers the two remote providers are going to give, the
    trace of requests, waits and removals so far) and returns a value
    or a raised exception together with the new world.  The upload
    endpoint runs in the web server, not in the worker: it has a state
    of its own (the upload directory with the bytes of its files, the
    task queue) and raises FastAPI's [HTTPException] besides.  Logging
    and printing are left out. *)

From Stdlib Require Import ZArith QArith Qround Floats String Ascii List Lia Lqa.
From stdpp Require Import base option gmap strings list pretty.

Set Warnings "-inexact-float,-register-all".
Local Open Scope Z_scope.

(** ** Exceptions and results *)

Module Py.

(** The exception classes the sources raise or catch.  All of them are
    subclasses of [Exception], so an [except Exception] clause catches
    every one; [ReadError] and [TimeoutException] are the two httpx
    classes the sources name in their own clauses, [TransportError]
    stands for the other httpx failures, which no clause names: a
    connection that cannot be opened ([httpx.ConnectError]), a write
    that fails, too many redirects, ... *)
Inductive exn :=
| ReadError (msg : string)
| TimeoutException (msg : string)
| TransportError (msg : string)
| Exception (msg : string)
| KeyError (key : string)
| IndexError
| TypeError (msg : string)
| AttributeError (msg : string)
| ValueError (msg : string)
| OSError (msg : string)
| ZeroDivisionError
| OverflowError.

(** [str(e)] *)
Definition str_exn (e : exn) : string :=
  match e with
  | ReadError m | TimeoutException m | TransportError m | Exception m
  | TypeError m | AttributeError m | ValueError m | OSError m => m
  | KeyError k => "'" +:+ k +:+ "'"
  | IndexError => "list index out of range"
  | ZeroDivisionError => "float division by zero"
  | OverflowError => "cannot convert float infinity to integer"
  end.

Inductive result (A : Type) :=
| Ok (a : A)
| Raise (e : exn).
Arguments Ok {A} a.
Arguments Raise {A} e.

Definition rbind {A B} (r : result A) (k : A -> result B) : result B :=
  match r with
  | Ok a => k a
  | Raise e => Raise e
  end.

#[export] Instance result_ret : MRet result := @Ok.
#[export] Instance result_bind : MBind result := fun A B k r => rbind r k.

(** [round(a / b)] for integers [a] and [0 < b]: the nearest integer,
    a tie going to the even one (Python 3's [round]). *)
Definition round_half_even (a b : Z) : Z :=
  let q := a / b in
  let r := a mod b in
  if 2 * r <? b then q
  else if b <? 2 * r then q + 1
  else if Z.even q then q else q + 1.

(** *** The float operations the sources use *)

Class PyFloat (F : Type) := {
  of_int : Z -> F;                  (* an int operand, converted *)
  of_Q : Q -> F;                    (* a decimal literal *)
  fadd : F -> F -> F;
  fsub : F -> F -> F;
  fmul : F -> F -> F;
  fdiv : F -> F -> F;               (* the quotient, divisor not zero *)
  flt : F -> F -> bool;
  feq : F -> F -> bool;
  round_int : F -> result Z;        (* round(x) *)
  round_ndigits : F -> positive -> F  (* round(x, n), n > 0 *)
}.

Section Generic.
Context {F : Type} {PF : PyFloat F}.

(** [a / b]: Python raises on a zero divisor. *)
Definition truediv (a b : F) : result F :=
  if feq b (of_int 0) then Raise ZeroDivisionError else Ok (fdiv a b).

(** [a > b] *)
Definition fgt (a b : F) : bool := flt b a.

(** [sum(xs)]: from 0, left to right, each addition rounded as the
    arithmetic rounds it: the sum of CPython up to 3.11.  (From 3.12 on
    a float sum also carries a correction for the rounding errors of
    its additions, which is added at the end; that correction is not
    part of this model.) *)
Definition sum (xs : list F) : F := fold_left fadd xs (of_int 0).

End Generic.

(** *** Exact rationals *)

Definition Q_round_ndigits (x : Q) (n : positive) : Q :=
  let p := Z.pow_pos 10 n in
  Qmake (round_half_even (Qnum x * p) (Zpos (Qden x))) (Z.to_pos p).

#[export] Instance exact : PyFloat Q := {
  of_int z := inject_Z z;
  of_Q q := q;
  fadd := Qplus;
  fsub := Qminus;
  fmul := Qmult;
  fdiv := Qdiv;
  flt a b := negb (Qle_bool b a);
  feq := Qeq_bool;
  round_int x := Ok (round_half_even (Qnum x) (Zpos (Qden x)));
  round_ndigits := Q_round_ndigits
}.

(** *** IEEE binary64 *)

Definition Z2float (z : Z) : float :=
  SF2Prim (binary_normalize prec emax z 0 false).

(** [round(x)]: the float's value is [m * 2^e], rounded exactly; an
    infinity raises [OverflowError], a NaN raises [ValueError]. *)
Definition float_round_int (x : float) : result Z :=
  match Prim2SF x with
  | S754_zero _ => Ok 0
  | S754_finite s m e =>
      let n := if 0 <=? e then Zpos m * 2 ^ e
               else round_half_even (Zpos m) (2 ^ (- e)) in
      Ok (if s then - n else n)
  | S754_infinity _ => Raise OverflowError
  | S754_nan => Raise (ValueError "cannot convert float NaN to integer")
  end.

(** [round(x, n)]: the decimal with [n] digits nearest to the float's
    value (ties to even), read back as the nearest float.  When the
    scaled value needs more than 53 bits the neighbours of the float
    are further apart than [10^-n]: the float is the one nearest to its
    own decimal and is returned as it is. *)
Definition float_round_ndigits (x : float) (n : positive) : float :=
  match Prim2SF x with
  | S754_finite s m e =>
      let p := Z.pow_pos 10 n in
      let k := if 0 <=? e then Zpos m * 2 ^ e * p
               else round_half_even (Zpos m * p) (2 ^ (- e)) in
      if 2 ^ 53 <=? k then x
      else
        let r := (Z2float k / Z2float p)%float in
        if s then (- r)%float else r
  | _ => x
  end.

#[export] Instance binary64 : PyFloat float := {
  of_int := Z2float;
  of_Q q := (Z2float (Qnum q) / Z2float (Zpos (Qden q)))%float;
  fadd := PrimFloat.add;
  fsub := PrimFloat.sub;
  fmul := PrimFloat.mul;
  fdiv := PrimFloat.div;
  flt := PrimFloat.ltb;
  feq := PrimFloat.eqb;
  round_int := float_round_int;
  round_ndigits := float_round_ndigits
}.

End Py.
Export Py.

Local Open Scope string_scope.
Local Open Scope list_scope.
Local Open Scope Z_scope.

(** [for x in xs: acc = body(acc, x)], stopping at the first exception. *)
Fixpoint for_each {A S} (xs : list A) (acc : S) (body : S -> A -> result S)
  : result S :=
  match xs with
  | [] => Ok acc
  | x :: xs' => acc' ← body acc x; for_each xs' acc' body
  end.

(** [xs[i]] for [0 <= i] *)
Definition index {A} (xs : list A) (i : nat) : result A :=
  match xs !! i with
  | Some x => Ok x
  | None => Raise IndexError
  end.

(** [len(xs)] *)
Definition len {A} (xs : list A) : Z := Z.of_nat (length xs).

(** [range(a, b)] for [0 <= a] *)
Definition range (a b : nat) : list nat := seq a (b - a).

(** ** config.py *)

Module Config.
Section Config.
Context {F : Type} {PF : PyFloat F}.

Definition MAX_RETRIES : Z := 3.
Definition MAX_FILE_SIZE : Z := 25 * 1024 * 1024.
Definition UPLOAD_DIR : string := "uploads".
Definition ALLOWED_EXTENSIONS : gset string := {[ ".wav"; ".mp3" ]}.
Definition PRONUNCIATION_THRESHOLD : F := of_Q 0.85.
Definition SLOW_WPM_THRESHOLD : Z := 90.
Definition FAST_WPM_THRESHOLD : Z := 150.
Definition PAUSE_THRESHOLD : F := of_Q 0.5.

End Config.
End Config.

(** ** models.py *)

Section Models.
Context {F : Type}.

(** One entry of the word list ([WordMetadata]); the field [end] of the
    source is [end_] here. *)
Record Word := {
  word : string;
  start : F;
  end_ : F;
  confidence : F
}.

Record MispronuncedWord := {
  mp_word : string;
  mp_start : F;
  mp_confidence : F
}.

Record PronunciationResponse := {
  pronunciation_score : Z;
  mispronounced_words : list MispronuncedWord
}.

Record PacingResponse := {
  pacing_wpm : Z;
  pacing_feedback : string
}.

Record PauseResponse := {
  pause_count : Z;
  total_pause_time_sec : F;
  pause_feedback : string
}.

End Models.
Arguments Word : clear implicits.
Arguments MispronuncedWord : clear implicits.
Arguments PronunciationResponse : clear implicits.
Arguments PauseResponse : clear implicits.

(** ** services/pronunciation.py, pacing.py, pause_analysis.py *)

Section Analysis.
Context {F : Type} {PF : PyFloat F}.

Definition analyze_pronunciation (words : list (Word F))
  : result (PronunciationResponse F) :=
  match words with
  | [] => Ok {| pronunciation_score := 0; mispronounced_words := [] |}
  | _ =>
    let total_confidence := sum (map confidence words) in
    avg_confidence ← truediv total_confidence (of_int (len words));
    pronunciation_score ← round_int (fmul avg_confidence (of_int 100));
    let mispronounced_words :=
      fold_left
        (fun acc w =>
           if flt (confidence w) Config.PRONUNCIATION_THRESHOLD
           then acc ++ [ {| mp_word := word w;
                            mp_start := start w;
                            mp_confidence := confidence w |} ]
           else acc)
        words [] in
    Ok {| pronunciation_score := pronunciation_score;
          mispronounced_words := mispronounced_words |}
  end.

Definition analyze_pacing (words : list (Word F)) (audio_duration : F)
  : result PacingResponse :=
  if match words with [] => true | _ => false end
     || feq audio_duration (of_int 0)
  then Ok {| pacing_wpm := 0;
             pacing_feedback := "Unable to calculate pacing." |}
  else
    let total_words := len words in
    duration_minutes ← truediv audio_duration (of_Q 60);
    quotient ← truediv (of_int total_words) duration_minutes;
    wpm ← round_int quotient;
    let feedback :=
      if wpm <? Config.SLOW_WPM_THRESHOLD then
        "Your speaking pace is too slow. Try to speak a bit faster."
      else if Config.FAST_WPM_THRESHOLD <? wpm then
        "Your speaking pace is too fast. Try to slow down a bit."
      else "Your speaking pace is appropriate." in
    Ok {| pacing_wpm := wpm; pacing_feedback := feedback |}.

Definition analyze_pauses (words : list (Word F))
  : result (PauseResponse F) :=
  if len words <? 2 then
    Ok {| pause_count := 0;
          total_pause_time_sec := of_Q 0.0;
          pause_feedback := "Insufficient data for pause analysis." |}
  else
    pauses ← for_each (range 1 (length words)) []
      (fun pauses i =>
         w_i ← index words i;
         w_prev ← index words (i - 1);
         let pause_duration := fsub (start w_i) (end_ w_prev) in
         if fgt pause_duration Config.PAUSE_THRESHOLD
         then Ok (pauses ++ [pause_duration])
         else Ok pauses);
    let pause_count := len pauses in
    let total_pause_time := sum pauses in
    let feedback :=
      if pause_count =? 0 then
        "Great! Your speech flows smoothly without long pauses."
      else if pause_count <=? 2 then
        "Good fluency with minimal pauses."
      else if pause_count <=? 4 then
        "Try to reduce long pauses to improve fluency."
      else
        "Your speech has many long pauses. Practice speaking more continuously." in
    Ok {| pause_count := pause_count;
          total_pause_time_sec := round_ndigits total_pause_time 2;
          pause_feedback := feedback |}.

End Analysis.

(** ** Strings and paths ([str], [os.path]) *)

Module Str.

Definition truthy (s : string) : bool :=
  match s with EmptyString => false | _ => true end.

(** [needle in hay] *)
Definition contains (needle hay : string) : bool :=
  match String.index 0 needle hay with Some _ => true | None => false end.

(** [s.rfind(c)], [-1] when [c] does not occur *)
Fixpoint rfind_from (c : ascii) (s : string) (i : Z) (last : Z) : Z :=
  match s with
  | EmptyString => last
  | String a s' => rfind_from c s' (i + 1) (if Ascii.eqb a c then i else last)
  end.
Definition rfind (c : ascii) (s : string) : Z := rfind_from c s 0 (-1).

(** [s[i:]] and [s[:i]] for [0 <= i] *)
Definition slice_from (s : string) (i : Z) : string :=
  String.substring (Z.to_nat i) (String.length s - Z.to_nat i) s.
Definition slice_to (s : string) (i : Z) : string :=
  String.substring 0 (Z.to_nat i) s.

Definition lower_ascii (a : ascii) : ascii :=
  let n := nat_of_ascii a in
  if ((65 <=? n) && (n <=? 90))%nat then ascii_of_nat (n + 32) else a.

(** [s.lower()], on ASCII letters *)
Fixpoint lower (s : string) : string :=
  match s with
  | EmptyString => EmptyString
  | String a s' => String (lower_ascii a) (lower s')
  end.

(** [os.path.splitext(p)]: the extension starts at the last dot of the
    last path component, unless only dots come before it there. *)
Definition splitext (p : string) : string * string :=
  let sepIndex := rfind "/" p in
  let dotIndex := rfind "." p in
  if sepIndex <? dotIndex then
    if existsb
         (fun i => match String.get i p with
                   | Some a => negb (Ascii.eqb a ".")
                   | None => false
                   end)
         (seq (Z.to_nat (sepIndex + 1)) (Z.to_nat (dotIndex - (sepIndex + 1))))
    then (slice_to p dotIndex, slice_from p dotIndex)
    else (p, "")
  else (p, "").

(** [os.path.basename(p)] *)
Definition basename (p : string) : string := slice_from p (rfind "/" p + 1).

End Str.

(** ** Decoded JSON ([Dict[str, Any]] as the provider returns it) *)

Section Json.
Context {F : Type}.

Inductive json :=
| JNull
| JBool (b : bool)
| JNum (x : F)
| JStr (s : string)
| JArr (l : list json)
| JObj (m : gmap string json).

End Json.
Arguments json : clear implicits.

(** What Python prints for values: [repr] of a decoded JSON value that
    is not a string, and of the list of mispronounced words.  Only
    message texts depend on them. *)
Class PyRepr (F : Type) := {
  repr_json : json F -> string;
  repr_mispronounced : list (MispronuncedWord F) -> string
}.

Section JsonOps.
Context {F : Type} {PF : PyFloat F} {PR : PyRepr F}.

(** [str(j)], as an f-string field renders it *)
Definition str_json (j : json F) : string :=
  match j with
  | JStr s => s
  | _ => repr_json j
  end.

(** [bool(j)] *)
Definition truthy (j : json F) : bool :=
  match j with
  | JNull => false
  | JBool b => b
  | JNum x => negb (feq x (of_int 0))
  | JStr s => Str.truthy s
  | JArr l => match l with [] => false | _ => true end
  | JObj m => match map_to_list m with [] => false | _ => true end
  end.

(** [j == s] for a string literal [s] *)
Definition eq_str (j : json F) (s : string) : bool :=
  match j with
  | JStr s' => String.eqb s' s
  | _ => false
  end.

(** [d.get(key, default)] *)
Definition dict_get (d : json F) (key : string) (default_value : json F)
  : result (json F) :=
  match d with
  | JObj m => Ok (default default_value (m !! key))
  | _ => Raise (AttributeError "object has no attribute 'get'")
  end.

(** [d[key]] *)
Definition dict_item (d : json F) (key : string) : result (json F) :=
  match d with
  | JObj m => match m !! key with
              | Some v => Ok v
              | None => Raise (KeyError key)
              end
  | _ => Raise (TypeError "indices must be integers")
  end.

(** [for x in j]: the elements of a list *)
Definition iterate (j : json F) : result (list (json F)) :=
  match j with
  | JArr l => Ok l
  | _ => Raise (TypeError "object is not iterable")
  end.

(** The typed fields of the canonical shapes: a number, a string. *)
Definition as_number (j : json F) : result F :=
  match j with
  | JNum x => Ok x
  | _ => Raise (TypeError "unsupported operand type(s)")
  end.

Definition as_string (j : json F) : result string :=
  match j with
  | JStr s => Ok s
  | _ => Raise (TypeError "str expected")
  end.

End JsonOps.

(** ** The world: files on disk, the two remote providers, what was done *)

Section World.
Context {F : Type}.

(** [httpx.Response] *)
Record Response := {
  status_code : Z;
  text : string;                       (* the body; [content] is its bytes *)
  json_body : option (json F)          (* the body decoded, if it is JSON *)
}.

Inductive payload :=
| Files (filename : string) (file : string) (content_type : string)
| JsonData (data : json F)
| NoPayload.

(** One call of an [httpx.AsyncClient]: the arguments of [post] or
    [get], and whether the client was built with
    [follow_redirects=True]. *)
Record Request := {
  method : string;
  url : string;
  headers : gmap string string;
  body : payload;
  follow_redirects : bool
}.

Inductive event :=
| Sent (r : Request)
| Slept (seconds : Z)
| Removed (path : string).

Record World := {
  files : gset string;                 (* the paths that exist *)
  read_error : string -> option exn;   (* what open(path, "rb") raises, if anything *)
  remove_error : string -> option exn; (* what os.remove(path) raises, if anything *)
  network : nat -> result Response;    (* outcome of the next client calls, in order *)
  generative : string -> result string;  (* the text model: prompt to text *)
  trace : list event
}.

Definition M (A : Type) : Type := World -> result A * World.

Definition ret {A} (a : A) : M A := fun w => (Ok a, w).
Definition raise {A} (e : exn) : M A := fun w => (Raise e, w).
Definition bind {A B} (m : M A) (k : A -> M B) : M B :=
  fun w => match m w with
           | (Ok a, w') => k a w'
           | (Raise e, w') => (Raise e, w')
           end.
Definition lift {A} (r : result A) : M A := fun w => (r, w).

(** [try: body / except ... as e: handler(e)]; the handler chooses by
    the class of [e] and re-raises what no clause matches. *)
Definition try_except {A} (body : M A) (handler : exn -> M A) : M A :=
  fun w => match body w with
           | (Ok a, w') => (Ok a, w')
           | (Raise e, w') => handler e w'
           end.

(** [try: body / finally: cleanup] *)
Definition try_finally {A} (body : M A) (cleanup : M unit) : M A :=
  fun w => let '(r, w') := body w in
           match cleanup w' with
           | (Ok _, w'') => (r, w'')
           | (Raise e, w'') => (Raise e, w'')
           end.

Definition record (e : event) (w : World) : World :=
  {| files := files w;
     read_error := read_error w;
     remove_error := remove_error w;
     network := network w;
     generative := generative w;
     trace := trace w ++ [e] |}.

(** One call of the client: the call is recorded and the next outcome
    of the network is consumed.  The outcome is what the call returns
    or raises; a client that follows redirects may have sent several
    HTTP requests for it (with httpx's default limit of 20 redirects, up
    to 21). *)
Definition send (r : Request) : M Response :=
  fun w => (network w 0%nat,
            {| files := files w;
               read_error := read_error w;
               remove_error := remove_error w;
               network := fun n => network w (S n);
               generative := generative w;
               trace := trace w ++ [Sent r] |}).

(** [asyncio.sleep(seconds)] *)
Definition sleep (seconds : Z) : M unit :=
  fun w => (Ok tt, record (Slept seconds) w).

(** [os.path.exists(path)] *)
Definition os_path_exists (path : string) : M bool :=
  fun w => (Ok (bool_decide (path ∈ files w)), w).

(** [open(path, "rb")]: for a path that exists (a file without the
    permission to read it, a directory) the call can still raise. *)
Definition open_rb (path : string) : M unit :=
  fun w => if bool_decide (path ∈ files w)
           then match read_error w path with
                | Some e => (Raise e, w)
                | None => (Ok tt, w)
                end
           else (Raise (OSError "No such file or directory"), w).

(** [os.remove(path)]: for a path that exists (a file that may not be
    deleted, a directory) the call can still raise, and the path stays. *)
Definition os_remove (path : string) : M unit :=
  fun w => if bool_decide (path ∈ files w)
           then match remove_error w path with
                | Some e => (Raise e, w)
                | None =>
                    (Ok tt,
                     {| files := files w ∖ {[path]};
                        read_error := read_error w;
                        remove_error := remove_error w;
                        network := network w;
                        generative := generative w;
                        trace := trace w ++ [Removed path] |})
                end
           else (Raise (OSError "No such file or directory"), w).

(** [model.generate_content(prompt).text] *)
Definition generate_content (prompt : string) : M string :=
  fun w => (generative w prompt, w).

(** [response.json()] *)
Definition response_json (response : Response) : M (json F) :=
  match json_body response with
  | Some j => ret j
  | None => raise (ValueError "Expecting value")
  end.

(** A loop whose body either returns from the function ([Some v]) or
    goes on to the next iteration ([None]); [after] is the code that
    follows the loop. *)
Fixpoint for_loop {A I} (xs : list I) (body : I -> M (option A))
  (after : M A) : M A :=
  match xs with
  | [] => after
  | x :: xs' =>
      bind (body x) (fun r =>
        match r with
        | Some v => ret v
        | None => for_loop xs' body after
        end)
  end.

End World.
Arguments Response : clear implicits.
Arguments Request : clear implicits.
Arguments payload : clear implicits.
Arguments event : clear implicits.
Arguments World : clear implicits.
Arguments M : clear implicits.

#[export] Instance M_ret {F} : MRet (M F) := @ret F.
#[export] Instance M_bind {F} : MBind (M F) := fun A B k m => bind m k.

(** ** services/transcription.py *)

Module TranscriptionService.

Record t := {
  api_key : string;
  base_url : string;
  max_retries : Z;
  audio_mime_types : gmap string string
}.

(** [__init__]; the key is [Config.ASSEMBLYAI_API_KEY], read from the
    process environment. *)
Definition init (ASSEMBLYAI_API_KEY : string) : t :=
  {| api_key := ASSEMBLYAI_API_KEY;
     base_url := "https://api.assemblyai.com/v2";
     max_retries := 3;
     audio_mime_types :=
       <[".mp3" := "audio/mpeg"]> (
       <[".wav" := "audio/wav"]> (
       <[".flac" := "audio/flac"]> (
       <[".ogg" := "audio/ogg"]> (
       <[".m4a" := "audio/mp4"]> ∅)))) |}.

Section Service.
Context {F : Type} {PF : PyFloat F} {PR : PyRepr F}.

(** [upload_file].  Logging is left out, so [effective_mime_type],
    which the source only logs, is bound and not used: the multipart
    payload is built from [mime_type].  The client of the upload is the
    one built with [follow_redirects=True]; the file is opened for
    reading before the call. *)
Definition upload_file (self : t) (file_path mime_type : string)
  : M F (json F) :=
  if negb (Str.truthy (api_key self)) then
    raise (Exception "AssemblyAI API key not configured")
  else
    let headers : gmap string string := {[ "authorization" := api_key self ]} in
    try_except
      (found ← os_path_exists file_path;
       if negb found then
         raise (Exception ("File not found: " +:+ file_path))
       else
         let file_extension := Str.lower (snd (Str.splitext file_path)) in
         let effective_mime_type :=
           default mime_type (audio_mime_types self !! file_extension) in
         open_rb file_path;;
         let files_payload :=
           Files (Str.basename file_path) file_path mime_type in
         response ← send {| method := "POST";
                            url := base_url self +:+ "/upload";
                            headers := headers;
                            body := files_payload;
                            follow_redirects := true |};
         if status_code response =? 401 then
           raise (Exception "Invalid AssemblyAI API key")
         else if status_code response =? 413 then
           raise (Exception "File too large for AssemblyAI")
         else if status_code response =? 429 then
           raise (Exception "Rate limit exceeded - please try again later")
         else if negb ((status_code response =? 200)
                       || (status_code response =? 201)) then
           let error_text :=
             if Str.truthy (text response) then text response
             else "Unknown error" in
           raise (Exception ("Upload failed: "
                             +:+ pretty (status_code response)
                             +:+ " - " +:+ error_text))
         else
           result ← response_json response;
           upload_url ← lift (dict_get result "upload_url" JNull);
           if negb (truthy upload_url) then
             raise (Exception "No upload URL returned from AssemblyAI")
           else ret upload_url)
      (fun e =>
         match e with
         | ReadError _ => raise e
         | TimeoutException _ =>
             raise (Exception
               "Upload timeout - try with a smaller file or check your connection")
         | _ => raise (Exception ("File upload error: " +:+ str_exn e))
         end).

(** [upload_file_with_retry]: [for attempt in range(self.max_retries)];
    falling off the loop returns [None]. *)
Definition upload_file_with_retry (self : t) (file_path mime_type : string)
  : M F (json F) :=
  for_loop (map Z.of_nat (range 0 (Z.to_nat (max_retries self))))
    (fun attempt =>
       try_except
         (upload_url ← upload_file self file_path mime_type;
          ret (Some upload_url))
         (fun e =>
            match e with
            | ReadError _ =>
                if attempt =? max_retries self - 1 then
                  raise (Exception ("File upload failed after "
                                    +:+ pretty (max_retries self)
                                    +:+ " attempts: " +:+ str_exn e))
                else
                  let wait_time := 2 ^ attempt in
                  sleep wait_time;; ret None
            | _ => raise e
            end))
    (ret JNull).

Definition max_attempts : Z := 60.

(** The [while attempt < max_attempts] loop of [_poll_transcript], by
    the number [remaining = max_attempts - attempt] of iterations left:
    [attempt] is only read by the loop test and only changed by
    [attempt += 1]. *)
Fixpoint poll_loop (self : t) (transcript_id : json F)
  (headers : gmap string string) (remaining : nat) : M F (json F) :=
  match remaining with
  | O => raise (Exception "Transcription timeout - process took too long")
  | S remaining' =>
      r ← try_except
            (response ← send {| method := "GET";
                                url := base_url self +:+ "/transcript/"
                                       +:+ str_json transcript_id;
                                headers := headers;
                                body := NoPayload;
                                follow_redirects := false |};
             if negb (status_code response =? 200) then
               raise (Exception ("Polling failed: "
                                 +:+ pretty (status_code response)
                                 +:+ " - " +:+ text response))
             else
               result ← response_json response;
               status ← lift (dict_get result "status" JNull);
               if eq_str status "completed" then ret (Some result)
               else if eq_str status "error" then
                 error_msg ← lift (dict_get result "error"
                                     (JStr "Unknown transcription error"));
                 raise (Exception ("Transcription failed: "
                                   +:+ str_json error_msg))
               else if eq_str status "queued" || eq_str status "processing" then
                 sleep 1;; ret None
               else
                 raise (Exception ("Unknown status: " +:+ str_json status)))
            (fun e =>
               match e with
               | TimeoutException _ =>
                   raise (Exception
                     "Polling timeout - transcription taking too long")
               | _ =>
                   if Str.contains "Transcription failed:" (str_exn e)
                   then raise e
                   else raise (Exception ("Polling error: " +:+ str_exn e))
               end);
      match r with
      | Some result => ret result
      | None => poll_loop self transcript_id headers remaining'
      end
  end.

Definition _poll_transcript (self : t) (transcript_id : json F)
  (headers : gmap string string) : M F (json F) :=
  poll_loop self transcript_id headers (Z.to_nat max_attempts).

Definition transcribe_audio (self : t) (audio_url : json F) : M F (json F) :=
  if negb (Str.truthy (api_key self)) then
    raise (Exception "AssemblyAI API key not configured")
  else
    let headers : gmap string string :=
      <["authorization" := api_key self]>
        {[ "content-type" := "application/json" ]} in
    let json_data : json F := JObj {[ "audio_url" := audio_url ]} in
    try_except
      (response ← send {| method := "POST";
                          url := base_url self +:+ "/transcript";
                          headers := headers;
                          body := JsonData json_data;
                          follow_redirects := false |};
       if negb (status_code response =? 200) then
         let error_text :=
           if Str.truthy (text response) then text response
           else "Unknown error" in
         raise (Exception ("Failed to submit transcription job: "
                           +:+ pretty (status_code response)
                           +:+ " - " +:+ error_text))
       else
         submitted ← response_json response;
         transcript_id ← lift (dict_get submitted "id" JNull);
         if negb (truthy transcript_id) then
           raise (Exception
             "Failed to get transcript ID from submission response.")
         else _poll_transcript self transcript_id headers)
      (fun e =>
         match e with
         | TimeoutException _ =>
             raise (Exception "Timeout when submitting transcription job.")
         | _ => raise (Exception ("Transcription process failed: "
                                  +:+ str_exn e))
         end).

(** The parsed result ([TranscriptionResponse]). *)
Record Transcription := {
  transcript : string;
  words : list (Word F);
  audio_duration_sec : F
}.

(** [parse_transcription_result].  The canonical shapes are typed: a
    provider field of another JSON type than the shape's is refused
    here with [TypeError], where the source fails at its first use. *)
Definition parse_transcription_result (result : json F)
  : Py.result Transcription :=
  word_list ← dict_get result "words" (JArr []) ≫= iterate;
  words ← for_each word_list []
    (fun words word_data =>
       w_text ← dict_item word_data "text" ≫= as_string;
       w_start ← dict_item word_data "start" ≫= as_number;
       w_start ← truediv w_start (of_Q 1000.0);
       w_end ← dict_item word_data "end" ≫= as_number;
       w_end ← truediv w_end (of_Q 1000.0);
       w_confidence ← dict_item word_data "confidence" ≫= as_number;
       Ok (words ++ [ {| word := w_text; start := w_start;
                         end_ := w_end; confidence := w_confidence |} ]));
  transcript ← dict_item result "text" ≫= as_string;
  audio_duration ← dict_get result "audio_duration" (JNum (of_int 0))
                     ≫= as_number;
  audio_duration_sec ← truediv audio_duration (of_Q 1000.0);
  Ok {| transcript := transcript;
        words := words;
        audio_duration_sec := audio_duration_sec |}.

End Service.
Arguments Transcription : clear implicits.

End TranscriptionService.

(** ** services/feedback_generator.py *)

Module FeedbackGenerator.
Section Feedback.
Context {F : Type} {PR : PyRepr F}.

(** The f-string of [generate_feedback].  The fields read with keys
    that the analyzers' results do not have
    ([overall_pronunciation_score], [pacing_assessment],
    [total_pause_duration_sec], [average_pause_duration_sec],
    [longest_pause_duration_sec]) all render as their fallback. *)
Definition prompt (pronunciation : PronunciationResponse F)
  (pacing : PacingResponse) (pauses : PauseResponse F) : string :=
  "
        Generate detailed, constructive, and encouraging feedback for a speaker based on the following analysis of their audio.
        Focus on improving their public speaking skills.

        **Pronunciation Analysis:**
        - Mispronounced words: "
    +:+ repr_mispronounced (mispronounced_words pronunciation)
    +:+ "
        - Overall pronunciation score: "
    +:+ "N/A"
    +:+ "

        **Pacing Analysis:**
        - Words per minute (WPM): "
    +:+ pretty (pacing_wpm pacing)
    +:+ "  # No decimal for WPM, assuming integer
        - Pacing assessment: "
    +:+ "N/A"
    +:+ "

        **Pause Analysis:**
        - Total pause duration: "
    +:+ "N/A"
    +:+ " seconds
        - Average pause duration: "
    +:+ "N/A"
    +:+ " seconds
        - Pause count: "
    +:+ pretty (pause_count pauses)
    +:+ "  # Assuming integer, no decimal
        - Longest pause duration: "
    +:+ "N/A"
    +:+ " seconds

        **Instructions for Feedback:**
        1. Start with a positive encouraging statement.
        2. Provide specific feedback on pronunciation, pacing, and pauses.
        3. For pronunciation, list specific words if mispronounced and suggest ways to improve.
        4. For pacing, comment on the WPM and suggest if they need to speed up or slow down.
        5. For pauses, suggest reducing long pauses or using them effectively.
        6. End with a concluding encouraging remark.
        7. Keep the feedback concise but informative, around 3-5 sentences.
        ".

Definition fallback : string :=
  "Could not generate detailed feedback at this moment. Please try again later.".

Definition generate_feedback (pronunciation : PronunciationResponse F)
  (pacing : PacingResponse) (pauses : PauseResponse F) : M F string :=
  let prompt := prompt pronunciation pacing pauses in
  try_except
    (feedback ← generate_content prompt;
     ret feedback)
    (fun e => ret fallback).

End Feedback.
End FeedbackGenerator.

(** ** main.py *)

Module Main.
Section Main.
Context {F : Type} {PF : PyFloat F} {PR : PyRepr F}.
Variable ASSEMBLYAI_API_KEY : string.

Definition transcription_service : TranscriptionService.t :=
  TranscriptionService.init ASSEMBLYAI_API_KEY.

Record VoiceEvaluationResponse := {
  transcription : TranscriptionService.Transcription F;
  pronunciation : PronunciationResponse F;
  pacing : PacingResponse;
  pauses : PauseResponse F;
  text_feedback : string
}.

(** The body of the [try] of [process_audio_task]. *)
Definition pipeline (file_path mime_type : string)
  : M F VoiceEvaluationResponse :=
  upload_url ← TranscriptionService.upload_file_with_retry
                 transcription_service file_path mime_type;
  transcription_result ← TranscriptionService.transcribe_audio
                           transcription_service upload_url;
  parsed_result ← lift (TranscriptionService.parse_transcription_result
                          transcription_result);
  pronunciation_result ← lift (analyze_pronunciation
                                 (TranscriptionService.words parsed_result));
  pacing_result ← lift (analyze_pacing
                          (TranscriptionService.words parsed_result)
                          (TranscriptionService.audio_duration_sec parsed_result));
  pause_result ← lift (analyze_pauses
                         (TranscriptionService.words parsed_result));
  text_feedback ← FeedbackGenerator.generate_feedback
                    pronunciation_result pacing_result pause_result;
  ret {| transcription := parsed_result;
         pronunciation := pronunciation_result;
         pacing := pacing_result;
         pauses := pause_result;
         text_feedback := text_feedback |}.

(** [process_audio_task]: the [except] clause logs and re-raises, the
    [finally] clause removes the uploaded file. *)
Definition process_audio_task (file_path file_name mime_type : string)
  : M F VoiceEvaluationResponse :=
  try_finally
    (try_except (pipeline file_path mime_type) (fun e => raise e))
    (found ← os_path_exists file_path;
     if found : bool then os_remove file_path else ret tt).

(** [assemblyai_health_check]; the returned dict has string values. *)
Definition assemblyai_health_check : M F (gmap string string) :=
  try_except
    (let headers : gmap string string :=
       {[ "authorization" := ASSEMBLYAI_API_KEY ]} in
     response ← send {| method := "GET";
                        url := "https://api.assemblyai.com/v2/transcript";
                        headers := headers;
                        body := NoPayload;
                        follow_redirects := false |};
     if status_code response =? 401 then
       ret (<["status" := "error"]> {[ "message" := "Invalid API key" ]})
     else if status_code response =? 429 then
       ret (<["status" := "warning"]> {[ "message" := "Rate limited" ]})
     else if (status_code response =? 200) || (status_code response =? 404) then
       ret (<["status" := "healthy"]>
              {[ "message" := "AssemblyAI is reachable" ]})
     else
       ret (<["status" := "error"]>
              {[ "message" := "Unexpected status: "
                              +:+ pretty (status_code response) ]}))
    (fun e =>
       match e with
       | ReadError _ =>
           ret (<["status" := "error"]>
                  {[ "message" := "Network connectivity issue" ]})
       | TimeoutException _ =>
           ret (<["status" := "error"]>
                  {[ "message" := "Connection timeout" ]})
       | _ =>
           ret (<["status" := "error"]>
                  {[ "message" := "Health check failed: " +:+ str_exn e ]})
       end).

End Main.
End Main.

(** ** main.py: the upload endpoint

    [transcribe_and_evaluate] saves the upload and enqueues the
    background task.  What it touches is not the world of the worker:
    it writes files, draws identifiers and talks to the task broker. *)

Module Api.

(** What the endpoint raises: FastAPI's [HTTPException], or any other
    exception. *)
Inductive failure :=
| HTTPException (status_code : Z) (detail : string)
| Other (e : exn).

Inductive outcome (A : Type) :=
| Return (a : A)
| Throw (f : failure).
Arguments Return {A} a.
Arguments Throw {A} f.

(** The arguments of one [process_audio_task.delay] call. *)
Record Task := {
  task_file_path : string;
  task_file_name : string;
  task_mime_type : string
}.

(** The server as the endpoint sees it: the files on disk with their
    bytes, the values [uuid.uuid4()] will return, the paths that cannot
    be opened for writing, what the broker answers to [delay] (the id of
    the task, or an exception), and the tasks enqueued so far. *)
Record App := {
  disk : gmap string string;
  uuids : nat -> string;
  open_error : string -> option exn;
  broker : Task -> result string;
  queue : list Task
}.

(** [UploadFile]: its name, and what [await file.read()] gives. *)
Record UploadFile := {
  filename : option string;
  read : result string
}.

(** A computation of the endpoint: from the state of the server to a
    returned value or a raised failure, and the new state. *)
Definition E (A : Type) : Type := App -> outcome A * App.

Definition ret {A} (a : A) : E A := fun s => (Return a, s).
Definition throw {A} (f : failure) : E A := fun s => (Throw f, s).
Definition bind {A B} (m : E A) (k : A -> E B) : E B :=
  fun s => match m s with
           | (Return a, s') => k a s'
           | (Throw f, s') => (Throw f, s')
           end.

#[global] Instance E_ret : MRet E := @ret.
#[global] Instance E_bind : MBind E := fun A B k m => bind m k.

Definition try_except {A} (body : E A) (handler : failure -> E A) : E A :=
  fun s => match body s with
           | (Return a, s') => (Return a, s')
           | (Throw f, s') => handler f s'
           end.

Definition lift {A} (r : result A) : E A :=
  match r with
  | Ok a => ret a
  | Raise e => throw (Other e)
  end.

(** [str(uuid.uuid4())] *)
Definition uuid4 : E string :=
  fun s => (Return (uuids s 0%nat),
            {| disk := disk s; uuids := fun n => uuids s (S n);
               open_error := open_error s; broker := broker s;
               queue := queue s |}).

Definition set_disk (d : gmap string string) (s : App) : App :=
  {| disk := d; uuids := uuids s; open_error := open_error s;
     broker := broker s; queue := queue s |}.

(** [open(path, "wb")]: the file exists and is empty from here on. *)
Definition open_wb (path : string) : E unit :=
  fun s => match open_error s path with
           | Some e => (Throw (Other e), s)
           | None => (Return tt, set_disk (<[path := ""]> (disk s)) s)
           end.

(** [buffer.write(content)] on the file opened at [path]: the bytes
    are added at the end of what the file holds. *)
Definition write (path content : string) : E unit :=
  fun s => (Return tt,
            set_disk (<[path := default "" (disk s !! path) +:+ content]>
                        (disk s)) s).

(** [os.path.exists(path)] *)
Definition os_path_exists (path : string) : E bool :=
  fun s => (Return (bool_decide (is_Some (disk s !! path))), s).

(** [os.remove(path)] *)
Definition os_remove (path : string) : E unit :=
  fun s => if bool_decide (is_Some (disk s !! path))
           then (Return tt, set_disk (delete path (disk s)) s)
           else (Throw (Other (OSError "No such file or directory")), s).

(** [process_audio_task.delay(file_path, file_name, mime_type).id]: the
    broker takes the task and names it, or the call raises and nothing
    is enqueued. *)
Definition delay (file_path file_name mime_type : string) : E string :=
  fun s =>
    let task := {| task_file_path := file_path;
                   task_file_name := file_name;
                   task_mime_type := mime_type |} in
    match broker s task with
    | Ok task_id =>
        (Return task_id,
         {| disk := disk s; uuids := uuids s; open_error := open_error s;
            broker := broker s; queue := queue s ++ [task] |})
    | Raise e => (Throw (Other e), s)
    end.

Section Endpoint.
(** [Path(name).suffix] and [mimetypes.guess_type(name)[0]] of the
    Python library, and the text Python prints for the set of allowed
    extensions. *)
Variable suffix : string -> string.
Variable guess_type : string -> option string.
Variable repr_allowed : string.

(** [bool(file.filename)] *)
Definition truthy_opt (o : option string) : bool :=
  match o with
  | Some s => Str.truthy s
  | None => false
  end.

(** [transcribe_and_evaluate].  Logging is left out: [request_id] is
    only logged. *)
Definition transcribe_and_evaluate (file : UploadFile)
  : E (gmap string string) :=
  request_id ← uuid4;
  try_except
    (if negb (truthy_opt (filename file)) then
       throw (HTTPException 400 "No file provided")
     else
       let name := default "" (filename file) in
       let file_extension := Str.lower (suffix name) in
       if negb (bool_decide (file_extension ∈ Config.ALLOWED_EXTENSIONS)) then
         throw (HTTPException 400
                  ("Unsupported file format. Allowed: " +:+ repr_allowed))
       else
         file_id ← uuid4;
         let file_path :=
           Config.UPLOAD_DIR +:+ "/" +:+ file_id +:+ file_extension in
         open_wb file_path;;
         content ← lift (read file);
         (if Z.of_nat (String.length content) =? 0 then
            throw (HTTPException 400 "Empty file")
          else if Config.MAX_FILE_SIZE <? Z.of_nat (String.length content) then
            throw (HTTPException 400 "File too large")
          else write file_path content);;
         let VALID_MIME_TYPES := ["audio/wav"; "audio/mpeg"; "audio/x-wav"] in
         let mime_type := guess_type name in
         if negb (truthy_opt mime_type)
            || negb (bool_decide (default "" mime_type ∈ VALID_MIME_TYPES)) then
           found ← os_path_exists file_path;
           (if found : bool then os_remove file_path else ret tt);;
           throw (HTTPException 400 "Invalid or unsupported audio format")
         else
           task_id ← delay file_path name (default "" mime_type);
           ret (<["message" := "Processing started"]>
                  {[ "task_id" := task_id ]}))
    (fun f =>
       match f with
       | HTTPException _ _ => throw f
       | Other e =>
           throw (HTTPException 500
                    ("Failed to start processing: " +:+ str_exn e))
       end).

End Endpoint.
End Api.

(** * Specification-side definitions

    What the design document says the stages compute, written directly
    on the word list; the theorems below compare the code with them. *)

Section AnalysisSpec.
Context {F : Type} {PF : PyFloat F}.

(** The gap of each adjacent pair, in the order of the list:
    [words[i+1].start - words[i].end]. *)
Fixpoint gaps (words : list (Word F)) : list F :=
  match words with
  | a :: (b :: _) as rest => fsub (start b) (end_ a) :: gaps rest
  | _ => []
  end.

(** A gap counts as a pause iff it is strictly above the threshold. *)
Definition is_pause (gap : F) : bool := flt Config.PAUSE_THRESHOLD gap.

Definition qualifying_pauses (words : list (Word F)) : list F :=
  List.filter is_pause (gaps words).

(** The mean of a non-empty list, Python's [sum(xs) / len(xs)]. *)
Definition mean (xs : list F) : result F :=
  truediv (sum xs) (of_int (len xs)).

Definition is_mispronounced (w : Word F) : bool :=
  flt (confidence w) Config.PRONUNCIATION_THRESHOLD.

Definition report (w : Word F) : MispronuncedWord F :=
  {| mp_word := word w; mp_start := start w; mp_confidence := confidence w |}.

End AnalysisSpec.

(** ** The value of a binary64 float *)

(** The number that a finite float stands for, [m * 2^e] with its
    sign; an infinity and a NaN stand for none. *)
Definition float_value (x : float) : option Q :=
  match Prim2SF x with
  | S754_zero _ => Some 0%Q
  | S754_finite s m e =>
      let v := if 0 <=? e then inject_Z (Zpos m * 2 ^ e)
               else Qmake (Zpos m) (Z.to_pos (2 ^ (- e))) in
      Some (if s then (- v)%Q else v)
  | _ => None
  end.

(** [x >= q]: the float is plus infinity, or it is finite and its value
    is at least [q].  It holds for no NaN. *)
Definition float_ge (x : float) (q : Q) : Prop :=
  Prim2SF x = S754_infinity false
  \/ exists v, float_value x = Some v /\ (q <= v)%Q.

(** The same for the bound [b * 2^t], on the mantissa and the
    exponent: no exponent of a binary64 float is below -1074, so both
    sides are scaled by [2^1075] to stay in the integers. *)
Definition sf_ge (b t : Z) (x : spec_float) : Prop :=
  match x with
  | S754_infinity false => True
  | S754_zero _ => b <= 0
  | S754_finite false m e =>
      -1074 <= e /\ b * 2 ^ (t + 1075) <= Zpos m * 2 ^ (e + 1075)
  | _ => False
  end.

(** The bound [j / 2]. *)
Definition sf_ge_half (j : Z) (x : spec_float) : Prop :=
  match x with
  | S754_infinity false => True
  | S754_zero _ => j <= 0
  | S754_finite false m e =>
      -1074 <= e /\ j * 2 ^ 1074 <= Zpos m * 2 ^ (e + 1075)
  | _ => False
  end.

(** A float that is plus zero or a positive number: no infinity, no
    NaN, nothing negative. *)
Definition sf_finite_nonneg (x : spec_float) : Prop :=
  match x with
  | S754_zero false | S754_finite false _ _ => True
  | _ => False
  end.

(** [x > 1/2], in the same form. *)
Definition sf_gt_half (x : spec_float) : Prop :=
  match x with
  | S754_infinity false => True
  | S754_finite false m e =>
      -1074 <= e /\ 2 ^ 1074 < Zpos m * 2 ^ (e + 1075)
  | _ => False
  end.

(** A word as the provider sends it: times in milliseconds. *)
Record ProviderWord := {
  pw_text : string;
  pw_start : float;
  pw_end : float;
  pw_confidence : float
}.

(** The JSON object [j] has the four per-word fields of [pw] (and
    possibly others). *)
Definition encodes_word (j : json float) (pw : ProviderWord) : Prop :=
  exists m, j = JObj m
    /\ m !! "text" = Some (JStr (pw_text pw))
    /\ m !! "start" = Some (JNum (pw_start pw))
    /\ m !! "end" = Some (JNum (pw_end pw))
    /\ m !! "confidence" = Some (JNum (pw_confidence pw)).

(** The canonical word of a provider word: both times divided by 1000.0. *)
Definition canonical (pw : ProviderWord) : Word float :=
  {| word := pw_text pw;
     start := (pw_start pw / 1000)%float;
     end_ := (pw_end pw / 1000)%float;
     confidence := pw_confidence pw |}.

(** The two-word example of the design document. *)
Definition example_words : list (Word float) :=
  [ {| word := "a"; start := 0.0; end_ := 0.3; confidence := 0.9 |};
    {| word := "b"; start := 0.9; end_ := 1.2; confidence := 0.6 |} ]%float.

(** The smallest positive float, [5e-324]. *)
Definition tiny_duration : float := 0x1p-1074%float.

(** ** What a run leaves in the world *)

Section WorldSpec.
Context {F : Type} {PF : PyFloat F} {PR : PyRepr F}.

(** The world after [k] exchanges with the provider that added the
    events [tr]. *)
Definition later (k : nat) (tr : list (event F)) (w : World F) : World F :=
  {| files := files w; read_error := read_error w;
     remove_error := remove_error w;
     network := fun n => network w (k + n)%nat;
     generative := generative w;
     trace := trace w ++ tr |}.

(** The media types of the multipart bodies sent, in order. *)
Definition content_types (tr : list (event F)) : list string :=
  flat_map (fun e => match e with
                     | Sent {| body := Files _ _ content_type |} => [content_type]
                     | _ => []
                     end) tr.

(** The requests sent and the waits, in order. *)
Definition requests (tr : list (event F)) : list (Request F) :=
  flat_map (fun e => match e with Sent r => [r] | _ => [] end) tr.

Definition sleeps (tr : list (event F)) : list Z :=
  flat_map (fun e => match e with Slept s => [s] | _ => [] end) tr.

(** The call raised [httpx.ReadError], the one class of failures that
    [upload_file] re-raises and [upload_file_with_retry] retries. *)
Definition read_failure (o : result (Response F)) : Prop :=
  exists msg, o = Raise (ReadError msg).

(** A transient network-level failure, as the design document counts
    them: a read failure or a connection failure (the latter is among
    the httpx failures that [TransportError] stands for). *)
Definition transient (o : result (Response F)) : Prop :=
  exists msg, o = Raise (ReadError msg) \/ o = Raise (TransportError msg).

(** The path exists and can be opened for reading. *)
Definition readable (w : World F) (path : string) : Prop :=
  path ∈ files w /\ read_error w path = None.

(** The upload request of [upload_file]. *)
Definition upload_request (self : TranscriptionService.t)
  (file_path mime_type : string) : Request F :=
  {| method := "POST";
     url := TranscriptionService.base_url self +:+ "/upload";
     headers := {[ "authorization" := TranscriptionService.api_key self ]};
     body := Files (Str.basename file_path) file_path mime_type;
     follow_redirects := true |}.

(** What [upload_file] makes of the outcome of its request: the status
    tests and the [except] clauses of the source, without the world
    ([upload_file_exchange] below shows that the code computes it). *)
Definition upload_outcome (o : result (Response F)) : result (json F) :=
  match
    (response ← o;
     if status_code response =? 401 then
       Raise (Exception "Invalid AssemblyAI API key")
     else if status_code response =? 413 then
       Raise (Exception "File too large for AssemblyAI")
     else if status_code response =? 429 then
       Raise (Exception "Rate limit exceeded - please try again later")
     else if negb ((status_code response =? 200)
                   || (status_code response =? 201)) then
       Raise (Exception ("Upload failed: "
                         +:+ pretty (status_code response) +:+ " - "
                         +:+ (if Str.truthy (text response)
                              then text response else "Unknown error")))
     else
       result ← match json_body response with
                | Some j => Ok j
                | None => Raise (ValueError "Expecting value")
                end;
       upload_url ← dict_get result "upload_url" JNull;
       if negb (truthy upload_url) then
         Raise (Exception "No upload URL returned from AssemblyAI")
       else Ok upload_url)
  with
  | Ok upload_url => Ok upload_url
  | Raise (ReadError msg) => Raise (ReadError msg)
  | Raise (TimeoutException _) =>
      Raise (Exception
        "Upload timeout - try with a smaller file or check your connection")
  | Raise e => Raise (Exception ("File upload error: " +:+ str_exn e))
  end.

(** The body of the retry loop of [upload_file_with_retry], under a
    name, for the attempt numbered [attempt]. *)
Definition retry_step (self : TranscriptionService.t)
  (file_path mime_type : string) (attempt : Z) : M F (option (json F)) :=
  try_except
    (upload_url ← TranscriptionService.upload_file self file_path mime_type;
     ret (Some upload_url))
    (fun e =>
       match e with
       | ReadError _ =>
           if attempt =? TranscriptionService.max_retries self - 1 then
             raise (Exception ("File upload failed after "
                               +:+ pretty (TranscriptionService.max_retries self)
                               +:+ " attempts: " +:+ str_exn e))
           else
             let wait_time := 2 ^ attempt in
             sleep wait_time;; ret None
       | _ => raise e
       end).

(** The events of [k] failed upload attempts, each followed by its
    wait of [2^attempt] seconds. *)
Definition backoff (k : nat) (req : Request F) : list (event F) :=
  flat_map (fun attempt => [Sent req; Slept (2 ^ Z.of_nat attempt)])
           (seq 0 k).

(** The status request of [_poll_transcript]. *)
Definition poll_request (self : TranscriptionService.t)
  (transcript_id : json F) (headers : gmap string string) : Request F :=
  {| method := "GET";
     url := TranscriptionService.base_url self +:+ "/transcript/"
            +:+ str_json transcript_id;
     headers := headers;
     body := NoPayload;
     follow_redirects := false |}.

(** The provider answers 200 with the JSON object [result], whose
    status is the string [status]. *)
Definition reports (o : result (Response F)) (status : string)
  (result : json F) : Prop :=
  exists response m,
    o = Ok response
    /\ status_code response = 200
    /\ json_body response = Some result
    /\ result = JObj m
    /\ m !! "status" = Some (JStr status).

Definition non_terminal (o : result (Response F)) : Prop :=
  exists result, reports o "queued" result \/ reports o "processing" result.

(** What one iteration of the poll loop makes of the outcome of its
    request: the function is left with a result, or the loop goes on
    ([poll_step] below shows that the code computes it). *)
Inductive poll_verdict :=
| Finished (r : result (json F))
| Pending.

Definition poll_outcome (o : result (Response F)) : poll_verdict :=
  match
    (response ← o;
     if negb (status_code response =? 200) then
       Raise (Exception ("Polling failed: "
                         +:+ pretty (status_code response)
                         +:+ " - " +:+ text response))
     else
       result ← match json_body response with
                | Some j => Ok j
                | None => Raise (ValueError "Expecting value")
                end;
       status ← dict_get result "status" JNull;
       if eq_str status "completed" then Ok (Some result)
       else if eq_str status "error" then
         error_msg ← dict_get result "error"
                       (JStr "Unknown transcription error");
         Raise (Exception ("Transcription failed: " +:+ str_json error_msg))
       else if eq_str status "queued" || eq_str status "processing" then
         Ok None
       else Raise (Exception ("Unknown status: " +:+ str_json status)))
  with
  | Ok (Some result) => Finished (Ok result)
  | Ok None => Pending
  | Raise (TimeoutException _) =>
      Finished (Raise (Exception
        "Polling timeout - transcription taking too long"))
  | Raise e =>
      Finished (Raise (if Str.contains "Transcription failed:" (str_exn e)
                       then e
                       else Exception ("Polling error: " +:+ str_exn e)))
  end.

(** The events of [k] polls answered with a non-terminal status, each
    followed by its wait of 1 second, and the world after them. *)
Definition polling (k : nat) (req : Request F) : list (event F) :=
  concat (replicate k [Sent req; Slept 1]).

Fixpoint polled (k : nat) (req : Request F) (w : World F) : World F :=
  match k with
  | O => w
  | S k' => polled k' req (later 1 [Sent req; Slept 1] w)
  end.

(** The disk of a world: the paths that exist, and which of them
    cannot be read or removed. *)
Definition disk (w : World F)
  : gset string * (string -> option exn) * (string -> option exn) :=
  (files w, read_error w, remove_error w).

(** A computation that leaves the disk alone. *)
Definition keeps_files {A} (m : M F A) : Prop :=
  forall w, disk (snd (m w)) = disk w.

End WorldSpec.

(** ** Budgets and outcomes of a run *)

Section BudgetDefs.
Context {F : Type}.

(** The seconds waited in a trace. *)
Definition total_sleep (tr : list (event F)) : Z :=
  fold_right Z.add 0 (sleeps tr).

(** What one call costs in HTTP requests, when a call of a client that
    follows redirects counts for [c] requests and any other call for
    one: [c] is 1 to count the calls, and 21 to bound the requests of a
    client with httpx's default limit of 20 redirects. *)
Definition cost (c : nat) (r : Request F) : nat :=
  if follow_redirects r then c else 1%nat.

Definition http_requests (c : nat) (tr : list (event F)) : nat :=
  fold_right Nat.add 0%nat (map (cost c) (requests tr)).

(** [m] costs at most [n] requests and waits at most [s] seconds, in
    every world. *)
Definition within {A} (c n : nat) (s : Z) (m : M F A) : Prop :=
  forall w, exists tr,
    trace (snd (m w)) = trace w ++ tr
    /\ (http_requests c tr <= n)%nat
    /\ 0 <= total_sleep tr <= s.

End BudgetDefs.

Section OutcomeSpec.
Context {F : Type} {PF : PyFloat F}.

(** Run from the world [w], what [m] returns satisfies [P] and what it
    raises satisfies [Q]. *)
Definition yields_at {A} (w : World F) (P : A -> Prop) (Q : exn -> Prop)
  (m : M F A) : Prop :=
  match fst (m w) with
  | Ok a => P a
  | Raise e => Q e
  end.

(** The same in every world. *)
Definition yields {A} (P : A -> Prop) (Q : exn -> Prop) (m : M F A) : Prop :=
  forall w, yields_at w P Q m.

Definition is_exception (e : exn) : Prop := exists msg, e = Exception msg.

Definition not_timeout (e : exn) : Prop := forall msg, e <> TimeoutException msg.

(** A provider result whose [status] is ["completed"]. *)
Definition completed (result : json F) : Prop :=
  exists status, dict_get result "status" JNull = Ok status /\
                 eq_str status "completed" = true.

(** The three shapes of the failures of [transcribe_audio]. *)
Definition transcribe_failure (e : exn) : Prop :=
  e = Exception "AssemblyAI API key not configured" \/
  e = Exception "Timeout when submitting transcription job." \/
  exists msg, e = Exception ("Transcription process failed: " +:+ msg).

End OutcomeSpec.

(** ** The submission of a transcription job *)

Section SubmitSpec.
Context {F : Type} {PF : PyFloat F} {PR : PyRepr F}.

(** The headers of [transcribe_audio], which it hands to
    [_poll_transcript]. *)
Definition transcribe_headers (self : TranscriptionService.t)
  : gmap string string :=
  <["authorization" := TranscriptionService.api_key self]>
    {[ "content-type" := "application/json" ]}.

(** The submission request of [transcribe_audio]. *)
Definition submit_request (self : TranscriptionService.t)
  (audio_url : json F) : Request F :=
  {| method := "POST";
     url := TranscriptionService.base_url self +:+ "/transcript";
     headers := transcribe_headers self;
     body := JsonData (JObj {[ "audio_url" := audio_url ]});
     follow_redirects := false |}.

(** The provider accepts the submission: it answers 200 with a JSON
    object whose [id] is the truthy [transcript_id]. *)
Definition accepts (o : result (Response F)) (transcript_id : json F)
  : Prop :=
  exists response m,
    o = Ok response
    /\ status_code response = 200
    /\ json_body response = Some (JObj m)
    /\ m !! "id" = Some transcript_id
    /\ truthy transcript_id = true.

End SubmitSpec.

(** The four fields [parse_transcription_result] reads of a word. *)
Definition word_fields : list string := ["text"; "start"; "end"; "confidence"].

(** ** The endpoints *)

Section HealthSpec.
Context {F : Type}.
(** The request of [assemblyai_health_check]. *)
Definition health_request (ASSEMBLYAI_API_KEY : string) : Request F :=
  {| method := "GET";
     url := "https://api.assemblyai.com/v2/transcript";
     headers := {[ "authorization" := ASSEMBLYAI_API_KEY ]};
     body := NoPayload;
     follow_redirects := false |}.
End HealthSpec.

Section EndpointSpec.
Variable suffix : string -> string.

(** Where [transcribe_and_evaluate] saves the upload named [name]: the
    second identifier drawn names the file (the first one is the
    request's). *)
Definition saved_path (s : Api.App) (name : string) : string :=
  Config.UPLOAD_DIR +:+ "/" +:+ Api.uuids s 1%nat
    +:+ Str.lower (suffix name).

Definition allowed_extension (name : string) : Prop :=
  Str.lower (suffix name) ∈ Config.ALLOWED_EXTENSIONS.

Definition valid_mime_type (mime_type : option string) : Prop :=
  exists t, mime_type = Some t
            /\ t ∈ ["audio/wav"; "audio/mpeg"; "audio/x-wav"].

End EndpointSpec.

(** ** Example worlds *)

(** A disk with one uploaded file, a text model that answers, and the
    given network. *)
Definition example_world (net : nat -> result (Response float))
  : World float :=
  {| files := {[ "uploads/speech.wav" ]};
     read_error := fun _ => None;
     remove_error := fun _ => None;
     network := net;
     generative := fun _ => Ok "Well done.";
     trace := [] |}.

Definition upload_accepted : Response float :=
  {| status_code := 200;
     text := "{...}";
     json_body :=
       Some (JObj {[ "upload_url" := JStr "https://cdn.assemblyai.com/upload/1" ]}) |}.

(** A network that fails twice with a read error and then accepts the
    upload. *)
Definition flaky_network (n : nat) : result (Response float) :=
  match n with
  | 0%nat => Raise (ReadError "connection reset (1)")
  | 1%nat => Raise (ReadError "connection reset (2)")
  | _ => Ok upload_accepted
  end.

(** A network on which the first connection cannot be opened and the
    next call would be accepted. *)
Definition unreachable_network (n : nat) : result (Response float) :=
  match n with
  | 0%nat => Raise (TransportError "All connection attempts failed")
  | _ => Ok upload_accepted
  end.

(** A provider result with one word and no duration field. *)
Definition example_provider_word : ProviderWord :=
  {| pw_text := "hello"; pw_start := 120; pw_end := 480;
     pw_confidence := 0.93 |}.

Definition example_provider_result : gmap string (json float) :=
  <["text" := JStr "hello"]> (
  <["words" :=
      JArr [ JObj (<["text" := JStr "hello"]> (
                   <["start" := JNum 120%float]> (
                   <["end" := JNum 480%float]> (
                   <["confidence" := JNum 0.93%float]> (
                   <["speaker" := JNull]> ∅))))) ]]> ∅).

(** Renderings for the examples; the texts stand for Python's [repr]. *)
Definition example_repr : PyRepr float :=
  {| repr_json := fun _ => "<json>";
     repr_mispronounced := fun l => "<" +:+ pretty (length l) +:+ " words>" |}.

(** A provider that accepts the upload and the submission, reports the
    job as processing once, and then as completed with one word. *)
Definition provider_answer (fields : gmap string (json float))
  : Response float :=
  {| status_code := 200; text := "{...}"; json_body := Some (JObj fields) |}.

Definition cooperative_network (n : nat) : result (Response float) :=
  match n with
  | 0%nat => Ok upload_accepted
  | 1%nat => Ok (provider_answer {[ "id" := JStr "t-1" ]})
  | 2%nat => Ok (provider_answer {[ "status" := JStr "processing" ]})
  | _ => Ok (provider_answer
               (<["status" := JStr "completed"]> example_provider_result))
  end.

(** The cooperative world in which the uploaded file may not be
    deleted. *)
Definition locked_world : World float :=
  {| files := {[ "uploads/speech.wav" ]};
     read_error := fun _ => None;
     remove_error :=
       fun _ => Some (OSError "[Errno 13] Permission denied: 'uploads/speech.wav'");
     network := cooperative_network;
     generative := fun _ => Ok "Well done.";
     trace := [] |}.

(** A disk on which the uploaded file exists and may not be read. *)
Definition unreadable_world : World float :=
  {| files := {[ "uploads/speech.wav" ]};
     read_error :=
       fun _ => Some (OSError "[Errno 13] Permission denied: 'uploads/speech.wav'");
     remove_error := fun _ => None;
     network := cooperative_network;
     generative := fun _ => Ok "Well done.";
     trace := [] |}.

(** The same world with the text model out of service. *)
Definition feedback_outage (w : World float) : World float :=
  {| files := files w; read_error := read_error w;
     remove_error := remove_error w;
     network := network w;
     generative := fun _ => Raise (TransportError "503 service unavailable");
     trace := trace w |}.

(** A provider that reports the job as processing for the first 59
    status requests and as completed from the 60th on. *)
Definition slow_provider (n : nat) : result (Response float) :=
  if (n <? 59)%nat
  then Ok (provider_answer {[ "status" := JStr "processing" ]})
  else Ok (provider_answer
             (<["status" := JStr "completed"]> example_provider_result)).

(** The provider after the upload: it accepts the submission, reports
    the job as processing once, and then as completed. *)
Definition submitted_network (n : nat) : result (Response float) :=
  cooperative_network (S n).

(** A provider that accepts the submission, reports the job as
    processing once, and then as failed. *)
Definition failing_job_network (n : nat) : result (Response float) :=
  match n with
  | 0%nat => Ok (provider_answer {[ "id" := JStr "t-1" ]})
  | 1%nat => Ok (provider_answer {[ "status" := JStr "processing" ]})
  | _ => Ok (provider_answer
               (<["status" := JStr "error"]>
                  {[ "error" := JStr "Audio could not be decoded" ]}))
  end.

(** A provider that refuses every request with status 400 and an empty
    body. *)
Definition refusing_network (n : nat) : result (Response float) :=
  Ok {| status_code := 400; text := ""; json_body := None |}.

(** A provider that reports the job as processing once; then the
    connection is reset. *)
Definition dropping_network (n : nat) : result (Response float) :=
  match n with
  | 0%nat => Ok (provider_answer {[ "status" := JStr "processing" ]})
  | _ => Raise (ReadError "connection reset")
  end.

(** A word of the provider, and the same word without its "end"
    field. *)
Definition complete_word : gmap string (json float) :=
  <["text" := JStr "hello"]> (
  <["start" := JNum 120%float]> (
  <["end" := JNum 480%float]> (
  <["confidence" := JNum 0.93%float]> ∅))).

Definition truncated_word : gmap string (json float) :=
  delete "end" complete_word.

(** A server with an empty upload directory, whose broker numbers the
    tasks, and stand-ins for the two library functions: the suffix is
    that of [os.path.splitext], and only ".wav" and ".mp3" names have a
    type. *)
Definition example_app : Api.App :=
  {| Api.disk := ∅;
     Api.uuids := fun n => "id-" +:+ pretty n;
     Api.open_error := fun _ => None;
     Api.broker := fun _ => Ok "task-1";
     Api.queue := [] |}.

Definition example_suffix (name : string) : string := snd (Str.splitext name).

Definition example_guess_type (name : string) : option string :=
  if String.eqb (Str.lower (example_suffix name)) ".wav" then Some "audio/x-wav"
  else if String.eqb (Str.lower (example_suffix name)) ".mp3"
       then Some "audio/mpeg"
       else None.

Definition example_upload (name content : string) : Api.UploadFile :=
  {| Api.filename := Some name; Api.read := Ok content |}.

(** * Theorems *)

(** ** The analysis stages *)

Section AnalysisFacts.
Context {F : Type} {PF : PyFloat F}.

Lemma index_middle {A} (pre : list A) (a : A) (post : list A) :
  index (pre ++ a :: post) (length pre) = Ok a.
Proof.
  unfold index. now rewrite list_lookup_middle.
Qed.

Lemma fold_append_filter {A B} (p : A -> bool) (f : A -> B) (xs : list A)
  (acc : list B) :
  fold_left (fun acc x => if p x then acc ++ [f x] else acc) xs acc
  = acc ++ map f (List.filter p xs).
Proof.
  revert acc. induction xs as [|x xs IH]; intros acc; simpl.
  - now rewrite app_nil_r.
  - rewrite IH. destruct (p x); simpl; [now rewrite <- app_assoc | reflexivity].
Qed.

(** The index loop of [analyze_pauses] visits the adjacent pairs in
    order and keeps the gaps above the threshold; no index is out of
    range. *)
Lemma pause_loop (ws pre : list (Word F)) (a : Word F) (acc : list F) :
  for_each (seq (S (length pre)) (length ws)) acc
    (fun pauses i =>
       w_i ← index (pre ++ a :: ws) i;
       w_prev ← index (pre ++ a :: ws) (i - 1);
       let pause_duration := fsub (start w_i) (end_ w_prev) in
       if fgt pause_duration Config.PAUSE_THRESHOLD
       then Ok (pauses ++ [pause_duration])
       else Ok pauses)
  = Ok (acc ++ List.filter is_pause (gaps (a :: ws))).
Proof.
  revert pre a acc. induction ws as [|b ws IH]; intros pre a acc.
  - simpl. now rewrite app_nil_r.
  - cbn [length seq for_each].
    replace (S (length pre) - 1)%nat with (length pre) by lia.
    rewrite index_middle.
    replace (pre ++ a :: b :: ws) with ((pre ++ [a]) ++ b :: ws)
      by now rewrite <- app_assoc.
    replace (S (length pre)) with (length (pre ++ [a]))
      by (rewrite length_app; simpl; lia).
    rewrite index_middle.
    cbn [mbind result_bind rbind].
    cbn [gaps List.filter]. unfold is_pause at 1, fgt.
    destruct (flt Config.PAUSE_THRESHOLD (fsub (start b) (end_ a))).
    + cbn [mbind result_bind rbind]. rewrite IH. now rewrite <- app_assoc.
    + cbn [mbind result_bind rbind]. now rewrite IH.
Qed.

Lemma analyze_pauses_short (words : list (Word F)) :
  (length words < 2)%nat ->
  analyze_pauses words
  = Ok {| pause_count := 0;
          total_pause_time_sec := of_Q 0.0;
          pause_feedback := "Insufficient data for pause analysis." |}.
Proof.
  intros Hlen. unfold analyze_pauses, len.
  destruct (Z.ltb_spec (Z.of_nat (length words)) 2); [reflexivity | lia].
Qed.

Lemma analyze_pauses_long (words : list (Word F)) :
  (2 <= length words)%nat ->
  analyze_pauses words
  = let pauses := qualifying_pauses words in
    Ok {| pause_count := len pauses;
          total_pause_time_sec := round_ndigits (sum pauses) 2;
          pause_feedback :=
            if len pauses =? 0 then
              "Great! Your speech flows smoothly without long pauses."
            else if len pauses <=? 2 then
              "Good fluency with minimal pauses."
            else if len pauses <=? 4 then
              "Try to reduce long pauses to improve fluency."
            else
              "Your speech has many long pauses. Practice speaking more continuously."
       |}.
Proof.
  intros Hlen. unfold analyze_pauses, len.
  destruct (Z.ltb_spec (Z.of_nat (length words)) 2); [lia |].
  destruct words as [|a ws]; [simpl in Hlen; lia |].
  unfold range. cbn [length]. rewrite Nat.sub_succ, Nat.sub_0_r.
  pose proof (pause_loop ws [] a []) as Hloop.
  cbn [length app] in Hloop. rewrite Hloop.
  reflexivity.
Qed.

Lemma gaps_lookup (words : list (Word F)) (i : nat) (a b : Word F) :
  words !! i = Some a -> words !! S i = Some b ->
  gaps words !! i = Some (fsub (start b) (end_ a)).
Proof.
  revert i. induction words as [|x [|y rest] IH]; intros i Ha Hb.
  - discriminate.
  - destruct i; discriminate.
  - destruct i as [|i].
    + simpl in Ha, Hb. injection Ha as ->. injection Hb as ->. reflexivity.
    + change (gaps (y :: rest) !! i = Some (fsub (start b) (end_ a))).
      apply IH; assumption.
Qed.

Lemma gaps_length (words : list (Word F)) :
  length (gaps words) = (length words - 1)%nat.
Proof.
  induction words as [|x [|y rest] IH]; try reflexivity.
  change (S (length (gaps (y :: rest))) = (length (x :: y :: rest) - 1)%nat).
  rewrite IH. simpl. lia.
Qed.

End AnalysisFacts.

Section AnalysisTheorems.
Context {F : Type} {PF : PyFloat F}.

(** C4. [analyze_pauses]: with fewer than 2 words the result is zero
    pauses, zero pause time and the insufficient-data text, never an
    exception.  With at least 2 words the gaps are those of the adjacent
    pairs in the given order, [words[i+1].start - words[i].end]; a gap is
    a pause iff it is strictly above the 0.5 threshold; the result has
    the number of such gaps, their sum rounded to 2 decimals, and the
    feedback text of the tier of the count (0; 1-2; 3-4; 5 or more). *)
Theorem analyze_pauses_correct (words : list (Word F)) :
  ((length words < 2)%nat ->
     analyze_pauses words
     = Ok {| pause_count := 0;
             total_pause_time_sec := of_Q 0.0;
             pause_feedback := "Insufficient data for pause analysis." |})
  /\ ((2 <= length words)%nat ->
      exists r,
        analyze_pauses words = Ok r
        /\ pause_count r = len (qualifying_pauses words)
        /\ total_pause_time_sec r
           = round_ndigits (sum (qualifying_pauses words)) 2
        /\ (pause_count r = 0 ->
            pause_feedback r
            = "Great! Your speech flows smoothly without long pauses.")
        /\ (1 <= pause_count r <= 2 ->
            pause_feedback r = "Good fluency with minimal pauses.")
        /\ (3 <= pause_count r <= 4 ->
            pause_feedback r
            = "Try to reduce long pauses to improve fluency.")
        /\ (5 <= pause_count r ->
            pause_feedback r
            = "Your speech has many long pauses. Practice speaking more continuously."))
  /\ (forall i a b,
        words !! i = Some a -> words !! S i = Some b ->
        gaps words !! i = Some (fsub (start b) (end_ a)))
  /\ length (gaps words) = (length words - 1)%nat
  /\ (forall gap, is_pause gap = flt (of_Q 0.5) gap).
Proof.
  split; [apply analyze_pauses_short |].
  split.
  - intros Hlen. rewrite (analyze_pauses_long words Hlen). cbv zeta.
    eexists. split; [reflexivity |]. cbn [pause_count total_pause_time_sec pause_feedback].
    split; [reflexivity |]. split; [reflexivity |].
    repeat split; intros Hc.
    + now rewrite Hc.
    + destruct (Z.eqb_spec (len (qualifying_pauses words)) 0); [lia |].
      destruct (Z.leb_spec (len (qualifying_pauses words)) 2); [reflexivity | lia].
    + destruct (Z.eqb_spec (len (qualifying_pauses words)) 0); [lia |].
      destruct (Z.leb_spec (len (qualifying_pauses words)) 2); [lia |].
      destruct (Z.leb_spec (len (qualifying_pauses words)) 4); [reflexivity | lia].
    + destruct (Z.eqb_spec (len (qualifying_pauses words)) 0); [lia |].
      destruct (Z.leb_spec (len (qualifying_pauses words)) 2); [lia |].
      destruct (Z.leb_spec (len (qualifying_pauses words)) 4); [lia | reflexivity].
  - split; [intros i a b; apply gaps_lookup |].
    split; [apply gaps_length | reflexivity].
Qed.

(** C5. [analyze_pronunciation]: the empty list gives score 0 and no
    mispronounced word; a non-empty list gives the score
    [round(mean(confidence) * 100)] and reports, in the order of the
    input, exactly the words whose confidence is strictly below the 0.85
    threshold, each as its word, start and confidence. *)
Theorem analyze_pronunciation_correct (words : list (Word F)) :
  analyze_pronunciation (F:=F) []
  = Ok {| pronunciation_score := 0; mispronounced_words := [] |}
  /\ (words <> [] ->
      analyze_pronunciation words
      = (m ← mean (map confidence words);
         score ← round_int (fmul m (of_int 100));
         Ok {| pronunciation_score := score;
               mispronounced_words :=
                 map report (List.filter is_mispronounced words) |}))
  /\ (forall w, is_mispronounced w = flt (confidence w) (of_Q 0.85)).
Proof.
  split; [reflexivity |]. split; [| reflexivity].
  intros Hne. destruct words as [|w ws]; [congruence |].
  pose proof (fold_append_filter is_mispronounced report (w :: ws) [])
    as Hfold.
  unfold is_mispronounced at 1, report at 1 in Hfold.
  unfold analyze_pronunciation, mean, len.
  rewrite Hfold, length_map. reflexivity.
Qed.

End AnalysisTheorems.

(** ** Pauses *)

Lemma round_half_even_ge_floor (a b : Z) : a / b <= round_half_even a b.
Proof.
  unfold round_half_even.
  destruct (2 * (a mod b) <? b); [lia |].
  destruct (b <? 2 * (a mod b)); [lia |].
  destruct (Z.even (a / b)); lia.
Qed.

(** On every arithmetic: the count and the sum are those of the gaps
    that pass the threshold test, and of no other gap. *)
Lemma analyze_pauses_counts_pauses_only {F : Type} {PF : PyFloat F}
  (words : list (Word F)) :
  exists r,
    analyze_pauses words = Ok r
    /\ pause_count r = len (qualifying_pauses words)
    /\ 0 <= pause_count r
    /\ ((2 <= length words)%nat ->
        total_pause_time_sec r
        = round_ndigits (sum (qualifying_pauses words)) 2)
    /\ ((length words < 2)%nat -> total_pause_time_sec r = of_Q 0.0)
    /\ (forall gap, In gap (qualifying_pauses words) ->
                    In gap (gaps words) /\ is_pause gap = true).
Proof.
  assert (Hin : forall gap, In gap (qualifying_pauses words) ->
                            In gap (gaps words) /\ is_pause gap = true).
  { intros gap. unfold qualifying_pauses. apply List.filter_In. }
  destruct (Nat.lt_ge_cases (length words) 2) as [Hshort | Hlong].
  - assert (Hq : qualifying_pauses words = []).
    { destruct words as [|a [|b ws]]; [reflexivity | reflexivity |].
      simpl in Hshort. lia. }
    rewrite (analyze_pauses_short words Hshort).
    eexists. split; [reflexivity |].
    cbn [pause_count total_pause_time_sec]. rewrite Hq in *.
    repeat split; try reflexivity; try (intros; lia); apply Hin; assumption.
  - rewrite (analyze_pauses_long words Hlong). cbv zeta.
    eexists. split; [reflexivity |].
    cbn [pause_count total_pause_time_sec].
    repeat split; try reflexivity; try (unfold len; lia);
      try (intros; lia); apply Hin; assumption.
Qed.

(** On binary64 floats the threshold test is the IEEE comparison
    [0.5 < gap]: it fails for every negative gap and for a NaN. *)
Lemma binary64_is_pause (gap : float) :
  is_pause gap = PrimFloat.ltb 0.5 gap.
Proof.
  unfold is_pause, Config.PAUSE_THRESHOLD. cbn [flt binary64].
  replace (of_Q (F:=float) 0.5) with 0.5%float by (vm_compute; reflexivity).
  reflexivity.
Qed.

(** ** Pauses on binary64 floats

    Rounding to nearest never takes a sum below a bound that is itself
    a float: the sum of [j] gaps above 0.5 is at least [j / 2] as long
    as [j / 2] is a float, which it is up to [j = 2^53]. *)

(** A mantissa of [d] binary digits lies in [[2^(d-1), 2^d)]. *)
Lemma digits2_pos_bounds (m : positive) :
  2 ^ (Zpos (digits2_pos m) - 1) <= Zpos m < 2 ^ Zpos (digits2_pos m).
Proof.
  induction m as [p IH | p IH |]; cbn [digits2_pos].
  - rewrite Pos2Z.inj_succ.
    replace (Z.succ (Z.pos (digits2_pos p)) - 1) with (Z.succ (Z.pos (digits2_pos p) - 1)) by lia.
    rewrite !Z.pow_succ_r by lia. lia.
  - rewrite Pos2Z.inj_succ.
    replace (Z.succ (Z.pos (digits2_pos p)) - 1) with (Z.succ (Z.pos (digits2_pos p) - 1)) by lia.
    rewrite !Z.pow_succ_r by lia. lia.
  - cbn. lia.
Qed.

Lemma shr_1_m (mrs : shr_record) :
  0 <= shr_m mrs -> shr_m (shr_1 mrs) = shr_m mrs / 2.
Proof.
  destruct mrs as [m r s]. cbn [shr_m]. intros Hm.
  destruct m as [|[p|p|]|p]; cbn [shr_1 shr_m]; try lia.
  all: first [ reflexivity
             | apply Z.div_unique with (r := 1); lia
             | apply Z.div_unique with (r := 0); lia ].
Qed.

(** Shifting a mantissa right by [p] bits divides it by [2^p]. *)
Lemma iter_pos_shr_m (p : positive) :
  forall mrs, 0 <= shr_m mrs ->
    shr_m (SpecFloat.iter_pos shr_1 p mrs) = shr_m mrs / 2 ^ Zpos p.
Proof.
  induction p as [p IH | p IH |]; intros mrs Hm; cbn [SpecFloat.iter_pos].
  - assert (H1 : 0 <= shr_m (shr_1 mrs)) by (rewrite shr_1_m by assumption; apply Z.div_pos; lia).
    assert (Hp : 0 < 2 ^ Zpos p) by (apply Z.pow_pos_nonneg; lia).
    assert (H2 : 0 <= shr_m (SpecFloat.iter_pos shr_1 p (shr_1 mrs)))
      by (rewrite IH by assumption; apply Z.div_pos; lia).
    rewrite IH by assumption. rewrite IH by assumption.
    rewrite shr_1_m by assumption.
    rewrite !Z.div_div by lia.
    f_equal. rewrite (Pos2Z.inj_xI p).
    rewrite Z.pow_add_r by lia. rewrite Z.pow_mul_r by lia.
    change (2 ^ 2) with (2 * 2). change (2 ^ 1) with 2.
    rewrite Z.pow_mul_l. ring.
  - assert (Hp : 0 < 2 ^ Zpos p) by (apply Z.pow_pos_nonneg; lia).
    assert (H2 : 0 <= shr_m (SpecFloat.iter_pos shr_1 p mrs))
      by (rewrite IH by assumption; apply Z.div_pos; lia).
    rewrite IH by assumption. rewrite IH by assumption.
    rewrite !Z.div_div by lia.
    f_equal. rewrite (Pos2Z.inj_xO p).
    rewrite Z.pow_mul_r by lia.
    change (2 ^ 2) with (2 * 2).
    rewrite Z.pow_mul_l. ring.
  - rewrite shr_1_m by assumption. reflexivity.
Qed.

Lemma shr_record_of_loc_m m l : shr_m (shr_record_of_loc m l) = m.
Proof. destruct l as [|[]]; reflexivity. Qed.

Lemma round_nearest_even_ge m l : m <= round_nearest_even m l.
Proof.
  destruct l as [|[]]; cbn [round_nearest_even]; try lia.
  destruct (Z.even m); lia.
Qed.

Lemma fexp_eq e : fexp 53 1024 e = Z.max (e - 53) (-1074).
Proof. reflexivity. Qed.

Lemma pow2_pos (n : Z) : 0 <= n -> 0 < 2 ^ n.
Proof. intros Hn. apply Z.pow_pos_nonneg; lia. Qed.

(** Truncating to the precision of the format keeps a value that is at
    least [b * 2^t] at least [b * 2^t], for [b] up to [2^53]: up to
    exponent [t] the bound is a multiple of the unit in the last place,
    and above it a 53-bit mantissa is worth at least [2^52] units. *)
Lemma shr_fexp_lower (b t m e : Z) (l : location) mrs' e' :
  0 <= m -> b <= 2 ^ 53 -> -1075 <= t -> -1074 <= e ->
  b * 2 ^ (t + 1075) <= m * 2 ^ (e + 1075) ->
  shr_fexp 53 1024 m e l = (mrs', e') ->
  0 <= shr_m mrs' /\ -1074 <= e'
  /\ b * 2 ^ (t + 1075) <= shr_m mrs' * 2 ^ (e' + 1075).
Proof.
  intros Hm Hb Ht He Hle. unfold shr_fexp, shr. rewrite fexp_eq.
  destruct (Z.max (Zdigits2 m + e - 53) (-1074) - e) as [|p|p] eqn:Hn.
  1,3: intros [= <- <-]; rewrite shr_record_of_loc_m; auto.
  intros [= <- <-].
  rewrite iter_pos_shr_m by (rewrite shr_record_of_loc_m; exact Hm).
  rewrite shr_record_of_loc_m.
  destruct m as [|q|q]; [cbn in Hn; lia | | lia].
  cbn [Zdigits2] in Hn.
  pose proof (digits2_pos_bounds q) as [Hlo Hhi].
  set (d := Zpos (digits2_pos q)) in *.
  assert (Hp : Zpos p = d - 53) by lia.
  assert (HP : 0 < 2 ^ Zpos p) by (apply Z.pow_pos_nonneg; lia).
  assert (HA : 0 < 2 ^ (e + 1075)) by (apply Z.pow_pos_nonneg; lia).
  split; [apply Z.div_pos; lia |]. split; [lia |].
  replace (e + Zpos p + 1075) with ((e + 1075) + Zpos p) by lia.
  rewrite (Z.pow_add_r 2 (e + 1075) (Zpos p)) by lia.
  destruct (Z.le_gt_cases (e + Zpos p) t) as [Hlow | Hhigh].
  - assert (HT : 0 < 2 ^ (t - (e + Zpos p))) by (apply Z.pow_pos_nonneg; lia).
    assert (HW : 2 ^ (t + 1075)
                 = 2 ^ (t - (e + Zpos p)) * (2 ^ (e + 1075) * 2 ^ Zpos p)).
    { rewrite <- !Z.pow_add_r by lia. f_equal. lia. }
    rewrite HW in Hle |- *.
    set (T := 2 ^ (t - (e + Zpos p))) in *.
    set (A := 2 ^ (e + 1075)) in *.
    set (P := 2 ^ Zpos p) in *.
    assert (Hq : b * T <= Zpos q / P).
    { apply Z.div_le_lower_bound; [exact HP |]. nia. }
    nia.
  - assert (Hq : 2 ^ 52 <= Zpos q / 2 ^ Zpos p).
    { apply Z.div_le_lower_bound; [exact HP |].
      replace (d - 1) with (Zpos p + 52) in Hlo by lia.
      rewrite Z.pow_add_r in Hlo by lia. lia. }
    assert (HA' : 2 * 2 ^ (t + 1075) <= 2 ^ (e + 1075) * 2 ^ Zpos p).
    { rewrite <- Z.pow_add_r by lia. rewrite <- Z.pow_succ_r by lia.
      apply Z.pow_le_mono_r; lia. }
    assert (HWpos : 0 < 2 ^ (t + 1075)) by (apply Z.pow_pos_nonneg; lia).
    set (W := 2 ^ (t + 1075)) in *.
    set (AP := 2 ^ (e + 1075) * 2 ^ Zpos p) in *.
    set (Q := Zpos q / 2 ^ Zpos p) in *.
    assert (H53 : 2 ^ 53 = 2 * 2 ^ 52) by reflexivity.
    set (B := 2 ^ 52) in *.
    assert (0 < B) by (subst B; reflexivity).
    clearbody W AP Q B. nia.
Qed.

(** Hence rounding to nearest does not go below [b * 2^t] either: it
    gives plus infinity or a float that is at least [b * 2^t]. *)
Lemma binary_round_aux_ge (b t m e : Z) (l : location) :
  0 <= m -> b <= 2 ^ 53 -> -1075 <= t -> -1074 <= e ->
  b * 2 ^ (t + 1075) <= m * 2 ^ (e + 1075) ->
  sf_ge b t (binary_round_aux 53 1024 false m e l).
Proof.
  intros Hm Hb Ht He Hle. unfold binary_round_aux.
  destruct (shr_fexp 53 1024 m e l) as [mrs' e'] eqn:H1.
  destruct (shr_fexp_lower b t m e l mrs' e' Hm Hb Ht He Hle H1)
    as (Hm' & He' & Hle').
  pose proof (round_nearest_even_ge (shr_m mrs') (loc_of_shr_record mrs'))
    as Hround.
  set (m2 := round_nearest_even (shr_m mrs') (loc_of_shr_record mrs')) in *.
  assert (Hle2 : b * 2 ^ (t + 1075) <= m2 * 2 ^ (e' + 1075)).
  { pose proof (pow2_pos (e' + 1075) ltac:(lia)). nia. }
  destruct (shr_fexp 53 1024 m2 e' loc_Exact) as [mrs'' e''] eqn:H2.
  destruct (shr_fexp_lower b t m2 e' loc_Exact mrs'' e'' ltac:(lia) Hb Ht
              He' Hle2 H2)
    as (Hm'' & He'' & Hle'').
  destruct (shr_m mrs'') as [|q|q]; cbn [sf_ge].
  - pose proof (pow2_pos (t + 1075) ltac:(lia)). nia.
  - destruct (e'' <=? 1024 - 53); cbn [sf_ge]; auto.
  - lia.
Qed.

Lemma binary_round_aux_lower (j m e : Z) (l : location) :
  0 <= m -> j <= 2 ^ 53 -> -1074 <= e ->
  j * 2 ^ 1074 <= m * 2 ^ (e + 1075) ->
  sf_ge_half j (binary_round_aux 53 1024 false m e l).
Proof.
  intros Hm Hj He Hle.
  exact (binary_round_aux_ge j (-1) m e l Hm Hj ltac:(lia) He Hle).
Qed.

Lemma iter_xO_value (m d : positive) :
  Zpos (Pos.iter xO m d) = Zpos m * 2 ^ Zpos d.
Proof.
  induction d as [|d IH] using Pos.peano_ind.
  - cbn [Pos.iter]. rewrite (Pos2Z.inj_xO m). change (2 ^ 1) with 2. ring.
  - rewrite Pos.iter_succ, Pos2Z.inj_succ, Z.pow_succ_r by lia.
    rewrite (Pos2Z.inj_xO (Pos.iter xO m d)), IH. ring.
Qed.

Lemma shl_align_value (m : positive) (e e' : Z) m1 e1 :
  -1074 <= e -> -1074 <= e' ->
  shl_align m e e' = (m1, e1) ->
  e1 = Z.min e e'
  /\ Zpos m1 * 2 ^ (e1 + 1075) = Zpos m * 2 ^ (e + 1075).
Proof.
  intros He He'. unfold shl_align.
  destruct (e' - e) as [|d|d] eqn:Hd; intros [= <- <-].
  - split; [lia | reflexivity].
  - split; [lia | reflexivity].
  - split; [lia |]. rewrite iter_xO_value.
    replace (e + 1075) with ((e' + 1075) + Zpos d) by lia.
    rewrite (Z.pow_add_r 2 (e' + 1075) (Zpos d)) by lia. ring.
Qed.

Lemma valid_exponent s m e :
  valid_binary (S754_finite s m e) = true ->
  e = Z.max (Zpos (digits2_pos m) + e - 53) (-1074).
Proof.
  cbn [valid_binary]. unfold bounded, canonical_mantissa.
  rewrite fexp_eq. intros [H _]%andb_prop. apply Z.eqb_eq in H. lia.
Qed.

(** One addition of the sum: a running total of at least [j / 2] plus
    a gap above [1 / 2] is, once rounded, at least [(j + 1) / 2]. *)
Lemma SFadd_ge_half (j : Z) (x y : spec_float) :
  valid_binary x = true -> valid_binary y = true ->
  0 <= j -> j + 1 <= 2 ^ 53 ->
  sf_ge_half j x -> sf_gt_half y ->
  sf_ge_half (j + 1) (SFadd 53 1024 x y).
Proof.
  intros Hvx Hvy Hj0 Hj Hx Hy.
  pose proof (pow2_pos 1074 ltac:(lia)) as HW.
  destruct x as [sx | [|] | | [|] mx ex]; cbn [sf_ge_half] in Hx; try contradiction;
  destruct y as [sy | [|] | | [|] my ey]; cbn [sf_gt_half] in Hy; try contradiction;
  cbn [SFadd sf_ge_half]; auto.
  - destruct Hy as [He Hy]. split; [exact He | nia].
  - destruct Hx as [Hex Hx], Hy as [Hey Hy].
    destruct (shl_align mx ex (Z.min ex ey)) as [ax e1] eqn:Hax.
    destruct (shl_align my ey (Z.min ex ey)) as [ay e2] eqn:Hay.
    assert (Hmin : -1074 <= Z.min ex ey) by lia.
    destruct (shl_align_value _ _ _ _ _ Hex Hmin Hax) as [-> Hvx'].
    destruct (shl_align_value _ _ _ _ _ Hey Hmin Hay) as [-> Hvy'].
    cbn [fst cond_Zopp].
    change (Z.pos ax + Z.pos ay) with (Z.pos (ax + ay)).
    cbn [binary_normalize]. unfold binary_round.
    set (ez := Z.min ex ey) in *.
    replace (Z.min ex ez) with ez in * by lia.
    replace (Z.min ey ez) with ez in * by lia.
    destruct (shl_align (ax + ay) ez
                (fexp 53 1024 (Zpos (digits2_pos (ax + ay)) + ez)))
      as [mz ez'] eqn:Hmz.
    assert (Hfexp : -1074 <= fexp 53 1024 (Zpos (digits2_pos (ax + ay)) + ez))
      by (rewrite fexp_eq; lia).
    destruct (shl_align_value _ _ _ _ _ Hmin Hfexp Hmz) as [Hez' Hvz].
    apply binary_round_aux_lower; lia.
Qed.

Lemma Prim2SF_half : Prim2SF 0.5 = S754_finite false 4503599627370496 (-53).
Proof. vm_compute. reflexivity. Qed.

Lemma pow2_split (a b : Z) : 0 <= a -> 0 <= b -> 2 ^ (a + b) = 2 ^ a * 2 ^ b.
Proof. intros. apply Z.pow_add_r; assumption. Qed.

(** The test [0.5 < g] of the loop, read on the mantissa and exponent
    of [g]. *)
Lemma ltb_half_gt (g : float) :
  PrimFloat.ltb 0.5 g = true -> sf_gt_half (Prim2SF g).
Proof.
  rewrite ltb_spec, Prim2SF_half. pose proof (Prim2SF_valid g) as Hv.
  destruct (Prim2SF g) as [s|[|]| |[|] m e]; cbn [SFltb SFcompare sf_gt_half];
    try discriminate; auto.
  pose proof (valid_exponent _ _ _ Hv) as He.
  pose proof (digits2_pos_bounds m) as [Hlo Hhi].
  destruct (Z.compare_spec (-53) e) as [Heq | Hlt | Hgt]; try discriminate.
  - subst e.
    change (PosDef.Pos.compare_cont Eq 4503599627370496 m)
      with (Pos.compare 4503599627370496 m).
    destruct (Pos.compare_spec 4503599627370496 m) as [? | Hm | ?];
      try discriminate.
    intros _. split; [lia |]. change (-53 + 1075) with 1022.
    assert (H1074 : 2 ^ 1074 = 4503599627370496 * 2 ^ 1022) by reflexivity.
    rewrite H1074.
    pose proof (pow2_pos 1022 ltac:(lia)).
    set (A := 2 ^ 1022) in *. clearbody A. nia.
  - intros _. split; [lia |].
    assert (Hd : Zpos (digits2_pos m) = 53) by lia.
    rewrite Hd in Hlo. change (2 ^ (53 - 1)) with 4503599627370496 in Hlo.
    replace (e + 1075) with (1023 + (e + 52)) by lia.
    rewrite (pow2_split 1023 (e + 52)) by lia.
    pose proof (pow2_pos (e + 52) ltac:(lia)).
    assert (H1074 : 2 ^ 1074 = 2251799813685248 * 2 ^ 1023) by reflexivity.
    rewrite H1074.
    pose proof (pow2_pos 1023 ltac:(lia)).
    set (A := 2 ^ 1023) in *. set (B := 2 ^ (e + 52)) in *.
    clearbody A B. nia.
Qed.

(** The sum of gaps that all pass the test, from a total of at least
    [j / 2]. *)
Lemma sum_ge_half (xs : list float) :
  forall (acc : float) (j : Z),
    0 <= j -> j + len xs <= 2 ^ 53 ->
    sf_ge_half j (Prim2SF acc) ->
    Forall (fun g => PrimFloat.ltb 0.5 g = true) xs ->
    sf_ge_half (j + len xs) (Prim2SF (fold_left PrimFloat.add xs acc)).
Proof.
  unfold len.
  induction xs as [|g xs IH]; intros acc j Hj0 Hj Hacc Hall.
  - cbn [fold_left length]. now rewrite Z.add_0_r.
  - cbn [fold_left]. cbn [length] in Hj |- *.
    rewrite Nat2Z.inj_succ in Hj |- *.
    replace (j + Z.succ (Z.of_nat (length xs)))
      with ((j + 1) + Z.of_nat (length xs)) by lia.
    apply Forall_cons in Hall as [Hg Hall].
    apply IH; [lia | lia | | exact Hall].
    rewrite add_spec. unfold SF64add.
    apply SFadd_ge_half; try apply Prim2SF_valid; try lia; [exact Hacc |].
    now apply ltb_half_gt.
Qed.

Lemma digits2_pos_unique (m : positive) (n : Z) :
  2 ^ (n - 1) <= Zpos m < 2 ^ n -> Zpos (digits2_pos m) = n.
Proof.
  intros [Hlo Hhi].
  pose proof (digits2_pos_bounds m) as [Hlo' Hhi'].
  assert (Hn : 0 < n).
  { destruct (Z.lt_ge_cases 0 n) as [? | Hle]; [assumption |].
    destruct (Z.eq_dec n 0) as [-> | ?]; [cbn in Hhi; lia |].
    rewrite Z.pow_neg_r in Hhi by lia. lia. }
  set (d := Zpos (digits2_pos m)) in *.
  assert (Hd : 0 < d) by (subst d; lia).
  destruct (Z.lt_trichotomy d n) as [Hlt | [Heq | Hgt]]; [| exact Heq |].
  - assert (2 ^ d <= 2 ^ (n - 1)) by (apply Z.pow_le_mono_r; lia). lia.
  - assert (2 ^ n <= 2 ^ (d - 1)) by (apply Z.pow_le_mono_r; lia). lia.
Qed.

(** An integer below [2^53] is a float, with a 53-bit mantissa. *)
Lemma Z2float_spec (k : positive) :
  Zpos k < 2 ^ 53 ->
  exists m e,
    Prim2SF (Z2float (Zpos k)) = S754_finite false m e
    /\ -52 <= e <= 0
    /\ Zpos m = Zpos k * 2 ^ (- e)
    /\ Zpos (digits2_pos m) = 53.
Proof.
  intros Hk.
  pose proof (digits2_pos_bounds k) as [Hlo Hhi].
  set (d := Zpos (digits2_pos k)) in *.
  assert (Hd1 : 1 <= d) by (subst d; lia).
  assert (Hd53 : d <= 53).
  { destruct (Z.le_gt_cases d 53) as [? | Hgt]; [assumption |].
    assert (2 ^ 53 <= 2 ^ (d - 1)) by (apply Z.pow_le_mono_r; lia). lia. }
  assert (Hshl : exists m,
            shl_align k 0 (fexp 53 1024 (d + 0)) = (m, d - 53)
            /\ Zpos m = Zpos k * 2 ^ (53 - d)).
  { rewrite fexp_eq. unfold shl_align.
    replace (Z.max (d + 0 - 53) (-1074) - 0) with (d - 53) by lia.
    destruct (d - 53) as [|n|n] eqn:Hn; [| lia |].
    - exists k. split; [reflexivity |].
      replace (53 - d) with 0 by lia. cbn. lia.
    - exists (Pos.iter xO k n). split.
      + f_equal. lia.
      + rewrite iter_xO_value. f_equal. f_equal. lia. }
  destruct Hshl as (m & Hshl & Hm).
  assert (Hdm : Zpos (digits2_pos m) = 53).
  { apply digits2_pos_unique. rewrite Hm. change (53 - 1) with 52.
    pose proof (pow2_pos (53 - d) ltac:(lia)) as HP.
    replace 52 with ((d - 1) + (53 - d)) at 1 by lia.
    replace 53 with (d + (53 - d)) at 4 by lia.
    rewrite !pow2_split by lia. nia. }
  assert (Hnorm : binary_normalize 53 1024 (Zpos k) 0 false
                  = S754_finite false m (d - 53)).
  { cbn [binary_normalize]. unfold binary_round. fold d. rewrite Hshl.
    unfold binary_round_aux, shr_fexp. cbn [Zdigits2].
    rewrite Hdm, fexp_eq.
    replace (Z.max (53 + (d - 53) - 53) (-1074) - (d - 53)) with 0 by lia.
    cbn [shr shr_record_of_loc shr_m loc_of_shr_record round_nearest_even
         Zdigits2].
    rewrite Hdm, fexp_eq.
    replace (Z.max (53 + (d - 53) - 53) (-1074) - (d - 53)) with 0 by lia.
    cbn [shr shr_record_of_loc shr_m].
    destruct (Z.leb_spec (d - 53) (1024 - 53)) as [_ | Hbad]; [reflexivity |].
    lia. }
  exists m, (d - 53).
  split.
  - unfold Z2float. change prec with 53. change emax with 1024.
    rewrite Hnorm. apply Prim2SF_SF2Prim.
    cbn [SpecFloat.valid_binary]. unfold bounded, canonical_mantissa.
    rewrite Hdm. change prec with 53. change emax with 1024.
    rewrite fexp_eq.
    apply andb_true_intro. split; [apply Z.eqb_eq | apply Z.leb_le]; lia.
  - split; [lia |]. split; [| exact Hdm].
    rewrite Hm. f_equal. f_equal. lia.
Qed.

Lemma Prim2SF_hundred :
  Prim2SF (Z2float 100) = S754_finite false 7036874417766400 (-46).
Proof. vm_compute. reflexivity. Qed.

Lemma div_eucl_div_mod (a b : Z) : Z.div_eucl a b = (a / b, a mod b).
Proof. unfold Z.div, Z.modulo. now destruct (Z.div_eucl a b). Qed.

(** The quotient of [round(x, 2)]: for [k >= 50 * c] hundredths, the
    float nearest to [k / 100] is at least [c / 2]. *)
Lemma div_hundred_ge_half (c k : Z) :
  0 <= c -> 50 * c <= k -> k < 2 ^ 53 ->
  sf_ge_half c (Prim2SF (Z2float k / Z2float 100)).
Proof.
  intros Hc Hck Hk.
  destruct k as [|k|k]; [| | lia].
  { assert (Hzero : Prim2SF (Z2float 0 / Z2float 100) = S754_zero false)
      by (vm_compute; reflexivity).
    rewrite Hzero. cbn [sf_ge_half]. lia. }
  destruct (Z2float_spec k Hk) as (m & e & Hm & He & Hval & Hdm).
  rewrite div_spec, Hm, Prim2SF_hundred. unfold SF64div.
  cbn [SFdiv xorb].
  assert (Hcore :
    SFdiv_core_binary prec emax (Zpos m) e 7036874417766400 (-46)
    = (Zpos m * 2 ^ 53 / 7036874417766400, e - 7,
       new_location 7036874417766400
         ((Zpos m * 2 ^ 53) mod 7036874417766400))).
  { unfold SFdiv_core_binary. cbn [Zdigits2]. rewrite Hdm.
    change (Z.pos (digits2_pos 7036874417766400)) with 53.
    change prec with 53. change emax with 1024. rewrite fexp_eq.
    replace (Z.min (Z.max (53 + e - (53 + -46) - 53) (-1074)) (e - -46))
      with (e - 7) by lia.
    replace (e - -46 - (e - 7)) with 53 by lia.
    rewrite Z.shiftl_mul_pow2 by lia.
    now rewrite div_eucl_div_mod. }
  rewrite Hcore.
  assert (H53 : 2 ^ 53 = 9007199254740992) by reflexivity.
  assert (HE : 0 < 2 ^ (- e)) by (apply pow2_pos; lia).
  assert (Hq : c * (64 * 2 ^ (- e)) <= Zpos m * 2 ^ 53 / 7036874417766400).
  { apply Z.div_le_lower_bound; [lia |]. rewrite Hval, H53.
    set (E := 2 ^ (- e)) in *. clearbody E. nia. }
  apply binary_round_aux_lower.
  - apply Z.div_pos; [| lia]. rewrite H53. lia.
  - lia.
  - lia.
  - replace (e - 7 + 1075) with (e + 1068) by lia.
    assert (HW : 2 ^ 1074 = 64 * 2 ^ (- e) * 2 ^ (e + 1068)).
    { rewrite <- Z.mul_assoc, <- pow2_split by lia.
      replace (- e + (e + 1068)) with 1068 by lia. reflexivity. }
    rewrite HW.
    pose proof (pow2_pos (e + 1068) ltac:(lia)) as HA.
    set (q := Zpos m * 2 ^ 53 / 7036874417766400) in *.
    set (E := 2 ^ (- e)) in *. set (A := 2 ^ (e + 1068)) in *.
    clearbody q E A. nia.
Qed.

(** [round(x, 2)] of a float that is at least [c / 2] is at least
    [c / 2]. *)
Lemma round_ndigits_ge_half (c : Z) (x : float) :
  0 <= c <= 2 ^ 53 ->
  sf_ge_half c (Prim2SF x) ->
  sf_ge_half c (Prim2SF (float_round_ndigits x 2)).
Proof.
  intros Hc. unfold float_round_ndigits.
  destruct (Prim2SF x) as [s | [|] | | [|] m e] eqn:Hx;
    cbn [sf_ge_half]; try contradiction;
    try (intros H; rewrite Hx; exact H).
  intros [He Hle].
  change (Z.pow_pos 10 2) with 100. cbv zeta.
  set (k := if 0 <=? e then Zpos m * 2 ^ e * 100
            else round_half_even (Zpos m * 100) (2 ^ (- e))).
  destruct (2 ^ 53 <=? k) eqn:Hbig.
  { rewrite Hx. cbn [sf_ge_half]. split; assumption. }
  apply Z.leb_gt in Hbig.
  apply div_hundred_ge_half; [lia | | exact Hbig].
  subst k. destruct (Z.leb_spec 0 e) as [Hpos | Hneg].
  - assert (HW : 2 ^ (e + 1075) = 2 ^ e * (2 * 2 ^ 1074)).
    { rewrite pow2_split by lia. f_equal. }
    rewrite HW in Hle.
    pose proof (pow2_pos 1074 ltac:(lia)) as HWpos.
    pose proof (pow2_pos e Hpos) as HE.
    set (W := 2 ^ 1074) in *. set (E := 2 ^ e) in *. clearbody W E.
    nia.
  - eapply Z.le_trans; [| apply round_half_even_ge_floor].
    pose proof (pow2_pos (- e) ltac:(lia)) as HE.
    apply Z.div_le_lower_bound; [exact HE |].
    assert (HW : 2 ^ 1074 = 2 ^ (- e - 1) * 2 ^ (e + 1075)).
    { rewrite <- pow2_split by lia. f_equal. lia. }
    assert (HE2 : 2 ^ (- e) = 2 * 2 ^ (- e - 1)).
    { replace (- e) with (Z.succ (- e - 1)) at 1 by lia.
      rewrite Z.pow_succ_r by lia. reflexivity. }
    rewrite HW in Hle. rewrite HE2.
    pose proof (pow2_pos (e + 1075) ltac:(lia)) as HA.
    pose proof (pow2_pos (- e - 1) ltac:(lia)) as HT.
    set (T := 2 ^ (- e - 1)) in *. set (A := 2 ^ (e + 1075)) in *.
    clearbody T A. nia.
Qed.

(** The bound on the mantissa and exponent is the bound on the
    value. *)
Lemma sf_ge_half_float_ge (c : Z) (x : float) :
  sf_ge_half c (Prim2SF x) -> float_ge x (0.5 * inject_Z c).
Proof.
  unfold float_ge, float_value.
  destruct (Prim2SF x) as [s | [|] | | [|] m e]; cbn [sf_ge_half];
    try contradiction.
  - intros Hc. right. exists 0%Q. split; [reflexivity |].
    unfold Qle. cbn. lia.
  - intros _. now left.
  - intros [He Hle]. right. eexists. split; [reflexivity |]. cbv zeta.
    destruct (Z.leb_spec 0 e) as [Hpos | Hneg].
    + unfold Qle. cbn [Qnum Qden Qmult inject_Z].
      assert (HW : 2 ^ (e + 1075) = 2 ^ e * (2 * 2 ^ 1074)).
      { rewrite pow2_split by lia. f_equal. }
      rewrite HW in Hle.
      pose proof (pow2_pos 1074 ltac:(lia)) as HWpos.
      pose proof (pow2_pos e Hpos) as HE.
      set (W := 2 ^ 1074) in *. set (E := 2 ^ e) in *. clearbody W E.
      nia.
    + unfold Qle. cbn [Qnum Qden Qmult inject_Z].
      pose proof (pow2_pos (- e) ltac:(lia)) as HE.
      rewrite Z2Pos.id by exact HE.
      assert (HW : 2 ^ 1074 = 2 ^ (- e - 1) * 2 ^ (e + 1075)).
      { rewrite <- pow2_split by lia. f_equal. lia. }
      assert (HE2 : 2 ^ (- e) = 2 * 2 ^ (- e - 1)).
      { replace (- e) with (Z.succ (- e - 1)) at 1 by lia.
        rewrite Z.pow_succ_r by lia. reflexivity. }
      rewrite HW in Hle. rewrite HE2.
      pose proof (pow2_pos (e + 1075) ltac:(lia)) as HA.
      pose proof (pow2_pos (- e - 1) ltac:(lia)) as HT.
      set (T := 2 ^ (- e - 1)) in *. set (A := 2 ^ (e + 1075)) in *.
      clearbody T A. nia.
Qed.

Lemma float_ge_weaken (x : float) (q q' : Q) :
  (q' <= q)%Q -> float_ge x q -> float_ge x q'.
Proof.
  intros Hq [Hinf | (v & Hv & Hle)]; [now left |].
  right. exists v. split; [exact Hv |]. now apply Qle_trans with q.
Qed.

Lemma sf_ge_half_not_negative (c : Z) (x : float) :
  sf_ge_half c (Prim2SF x) -> PrimFloat.ltb x 0 = false.
Proof.
  rewrite ltb_spec.
  replace (Prim2SF 0) with (S754_zero false) by (vm_compute; reflexivity).
  destruct (Prim2SF x) as [s | [|] | | [|] m e]; cbn [sf_ge_half];
    try contradiction; reflexivity.
Qed.

(** A negative gap fails the test. *)
Lemma negative_is_no_pause (gap : float) :
  PrimFloat.ltb gap 0 = true -> PrimFloat.ltb 0.5 gap = false.
Proof.
  rewrite !ltb_spec, Prim2SF_half.
  replace (Prim2SF 0) with (S754_zero false) by (vm_compute; reflexivity).
  destruct (Prim2SF gap) as [s | [|] | | [|] m e]; cbn; try discriminate;
    reflexivity.
Qed.

(** C10. [analyze_pauses] never reports a negative pause metric.  On
    binary64 floats, for every list of at most [2^53] words, whatever
    the order of their timings: the count is the number of gaps that
    pass the IEEE test [gap > 0.5] and the total is the rounded sum of
    exactly those gaps, so a gap that fails the test, every negative
    one among them, is in neither.  The count is at least 0, and the
    total is plus infinity or a number that is at least 0.5 times the
    count, hence at least 0: it is no NaN, and Python's [total < 0] is
    false. *)
Theorem analyze_pauses_never_negative (words : list (Word float)) :
  len words <= 2 ^ 53 ->
  exists r,
    analyze_pauses words = Ok r
    /\ pause_count r = len (qualifying_pauses words)
    /\ 0 <= pause_count r
    /\ (forall gap, In gap (qualifying_pauses words) ->
          In gap (gaps words) /\ PrimFloat.ltb 0.5 gap = true)
    /\ (forall gap, PrimFloat.ltb gap 0 = true ->
          ~ In gap (qualifying_pauses words))
    /\ ((2 <= length words)%nat ->
        total_pause_time_sec r
        = round_ndigits (sum (qualifying_pauses words)) 2)
    /\ float_ge (total_pause_time_sec r) (0.5 * inject_Z (pause_count r))
    /\ (0 <= 0.5 * inject_Z (pause_count r))%Q
    /\ float_ge (total_pause_time_sec r) 0
    /\ PrimFloat.ltb (total_pause_time_sec r) 0 = false.
Proof.
  intros Hlen.
  destruct (analyze_pauses_counts_pauses_only words)
    as (r & Hr & Hcount & Hnonneg & Hlong & Hshort & Hin).
  assert (Hall : Forall (fun g => PrimFloat.ltb 0.5 g = true)
                   (qualifying_pauses words)).
  { apply List.Forall_forall. intros gap Hgap.
    rewrite <- binary64_is_pause. now apply Hin. }
  assert (Hcount_le : len (qualifying_pauses words) <= 2 ^ 53).
  { pose proof (List.filter_length_le is_pause (gaps words)) as Hle.
    pose proof (gaps_length words) as Hgaps.
    unfold len, qualifying_pauses in *. lia. }
  assert (Htotal : sf_ge_half (pause_count r)
                     (Prim2SF (total_pause_time_sec r))).
  { destruct (Nat.lt_ge_cases (length words) 2) as [Hlt | Hge].
    - rewrite (Hshort Hlt), Hcount.
      assert (Hq : qualifying_pauses words = []).
      { destruct words as [|a [|b ws]]; [reflexivity | reflexivity |].
        simpl in Hlt. lia. }
      rewrite Hq.
      replace (Prim2SF (of_Q 0.0)) with (S754_zero false)
        by (vm_compute; reflexivity).
      cbn [sf_ge_half]. unfold len. cbn [length]. lia.
    - rewrite (Hlong Hge), Hcount. cbn [round_ndigits binary64].
      apply round_ndigits_ge_half; [unfold len in *; lia |].
      unfold sum. cbn [fadd of_int binary64].
      rewrite <- (Z.add_0_l (len (qualifying_pauses words))).
      apply sum_ge_half; [lia | lia | | exact Hall].
      replace (Prim2SF (Z2float 0)) with (S754_zero false)
        by (vm_compute; reflexivity).
      cbn [sf_ge_half]. lia. }
  assert (Hhalf : (0 <= 0.5 * inject_Z (pause_count r))%Q).
  { unfold Qle. cbn. lia. }
  exists r. split; [exact Hr |]. split; [exact Hcount |].
  split; [exact Hnonneg |].
  split.
  { intros gap Hgap. destruct (Hin gap Hgap) as [Hmem Hpause].
    split; [exact Hmem |]. now rewrite <- binary64_is_pause. }
  split.
  { intros gap Hneg Hgap. rewrite List.Forall_forall in Hall.
    pose proof (Hall gap Hgap) as Hpause.
    rewrite (negative_is_no_pause gap Hneg) in Hpause. discriminate. }
  split; [exact Hlong |].
  split; [now apply sf_ge_half_float_ge |].
  split; [exact Hhalf |].
  split.
  { apply (float_ge_weaken _ (0.5 * inject_Z (pause_count r))); [exact Hhalf |].
    now apply sf_ge_half_float_ge. }
  now apply (sf_ge_half_not_negative (pause_count r)).
Qed.

Lemma analyze_pauses_never_negative_witness :
  exists r,
    analyze_pauses example_words = Ok r
    /\ float_ge (total_pause_time_sec r) (0.5 * inject_Z (pause_count r))
    /\ PrimFloat.ltb (total_pause_time_sec r) 0 = false.
Proof.
  destruct (analyze_pauses_never_negative example_words)
    as (r & Hr & _ & _ & _ & _ & _ & Hge & _ & _ & Hsign).
  - vm_compute. discriminate.
  - exists r. split; [exact Hr |]. split; [exact Hge | exact Hsign].
Defined.

(** ** Pacing *)

(** The guard of [analyze_pacing]: no words, or a duration equal to 0. *)
Lemma analyze_pacing_guard {F : Type} {PF : PyFloat F}
  (words : list (Word F)) (audio_duration : F) :
  words = [] \/ feq audio_duration (of_int 0) = true ->
  analyze_pacing words audio_duration
  = Ok {| pacing_wpm := 0;
          pacing_feedback := "Unable to calculate pacing." |}.
Proof.
  unfold analyze_pacing. intros [-> | ->]; [reflexivity |].
  now rewrite orb_true_r.
Qed.

(** In exact arithmetic the guard is enough: a duration that is
    not 0 has a sixtieth that is not 0, and the rate is a non-negative
    integer. *)
Lemma analyze_pacing_exact (words : list (Word Q)) (audio_duration : Q) :
  (0 <= audio_duration)%Q -> words <> [] -> ~ (audio_duration == 0)%Q ->
  exists wpm,
    round_int (inject_Z (len words) / (audio_duration / 60))%Q = Ok wpm
    /\ 0 <= wpm
    /\ analyze_pacing words audio_duration
       = Ok {| pacing_wpm := wpm;
               pacing_feedback :=
                 if wpm <? 90 then
                   "Your speaking pace is too slow. Try to speak a bit faster."
                 else if 150 <? wpm then
                   "Your speaking pace is too fast. Try to slow down a bit."
                 else "Your speaking pace is appropriate." |}.
Proof.
  intros Hnonneg Hwords Hnz.
  eexists. split; [reflexivity |]. split.
  - eapply Z.le_trans; [| apply round_half_even_ge_floor].
    apply Z.div_pos; [| reflexivity].
    assert (Hq : (0 <= inject_Z (len words) / (audio_duration / 60))%Q).
    { apply Qle_shift_div_l.
      - apply Qlt_shift_div_l; [reflexivity |].
        rewrite Qmult_0_l. apply Qle_lteq in Hnonneg.
        destruct Hnonneg as [Hlt | Heq]; [exact Hlt |].
        exfalso. apply Hnz. now symmetry.
      - rewrite Qmult_0_l. unfold Qle, len. cbn. lia. }
    unfold Qle in Hq. cbn [Qnum Qden] in Hq. lia.
  - unfold analyze_pacing.
    destruct words as [|w ws]; [congruence |].
    cbn [orb feq exact of_int].
    destruct (Qeq_bool audio_duration (inject_Z 0)) eqn:Hz.
    { apply Qeq_bool_iff in Hz. contradiction. }
    unfold truediv. cbn [feq exact of_int of_Q fdiv].
    replace (Qeq_bool 60 (inject_Z 0)) with false by reflexivity.
    assert (Hz60 : Qeq_bool (audio_duration / 60) (inject_Z 0) = false).
    { destruct (Qeq_bool (audio_duration / 60) (inject_Z 0)) eqn:Hq;
        [| reflexivity].
      apply Qeq_bool_iff in Hq. exfalso. apply Hnz.
      apply (Qmult_inj_r _ _ (/ 60)); [discriminate |].
      rewrite Qmult_0_l. exact Hq. }
    cbn [mbind result_bind rbind]. rewrite Hz60.
    reflexivity.
Qed.

(** The case the guard misses, on any arithmetic: the duration is not
    equal to 0 but its sixtieth is. *)
Lemma analyze_pacing_missed_case {F : Type} {PF : PyFloat F}
  (words : list (Word F)) (audio_duration : F) :
  words <> [] ->
  feq audio_duration (of_int 0) = false ->
  feq (of_Q 60) (of_int 0) = false ->
  feq (fdiv audio_duration (of_Q 60)) (of_int 0) = true ->
  analyze_pacing words audio_duration = Raise ZeroDivisionError.
Proof.
  intros Hwords Hnz H60 Hzero. unfold analyze_pacing, truediv.
  destruct words as [|w ws]; [congruence |].
  rewrite Hnz, H60. cbn [orb mbind result_bind rbind].
  now rewrite Hzero.
Qed.

(** C6. On binary64 floats the guard is not enough: the smallest
    positive duration is not equal to 0, its sixtieth underflows to 0.0,
    and the division of the word count by it raises
    [ZeroDivisionError]; for a slightly larger subnormal duration the
    quotient overflows and [round] raises [OverflowError]. *)
Theorem analyze_pacing_subnormal_duration :
  PrimFloat.ltb 0 tiny_duration = true
  /\ PrimFloat.eqb tiny_duration 0 = false
  /\ analyze_pacing example_words tiny_duration = Raise ZeroDivisionError
  /\ analyze_pacing example_words 0x1p-1030%float = Raise OverflowError.
Proof.
  repeat split; vm_compute; reflexivity.
Qed.

(** The worked example of the design document, on binary64 floats. *)
Example example_pronunciation :
  analyze_pronunciation example_words
  = Ok {| pronunciation_score := 75;
          mispronounced_words :=
            [ {| mp_word := "b"; mp_start := 0.9%float;
                 mp_confidence := 0.6%float |} ] |}.
Proof. vm_compute. reflexivity. Qed.

Example example_pacing :
  analyze_pacing example_words 1.2%float
  = Ok {| pacing_wpm := 100;
          pacing_feedback := "Your speaking pace is appropriate." |}.
Proof. vm_compute. reflexivity. Qed.

Example example_pauses :
  analyze_pauses example_words
  = Ok {| pause_count := 1;
          total_pause_time_sec := 0.6%float;
          pause_feedback := "Good fluency with minimal pauses." |}.
Proof. vm_compute. reflexivity. Qed.

(** ** The transcript normaliser *)

Lemma truediv_1000 (x : float) :
  truediv x (of_Q 1000.0) = Ok (x / 1000)%float.
Proof.
  unfold truediv.
  replace (feq (of_Q 1000.0) (of_int 0)) with false
    by (vm_compute; reflexivity).
  replace (of_Q (F:=float) 1000.0) with 1000%float
    by (vm_compute; reflexivity).
  reflexivity.
Qed.

Lemma zero_duration_default :
  truediv (of_int (F:=float) 0) (of_Q 1000.0) = Ok 0%float.
Proof. vm_compute. reflexivity. Qed.

Lemma parse_words_loop (word_list : list (json float))
  (pws : list ProviderWord) (acc : list (Word float)) :
  Forall2 encodes_word word_list pws ->
  for_each word_list acc
    (fun words word_data =>
       w_text ← dict_item word_data "text" ≫= as_string;
       w_start ← dict_item word_data "start" ≫= as_number;
       w_start ← truediv w_start (of_Q 1000.0);
       w_end ← dict_item word_data "end" ≫= as_number;
       w_end ← truediv w_end (of_Q 1000.0);
       w_confidence ← dict_item word_data "confidence" ≫= as_number;
       Ok (words ++ [ {| word := w_text; start := w_start;
                         end_ := w_end; confidence := w_confidence |} ]))
  = Ok (acc ++ map canonical pws).
Proof.
  intros Hall. revert acc.
  induction Hall as [|j pw js pws' Hj _ IH]; intros acc.
  - cbn. now rewrite app_nil_r.
  - destruct Hj as (m & -> & Htext & Hstart & Hend & Hconf).
    cbn [for_each dict_item].
    rewrite Htext, Hstart, Hend, Hconf.
    cbn [mbind result_bind rbind as_string as_number].
    rewrite !truediv_1000.
    cbn [mbind result_bind rbind].
    rewrite IH. cbn [map]. now rewrite <- app_assoc.
Qed.

(** C8. [parse_transcription_result] on a provider result with a text
    and a list of words (none, when the field is missing) that have the
    four per-word fields: every word
    becomes the canonical word with the same text and confidence and
    with start and end divided by 1000.0; the duration is the
    provider's divided by 1000.0, and when the provider result has no
    duration field it is 0, not an error. *)
Theorem parse_transcription_result_correct
  (m : gmap string (json float)) (text : string)
  (word_list : list (json float)) (pws : list ProviderWord) :
  m !! "text" = Some (JStr text) ->
  default (JArr []) (m !! "words") = JArr word_list ->
  Forall2 encodes_word word_list pws ->
  (forall duration_ms,
     m !! "audio_duration" = Some (JNum duration_ms) ->
     TranscriptionService.parse_transcription_result (JObj m)
     = Ok {| TranscriptionService.transcript := text;
             TranscriptionService.words := map canonical pws;
             TranscriptionService.audio_duration_sec :=
               (duration_ms / 1000)%float |})
  /\ (m !! "audio_duration" = None ->
      TranscriptionService.parse_transcription_result (JObj m)
      = Ok {| TranscriptionService.transcript := text;
              TranscriptionService.words := map canonical pws;
              TranscriptionService.audio_duration_sec := 0%float |})
  /\ (forall pw,
        word (canonical pw) = pw_text pw
        /\ start (canonical pw) = (pw_start pw / 1000)%float
        /\ end_ (canonical pw) = (pw_end pw / 1000)%float
        /\ confidence (canonical pw) = pw_confidence pw).
Proof.
  intros Htext Hwords Hall.
  pose proof (parse_words_loop word_list pws [] Hall) as Hloop.
  cbn [app] in Hloop.
  split; [| split].
  - intros duration_ms Hdur.
    unfold TranscriptionService.parse_transcription_result.
    cbn [dict_get dict_item]. rewrite Hwords, Htext, Hdur.
    cbn [mbind result_bind rbind iterate as_string as_number from_option id].
    rewrite Hloop. cbn [mbind result_bind rbind].
    rewrite truediv_1000. reflexivity.
  - intros Hdur.
    unfold TranscriptionService.parse_transcription_result.
    cbn [dict_get dict_item]. rewrite Hwords, Htext, Hdur.
    cbn [mbind result_bind rbind iterate as_string as_number from_option id].
    rewrite Hloop. cbn [mbind result_bind rbind].
    rewrite zero_duration_default. reflexivity.
  - intros pw. repeat split.
Qed.

Lemma parse_transcription_result_witness :
  TranscriptionService.parse_transcription_result
    (JObj example_provider_result)
  = Ok {| TranscriptionService.transcript := "hello";
          TranscriptionService.words := [canonical example_provider_word];
          TranscriptionService.audio_duration_sec := 0%float |}.
Proof.
  refine (proj1 (proj2 (parse_transcription_result_correct
            example_provider_result "hello" _ [example_provider_word]
            _ _ _)) _).
  - vm_compute. reflexivity.
  - vm_compute. reflexivity.
  - constructor; [| constructor].
    eexists. split; [reflexivity |].
    repeat split; vm_compute; reflexivity.
  - vm_compute. reflexivity.
Defined.

(** ** Upload with retry *)

Section UploadFacts.
Context {F : Type} {PF : PyFloat F}.

Lemma upload_file_exchange (self : TranscriptionService.t)
  (file_path mime_type : string) (w : World F) :
  Str.truthy (TranscriptionService.api_key self) = true ->
  readable w file_path ->
  TranscriptionService.upload_file self file_path mime_type w
  = (upload_outcome (network w 0%nat),
     later 1 [Sent (upload_request self file_path mime_type)] w).
Proof.
  intros Hkey [Hfile Hopen].
  unfold TranscriptionService.upload_file. rewrite Hkey. cbn [negb].
  unfold try_except, mbind, M_bind, bind, os_path_exists, open_rb.
  rewrite (bool_decide_eq_true_2 _ Hfile). cbn [negb]. cbv beta iota zeta.
  rewrite ?(bool_decide_eq_true_2 _ Hfile), Hopen.
  unfold send, upload_outcome, later, upload_request. cbn [fst snd].
  destruct (network w 0%nat) as [response | e].
  - cbn [mbind result_bind rbind].
    destruct (status_code response =? 401); [reflexivity |].
    destruct (status_code response =? 413); [reflexivity |].
    destruct (status_code response =? 429); [reflexivity |].
    destruct (negb ((status_code response =? 200)
                    || (status_code response =? 201))); [reflexivity |].
    unfold response_json.
    destruct (json_body response) as [j |]; [| reflexivity].
    unfold ret, lift. cbn [mbind result_bind rbind].
    destruct (dict_get j "upload_url" JNull) as [upload_url | e];
      [| destruct e; reflexivity].
    cbn [mbind result_bind rbind].
    destruct (negb (truthy upload_url)); reflexivity.
  - destruct e; reflexivity.
Qed.

Lemma upload_file_content_type (self : TranscriptionService.t)
  (file_path mime_type : string) (w : World F) :
  Str.truthy (TranscriptionService.api_key self) = true ->
  readable w file_path ->
  content_types
    (trace (snd (TranscriptionService.upload_file self file_path mime_type w)))
  = content_types (trace w) ++ [mime_type].
Proof.
  intros Hkey Hfile. rewrite upload_file_exchange by assumption.
  cbn [snd later trace]. unfold content_types.
  rewrite flat_map_app. reflexivity.
Qed.

Lemma upload_outcome_read_failure (msg : string) :
  upload_outcome (F:=F) (Raise (ReadError msg)) = Raise (ReadError msg).
Proof. reflexivity. Qed.

Lemma upload_outcome_not_read_failure (o : result (Response F)) (msg : string) :
  ~ read_failure o -> upload_outcome o <> Raise (ReadError msg).
Proof.
  intros Hnt. unfold upload_outcome.
  destruct o as [response | e].
  - cbn [mbind result_bind rbind].
    destruct (status_code response =? 401); [discriminate |].
    destruct (status_code response =? 413); [discriminate |].
    destruct (status_code response =? 429); [discriminate |].
    destruct (negb _); [discriminate |].
    destruct (json_body response) as [j |]; [| discriminate].
    cbn [mbind result_bind rbind].
    destruct j; cbn [dict_get mbind result_bind rbind]; try discriminate.
    destruct (negb _); discriminate.
  - destruct e; cbn [mbind result_bind rbind]; try discriminate.
    exfalso. apply Hnt. now eexists.
Qed.

Lemma upload_file_with_retry_unfold (self : TranscriptionService.t)
  (file_path mime_type : string) :
  TranscriptionService.upload_file_with_retry (F:=F) self file_path mime_type
  = for_loop
      (map Z.of_nat (range 0 (Z.to_nat (TranscriptionService.max_retries self))))
      (retry_step self file_path mime_type) (ret JNull).
Proof. reflexivity. Qed.

(** One iteration of the retry loop. *)
Lemma upload_attempt (self : TranscriptionService.t)
  (file_path mime_type : string) (attempt : Z) (w : World F) :
  Str.truthy (TranscriptionService.api_key self) = true ->
  readable w file_path ->
  let req := upload_request self file_path mime_type in
  retry_step self file_path mime_type attempt w
  = match upload_outcome (network w 0%nat) with
    | Ok upload_url => (Ok (Some upload_url), later 1 [Sent req] w)
    | Raise (ReadError msg) =>
        if attempt =? TranscriptionService.max_retries self - 1 then
          (Raise (Exception ("File upload failed after "
                             +:+ pretty (TranscriptionService.max_retries self)
                             +:+ " attempts: " +:+ msg)),
           later 1 [Sent req] w)
        else (Ok None, later 1 [Sent req; Slept (2 ^ attempt)] w)
    | Raise e => (Raise e, later 1 [Sent req] w)
    end.
Proof.
  intros Hkey Hfile req.
  unfold retry_step, try_except, mbind, M_bind, bind.
  rewrite upload_file_exchange by assumption. fold req.
  destruct (upload_outcome (network w 0%nat)) as [upload_url | e];
    [reflexivity |].
  destruct e; try reflexivity.
  destruct (attempt =? TranscriptionService.max_retries self - 1);
    [reflexivity |].
  unfold sleep, ret, record, later. cbn [files network generative trace].
  now rewrite <- app_assoc.
Qed.

(** An attempt that does not end in a read failure ends the loop with
    its own result. *)
Lemma retry_loop_final (self : TranscriptionService.t)
  (file_path mime_type : string) (attempt : Z) (rest : list Z)
  (w : World F) :
  Str.truthy (TranscriptionService.api_key self) = true ->
  readable w file_path ->
  ~ read_failure (network w 0%nat) ->
  for_loop (attempt :: rest) (retry_step self file_path mime_type)
    (ret JNull) w
  = (upload_outcome (network w 0%nat),
     later 1 [Sent (upload_request self file_path mime_type)] w).
Proof.
  intros Hkey Hfile Hnt.
  cbn [for_loop]. unfold bind at 1. rewrite upload_attempt by assumption.
  pose proof (upload_outcome_not_read_failure (network w 0%nat)) as Hne.
  destruct (upload_outcome (network w 0%nat)) as [upload_url | e];
    [reflexivity |].
  destruct e; try reflexivity.
  exfalso. now apply (Hne msg).
Qed.

(** A read failure of an attempt that is not the last one is
    followed by the wait and the rest of the loop. *)
Lemma retry_loop_read_failure (self : TranscriptionService.t)
  (file_path mime_type : string) (attempt : Z) (rest : list Z)
  (w : World F) (msg : string) :
  Str.truthy (TranscriptionService.api_key self) = true ->
  readable w file_path ->
  network w 0%nat = Raise (ReadError msg) ->
  (attempt =? TranscriptionService.max_retries self - 1) = false ->
  for_loop (attempt :: rest) (retry_step self file_path mime_type)
    (ret JNull) w
  = for_loop rest (retry_step self file_path mime_type) (ret JNull)
      (later 1 [Sent (upload_request self file_path mime_type);
                Slept (2 ^ attempt)] w).
Proof.
  intros Hkey Hfile Hnet Hattempt.
  cbn [for_loop]. unfold bind at 1. rewrite upload_attempt by assumption.
  rewrite Hnet, upload_outcome_read_failure, Hattempt. reflexivity.
Qed.

(** A read failure of the last attempt is the exhaustion error. *)
Lemma retry_loop_exhausted (self : TranscriptionService.t)
  (file_path mime_type : string) (attempt : Z) (rest : list Z)
  (w : World F) (msg : string) :
  Str.truthy (TranscriptionService.api_key self) = true ->
  readable w file_path ->
  network w 0%nat = Raise (ReadError msg) ->
  (attempt =? TranscriptionService.max_retries self - 1) = true ->
  for_loop (attempt :: rest) (retry_step self file_path mime_type)
    (ret JNull) w
  = (Raise (Exception ("File upload failed after "
                       +:+ pretty (TranscriptionService.max_retries self)
                       +:+ " attempts: " +:+ msg)),
     later 1 [Sent (upload_request self file_path mime_type)] w).
Proof.
  intros Hkey Hfile Hnet Hattempt.
  cbn [for_loop]. unfold bind at 1. rewrite upload_attempt by assumption.
  rewrite Hnet, upload_outcome_read_failure, Hattempt. reflexivity.
Qed.

(** Without a key or without the file no request is sent: the first
    attempt fails at once and is not retried. *)
Lemma upload_retry_no_request (self : TranscriptionService.t)
  (file_path mime_type : string) (w : World F) :
  TranscriptionService.max_retries self = 3 ->
  Str.truthy (TranscriptionService.api_key self) = false
  \/ file_path ∉ files w ->
  exists msg,
    TranscriptionService.upload_file_with_retry self file_path mime_type w
    = (Raise (Exception msg), w).
Proof.
  intros Hmax Hcase.
  rewrite upload_file_with_retry_unfold, Hmax.
  change (map Z.of_nat (range 0 (Z.to_nat 3))) with [0; 1; 2].
  cbn [for_loop]. unfold bind at 1.
  unfold retry_step, try_except, mbind, M_bind, bind at 1.
  unfold TranscriptionService.upload_file.
  destruct (Str.truthy (TranscriptionService.api_key self)) eqn:Hkey.
  - destruct Hcase as [Hk | Hfile]; [discriminate |].
    cbn [negb]. unfold try_except, mbind, M_bind, bind, os_path_exists.
    rewrite (bool_decide_eq_false_2 _ Hfile). cbn [negb].
    now eexists.
  - cbn [negb]. now eexists.
Qed.

(** X24. Upload with retry, for a configured key and a file that can be
    read, with 3 attempts at most.  A read failure ([ReadError]) of
    attempt [k], [k] = 0 or 1, is followed by a wait of exactly [2^k]
    seconds and then by the next attempt; the result is that of the
    first attempt that is not a read failure, and nothing is sent and no
    wait is made after it.  Three read failures give the error that
    names the 3 attempts and carries the text of the last [ReadError].
    A rejected key, too large a payload, a rate limit and a response
    without the upload URL each give an error that is not a
    [ReadError], so they are not retried. *)
Lemma upload_read_failure_policy (self : TranscriptionService.t)
  (file_path mime_type : string) (w : World F) :
  Str.truthy (TranscriptionService.api_key self) = true ->
  TranscriptionService.max_retries self = 3 ->
  readable w file_path ->
  let req := upload_request self file_path mime_type in
  let run :=
    TranscriptionService.upload_file_with_retry self file_path mime_type w in
  (forall k, (k <= 2)%nat ->
     (forall i, (i < k)%nat -> read_failure (network w i)) ->
     ~ read_failure (network w k) ->
     run = (upload_outcome (network w k),
            later (S k) (backoff k req ++ [Sent req]) w))
  /\ (forall msg,
        (forall i, (i < 2)%nat -> read_failure (network w i)) ->
        network w 2%nat = Raise (ReadError msg) ->
        run = (Raise (Exception ("File upload failed after 3 attempts: "
                                 +:+ msg)),
               later 3 (backoff 2 req ++ [Sent req]) w))
  /\ backoff 2 req = [Sent req; Slept 1; Sent req; Slept 2]
  /\ (forall o msg, ~ read_failure o -> upload_outcome o <> Raise (ReadError msg))
  /\ (forall response,
        (status_code response = 401 ->
         upload_outcome (Ok response)
         = Raise (Exception "File upload error: Invalid AssemblyAI API key"))
        /\ (status_code response = 413 ->
            upload_outcome (Ok response)
            = Raise (Exception
                "File upload error: File too large for AssemblyAI"))
        /\ (status_code response = 429 ->
            upload_outcome (Ok response)
            = Raise (Exception
                "File upload error: Rate limit exceeded - please try again later"))
        /\ (forall m,
              status_code response = 200 ->
              json_body response = Some (JObj m) ->
              m !! "upload_url" = None ->
              upload_outcome (Ok response)
              = Raise (Exception
                  "File upload error: No upload URL returned from AssemblyAI"))).
Proof.
  intros Hkey Hmax Hfile req run.
  assert (Hrun : run
    = for_loop [0; 1; 2] (retry_step self file_path mime_type) (ret JNull) w).
  { unfold run. rewrite upload_file_with_retry_unfold, Hmax. reflexivity. }
  assert (Hnot_last : forall attempt, attempt < 2 ->
            (attempt =? TranscriptionService.max_retries self - 1) = false).
  { intros attempt Hlt. rewrite Hmax. apply Z.eqb_neq. lia. }
  split; [| split; [| split; [| split]]].
  - intros k Hk Hpre Hlast. rewrite Hrun. clear Hrun run.
    destruct k as [|[|[|k]]]; [| | | lia].
    + rewrite retry_loop_final by assumption. reflexivity.
    + destruct (Hpre 0%nat ltac:(lia)) as [m0 H0].
      rewrite (retry_loop_read_failure _ _ _ 0 _ w m0)
        by (assumption || (apply Hnot_last; lia)).
      rewrite retry_loop_final by assumption.
      unfold later; cbn [files network generative trace].
      rewrite <- !app_assoc. reflexivity.
    + destruct (Hpre 0%nat ltac:(lia)) as [m0 H0].
      destruct (Hpre 1%nat ltac:(lia)) as [m1 H1].
      rewrite (retry_loop_read_failure _ _ _ 0 _ w m0)
        by (assumption || (apply Hnot_last; lia)).
      rewrite (retry_loop_read_failure _ _ _ 1 _ _ m1)
        by (assumption || (apply Hnot_last; lia)).
      rewrite retry_loop_final by assumption.
      unfold later; cbn [files network generative trace].
      rewrite <- !app_assoc. reflexivity.
  - intros msg Hpre H2. rewrite Hrun. clear Hrun run.
    destruct (Hpre 0%nat ltac:(lia)) as [m0 H0].
    destruct (Hpre 1%nat ltac:(lia)) as [m1 H1].
    rewrite (retry_loop_read_failure _ _ _ 0 _ w m0)
      by (assumption || (apply Hnot_last; lia)).
    rewrite (retry_loop_read_failure _ _ _ 1 _ _ m1)
      by (assumption || (apply Hnot_last; lia)).
    rewrite (retry_loop_exhausted _ _ _ 2 _ _ msg)
      by (assumption || (rewrite Hmax; reflexivity)).
    rewrite Hmax.
    unfold later; cbn [files network generative trace].
    rewrite <- !app_assoc. reflexivity.
  - reflexivity.
  - intros o msg. apply upload_outcome_not_read_failure.
  - intros response. unfold upload_outcome.
    cbn [mbind result_bind rbind].
    repeat split.
    + intros ->. reflexivity.
    + intros ->. reflexivity.
    + intros ->. reflexivity.
    + intros m -> -> Hurl. cbn [Z.eqb Pos.eqb orb negb dict_get mbind result_bind rbind].
      rewrite Hurl. reflexivity.
Qed.

(** C2. A connection failure is a transient network-level failure, and
    [upload_file_with_retry] does not retry it: when the first call
    cannot open its connection ([httpx.ConnectError], with the text
    [msg]), [upload_file] turns the failure into a plain [Exception] in
    its last clause, the retry loop passes that on from its own last
    clause, and the run ends after this one call with
    "File upload error: [msg]", without a wait and without a second
    attempt, whatever the network would have answered next. *)
Theorem upload_connection_failure_not_retried (self : TranscriptionService.t)
  (file_path mime_type : string) (w : World F) (msg : string) :
  Str.truthy (TranscriptionService.api_key self) = true ->
  TranscriptionService.max_retries self = 3 ->
  readable w file_path ->
  network w 0%nat = Raise (TransportError msg) ->
  let req := upload_request self file_path mime_type in
  let run :=
    TranscriptionService.upload_file_with_retry self file_path mime_type w in
  transient (network w 0%nat)
  /\ run = (Raise (Exception ("File upload error: " +:+ msg)),
           later 1 [Sent req] w)
  /\ requests (trace (snd run)) = requests (trace w) ++ [req]
  /\ sleeps (trace (snd run)) = sleeps (trace w)
  /\ network (snd run) 0%nat = network w 1%nat.
Proof.
  intros Hkey Hmax Hfile Hnet req run.
  assert (Hrun : run = (Raise (Exception ("File upload error: " +:+ msg)),
                        later 1 [Sent req] w)).
  { unfold run. rewrite upload_file_with_retry_unfold, Hmax.
    change (map Z.of_nat (range 0 (Z.to_nat 3))) with [0; 1; 2].
    rewrite retry_loop_final; try assumption.
    - rewrite Hnet. reflexivity.
    - rewrite Hnet. intros [m Hm]. discriminate Hm. }
  split; [exists msg; right; exact Hnet |].
  split; [exact Hrun |].
  rewrite Hrun. cbn [snd later trace network].
  unfold requests, sleeps. rewrite !flat_map_app. cbn [flat_map app].
  rewrite !app_nil_r. repeat split; reflexivity.
Qed.

End UploadFacts.

Lemma upload_connection_failure_not_retried_witness :
  let self := TranscriptionService.init "key" in
  let w := example_world unreachable_network in
  let run :=
    TranscriptionService.upload_file_with_retry self
      "uploads/speech.wav" "audio/x-wav" w in
  fst run
  = Raise (Exception "File upload error: All connection attempts failed")
  /\ requests (trace (snd run))
     = [upload_request self "uploads/speech.wav" "audio/x-wav"]
  /\ sleeps (trace (snd run)) = []
  /\ network (snd run) 0%nat = Ok upload_accepted.
Proof.
  intros self w run.
  assert (Hfile : "uploads/speech.wav" ∈ files w).
  { apply elem_of_singleton. reflexivity. }
  destruct (upload_connection_failure_not_retried self
              "uploads/speech.wav" "audio/x-wav" w
              "All connection attempts failed"
              eq_refl eq_refl (conj Hfile eq_refl) eq_refl)
    as (_ & Hrun & Hrequests & Hsleeps & Hnext).
  fold run in Hrun, Hrequests, Hsleeps, Hnext.
  split; [now rewrite Hrun |].
  split; [exact Hrequests |].
  split; [exact Hsleeps | exact Hnext].
Defined.

Lemma upload_read_failure_policy_witness :
  TranscriptionService.upload_file_with_retry
    (TranscriptionService.init "key") "uploads/speech.wav" "audio/x-wav"
    (example_world flaky_network)
  = (Ok (JStr "https://cdn.assemblyai.com/upload/1"),
     later 3
       ([ Sent (upload_request (TranscriptionService.init "key")
                  "uploads/speech.wav" "audio/x-wav");
          Slept 1;
          Sent (upload_request (TranscriptionService.init "key")
                  "uploads/speech.wav" "audio/x-wav");
          Slept 2 ]
        ++ [ Sent (upload_request (TranscriptionService.init "key")
                     "uploads/speech.wav" "audio/x-wav") ])
       (example_world flaky_network)).
Proof.
  assert (Hfile : "uploads/speech.wav" ∈ files (example_world flaky_network)).
  { apply elem_of_singleton. reflexivity. }
  destruct (upload_read_failure_policy (TranscriptionService.init "key")
              "uploads/speech.wav" "audio/x-wav"
              (example_world flaky_network) eq_refl eq_refl
              (conj Hfile eq_refl))
    as [Hretry _].
  apply (Hretry 2%nat).
  - apply le_n.
  - intros [|[|i]] Hi.
    + now eexists.
    + now eexists.
    + lia.
  - intros [msg Hmsg]. discriminate Hmsg.
Defined.


(** ** The poll loop *)

Section PollFacts.
Context {F : Type} {PF : PyFloat F} {PR : PyRepr F}.
Variables (self : TranscriptionService.t) (transcript_id : json F)
  (headers : gmap string string).

Local Abbreviation req := (poll_request self transcript_id headers).

Lemma poll_step (n : nat) (w : World F) :
  TranscriptionService.poll_loop self transcript_id headers (S n) w
  = match poll_outcome (network w 0%nat) with
    | Finished r => (r, later 1 [Sent req] w)
    | Pending =>
        TranscriptionService.poll_loop self transcript_id headers n
          (later 1 [Sent req; Slept 1] w)
    end.
Proof.
  assert (Hsleep : record (Slept 1) (later 1 [Sent req] w)
                   = later 1 [Sent req; Slept 1] w).
  { unfold record, later. cbn [files network generative trace].
    now rewrite <- app_assoc. }
  cbn [TranscriptionService.poll_loop].
  fold (poll_request self transcript_id headers). fold req.
  unfold poll_outcome, try_except, response_json, sleep, send.
  unfold mbind, M_bind, result_bind, bind, rbind, ret, raise, lift.
  change {| files := files w; read_error := read_error w;
     remove_error := remove_error w; network := fun n => network w (S n);
            generative := generative w; trace := trace w ++ [Sent req] |}
    with (later 1 [Sent req] w).
  destruct (network w 0%nat) as [response | e].
  - destruct (negb (status_code response =? 200)).
    { destruct (Str.contains _ _); reflexivity. }
    destruct (json_body response) as [result |].
    2:{ destruct (Str.contains _ _); reflexivity. }
    destruct (dict_get result "status" JNull) as [status | e].
    2:{ destruct e; try reflexivity; destruct (Str.contains _ _); reflexivity. }
    destruct (eq_str status "completed"); [reflexivity |].
    destruct (eq_str status "error").
    { destruct (dict_get result "error" _) as [error_msg | e].
      - destruct (Str.contains _ _); reflexivity.
      - destruct e; try reflexivity; destruct (Str.contains _ _); reflexivity. }
    destruct (eq_str status "queued" || eq_str status "processing");
      [cbn beta iota; rewrite Hsleep; reflexivity |].
    destruct (Str.contains _ _); reflexivity.
  - destruct e; try reflexivity; destruct (Str.contains _ _); reflexivity.
Qed.

Lemma polled_trace (k : nat) (w : World F) :
  trace (polled k req w) = trace w ++ polling k req.
Proof.
  revert w. induction k as [|k IH]; intros w.
  - cbn. now rewrite app_nil_r.
  - cbn [polled]. rewrite IH. unfold polling. cbn [later trace replicate concat].
    now rewrite <- app_assoc.
Qed.

Lemma polled_network (k : nat) (w : World F) (n : nat) :
  network (polled k req w) n = network w (k + n)%nat.
Proof.
  revert w. induction k as [|k IH]; intros w; [reflexivity |].
  cbn [polled]. rewrite IH. reflexivity.
Qed.

Lemma polled_files (k : nat) (w : World F) :
  files (polled k req w) = files w.
Proof.
  revert w. induction k as [|k IH]; intros w; [reflexivity |].
  cbn [polled]. now rewrite IH.
Qed.

Lemma poll_outcome_reports (o : result (Response F)) (status : string)
  (result : json F) :
  reports o status result ->
  poll_outcome o
  = if String.eqb status "completed" then Finished (Ok result)
    else if String.eqb status "queued" || String.eqb status "processing"
    then Pending
    else poll_outcome o.
Proof.
  intros (response & m & -> & Hcode & Hbody & -> & Hstatus).
  destruct (String.eqb status "completed") eqn:Hc.
  - unfold poll_outcome. cbn [mbind result_bind rbind].
    rewrite Hcode, Hbody. cbn [Z.eqb Pos.eqb negb mbind result_bind rbind dict_get].
    rewrite Hstatus. cbn [eq_str mbind result_bind rbind from_option id].
    now rewrite Hc.
  - destruct (String.eqb status "queued" || String.eqb status "processing")
      eqn:Hq; [| reflexivity].
    assert (He : String.eqb status "error" = false).
    { apply orb_true_iff in Hq.
      destruct Hq as [Hq | Hq]; apply String.eqb_eq in Hq; now subst. }
    unfold poll_outcome. cbn [mbind result_bind rbind].
    rewrite Hcode, Hbody. cbn [Z.eqb Pos.eqb negb mbind result_bind rbind dict_get].
    rewrite Hstatus. cbn [eq_str mbind result_bind rbind from_option id].
    now rewrite Hc, He, Hq.
Qed.

Lemma poll_outcome_non_terminal (o : result (Response F)) :
  non_terminal o -> poll_outcome o = Pending.
Proof.
  intros [result [Hr | Hr]]; now rewrite (poll_outcome_reports _ _ _ Hr).
Qed.

Lemma poll_outcome_completed (o : result (Response F)) (result : json F) :
  reports o "completed" result -> poll_outcome o = Finished (Ok result).
Proof.
  intros Hr. now rewrite (poll_outcome_reports _ _ _ Hr).
Qed.

(** [k] non-terminal answers use up [k] iterations. *)
Lemma poll_loop_pending (k n : nat) (w : World F) :
  (forall i, (i < k)%nat -> non_terminal (network w i)) ->
  TranscriptionService.poll_loop self transcript_id headers (k + n) w
  = TranscriptionService.poll_loop self transcript_id headers n
      (polled k req w).
Proof.
  revert w. induction k as [|k IH]; intros w Hpending; [reflexivity |].
  change (S k + n)%nat with (S (k + n)).
  rewrite poll_step, poll_outcome_non_terminal by (apply Hpending; lia).
  cbn [polled]. apply IH.
  intros i Hi. cbn [later network]. apply Hpending. lia.
Qed.

(** Whatever the provider answers, [n] iterations send at most [n]
    requests, and every wait is of 1 second. *)
Lemma poll_loop_bounded (n : nat) (w : World F) :
  exists tr,
    trace (snd (TranscriptionService.poll_loop
                  self transcript_id headers n w)) = trace w ++ tr
    /\ (length (requests tr) <= n)%nat
    /\ Forall (fun seconds => seconds = 1) (sleeps tr).
Proof.
  revert w. induction n as [|n IH]; intros w.
  - exists []. cbn. rewrite app_nil_r. repeat split; [lia | constructor].
  - rewrite poll_step. destruct (poll_outcome (network w 0%nat)) as [r |].
    + exists [Sent req]. cbn. repeat split; [lia | constructor].
    + destruct (IH (later 1 [Sent req; Slept 1] w)) as (tr & Htr & Hlen & Hsl).
      exists ([Sent req; Slept 1] ++ tr). rewrite Htr.
      cbn [later trace]. rewrite <- app_assoc.
      split; [reflexivity |]. unfold requests, sleeps in *.
      rewrite !flat_map_app. cbn [flat_map app length].
      split; [lia | now constructor].
Qed.

Lemma polling_requests (k : nat) :
  length (requests (polling k req)) = k
  /\ sleeps (polling k req) = replicate k 1.
Proof.
  induction k as [|k [IHr IHs]]; [split; reflexivity |].
  unfold polling, requests, sleeps in *. cbn [replicate concat].
  rewrite !flat_map_app. cbn [app flat_map length].
  rewrite IHr, IHs. split; reflexivity.
Qed.

(** C3. [_poll_transcript] sends at most 60 status requests and waits
    1 second after each non-terminal answer (queued or processing).  If
    the first [k] answers, [k < 60], are non-terminal and the next one
    is completed, the full provider result is returned after [k + 1]
    requests: 59 non-terminal answers and completed on the 60th request
    is the case [k = 59].  If the first 60 answers are non-terminal the
    call fails with the transcription-timeout error after exactly 60
    requests: the outcome that a 61st request would have had is still
    the next one of the network. *)
Theorem poll_attempt_budget (w : World F) :
  let run :=
    TranscriptionService._poll_transcript self transcript_id headers w in
  (forall k result,
     (k < 60)%nat ->
     (forall i, (i < k)%nat -> non_terminal (network w i)) ->
     reports (network w k) "completed" result ->
     fst run = Ok result
     /\ trace (snd run) = trace w ++ polling k req ++ [Sent req]
     /\ (forall n, network (snd run) n = network w (S k + n)%nat))
  /\ ((forall i, (i < 60)%nat -> non_terminal (network w i)) ->
      fst run
      = Raise (Exception "Transcription timeout - process took too long")
      /\ trace (snd run) = trace w ++ polling 60 req
      /\ (forall n, network (snd run) n = network w (60 + n)%nat))
  /\ (exists tr,
        trace (snd run) = trace w ++ tr
        /\ (length (requests tr) <= 60)%nat
        /\ Forall (fun seconds => seconds = 1) (sleeps tr))
  /\ (forall k,
        length (requests (polling k req ++ [Sent req])) = S k
        /\ length (requests (polling k req)) = k
        /\ sleeps (polling k req) = replicate k 1
        /\ sleeps (polling k req ++ [Sent req]) = replicate k 1).
Proof.
  intros run.
  assert (Hrun : run
    = TranscriptionService.poll_loop self transcript_id headers 60 w)
    by reflexivity.
  split; [| split; [| split]].
  - intros k result Hk Hpending Hdone. rewrite Hrun.
    replace 60%nat with (k + S (59 - k))%nat by lia.
    rewrite poll_loop_pending by assumption.
    rewrite poll_step, polled_network, Nat.add_0_r.
    rewrite (poll_outcome_completed _ _ Hdone).
    cbn [fst snd later trace network].
    split; [reflexivity |]. split.
    + rewrite polled_trace. now rewrite <- app_assoc.
    + intros n. rewrite polled_network. f_equal. lia.
  - intros Hpending. rewrite Hrun.
    pose proof (poll_loop_pending 60 0 w Hpending) as Hloop.
    change (60 + 0)%nat with 60%nat in Hloop. rewrite Hloop.
    cbn [TranscriptionService.poll_loop raise fst snd].
    split; [reflexivity |]. split.
    + apply polled_trace.
    + intros n. apply polled_network.
  - rewrite Hrun. apply poll_loop_bounded.
  - intros k. destruct (polling_requests k) as [Hr Hs].
    unfold requests, sleeps in *. rewrite !flat_map_app, Hr, Hs.
    cbn [flat_map app length]. rewrite length_app. cbn [length].
    rewrite app_nil_r. repeat split. lia.
Qed.

End PollFacts.

Lemma poll_attempt_budget_witness :
  let run :=
    TranscriptionService._poll_transcript (PR:=example_repr)
      (TranscriptionService.init "key") (JStr "t-1") ∅
      (example_world slow_provider) in
  fst run
  = Ok (JObj (<["status" := JStr "completed"]> example_provider_result))
  /\ length (requests (trace (snd run))) = 60%nat
  /\ sleeps (trace (snd run)) = replicate 59 1.
Proof.
  pose (req := poll_request (PR:=example_repr)
                 (TranscriptionService.init "key") (JStr "t-1")
                 (∅ : gmap string string)).
  destruct (poll_attempt_budget (PR:=example_repr)
              (TranscriptionService.init "key") (JStr "t-1") ∅
              (example_world slow_provider)) as (Hdone & _ & _ & Hcount).
  destruct (Hdone 59%nat
              (JObj (<["status" := JStr "completed"]> example_provider_result)))
    as (Hres & Htrace & _).
  - lia.
  - intros i Hi. eexists. right. unfold reports.
    exists (provider_answer {[ "status" := JStr "processing" ]}).
    eexists. cbn [example_world network]. unfold slow_provider.
    destruct (Nat.ltb_spec i 59) as [_ | Hge]; [| lia].
    repeat split; reflexivity.
  - unfold reports. eexists. eexists.
    repeat split; vm_compute; reflexivity.
  - cbv zeta. rewrite Hres, Htrace. cbn [example_world trace app].
    destruct (Hcount 59%nat) as (Hreq & _ & _ & Hsl).
    split; [reflexivity |]. split; [exact Hreq | exact Hsl].
Defined.

(** ** The media type of the upload *)

(** C1. [upload_file] looks the extension up in the override table but
    builds the multipart body from the caller's guess: for
    [uploads/speech.wav], whose table entry is [audio/wav], and the
    guess [audio/x-wav], the media type sent is [audio/x-wav], whatever
    the provider answers. *)
Theorem upload_sends_callers_guess :
  let self := TranscriptionService.init "key" in
  TranscriptionService.audio_mime_types self
    !! Str.lower (snd (Str.splitext "uploads/speech.wav"))
  = Some "audio/wav"
  /\ forall net,
       content_types
         (trace (snd (TranscriptionService.upload_file self
                        "uploads/speech.wav" "audio/x-wav"
                        (example_world net))))
       = ["audio/x-wav"].
Proof.
  split; [vm_compute; reflexivity |].
  intros net.
  rewrite upload_file_content_type; [reflexivity | reflexivity |].
  split; [| reflexivity]. apply elem_of_singleton. reflexivity.
Qed.

(** ** The feedback call *)

Section FeedbackFacts.
Context {F : Type} {PR : PyRepr F}.

(** C9. [generate_feedback] never raises and leaves the world as it
    is: when the text model raises, whatever the exception and the
    metrics, the result is the fixed fallback text; when it answers,
    the result is its text. *)
Theorem generate_feedback_degrades (pronunciation : PronunciationResponse F)
  (pacing : PacingResponse) (pauses : PauseResponse F) (w : World F) :
  let run :=
    FeedbackGenerator.generate_feedback pronunciation pacing pauses w in
  let prompt := FeedbackGenerator.prompt pronunciation pacing pauses in
  (forall e, generative w prompt = Raise e ->
             run = (Ok FeedbackGenerator.fallback, w))
  /\ (forall feedback, generative w prompt = Ok feedback ->
                       run = (Ok feedback, w))
  /\ (exists feedback, run = (Ok feedback, w))
  /\ FeedbackGenerator.fallback
     = "Could not generate detailed feedback at this moment. Please try again later.".
Proof.
  intros run prompt. subst run.
  unfold FeedbackGenerator.generate_feedback, try_except, generate_content.
  unfold mbind, M_bind, bind, ret. fold prompt.
  destruct (generative w prompt) as [feedback | e].
  - split; [discriminate |].
    split; [intros feedback' Heq; now injection Heq as -> |].
    split; [now eexists | reflexivity].
  - split; [reflexivity |]. split; [discriminate |].
    split; [now eexists | reflexivity].
Qed.

End FeedbackFacts.

(** ** The background task *)

Section TaskFacts.
Context {F : Type} {PF : PyFloat F} {PR : PyRepr F}.

Lemma try_finally_cleanup {A} (body : M F A) (cleanup : M F unit)
  (w : World F) :
  snd (try_finally body cleanup w) = snd (cleanup (snd (body w))).
Proof.
  unfold try_finally. destruct (body w) as [r w'].
  cbn [snd]. destruct (cleanup w') as [[[] | e] w'']; reflexivity.
Qed.

Lemma keeps_ret {A} (a : A) : keeps_files (F:=F) (ret a).
Proof. intros w. reflexivity. Qed.

Lemma keeps_raise {A} (e : exn) : keeps_files (F:=F) (raise (A:=A) e).
Proof. intros w. reflexivity. Qed.

Lemma keeps_lift {A} (r : result A) : keeps_files (F:=F) (lift r).
Proof. intros w. reflexivity. Qed.

Lemma keeps_send (r : Request F) : keeps_files (send r).
Proof. intros w. reflexivity. Qed.

Lemma keeps_sleep (seconds : Z) : keeps_files (sleep (F:=F) seconds).
Proof. intros w. reflexivity. Qed.

Lemma keeps_exists (path : string) : keeps_files (os_path_exists (F:=F) path).
Proof. intros w. reflexivity. Qed.

Lemma keeps_open (path : string) : keeps_files (open_rb (F:=F) path).
Proof.
  intros w. unfold open_rb.
  destruct (bool_decide _); [destruct (read_error w path) |]; reflexivity.
Qed.

Lemma keeps_generate (prompt : string) : keeps_files (generate_content (F:=F) prompt).
Proof. intros w. reflexivity. Qed.

Lemma keeps_response_json (response : Response F) :
  keeps_files (response_json response).
Proof. unfold response_json. destruct (json_body response); intros w; reflexivity. Qed.

Lemma keeps_bind {A B} (m : M F A) (k : A -> M F B) :
  keeps_files m -> (forall a, keeps_files (k a)) -> keeps_files (m ≫= k).
Proof.
  intros Hm Hk w. unfold mbind, M_bind, bind.
  specialize (Hm w). destruct (m w) as [[a | e] w1]; cbn [snd] in *.
  - now rewrite Hk.
  - exact Hm.
Qed.

Lemma keeps_try_except {A} (body : M F A) (handler : exn -> M F A) :
  keeps_files body -> (forall e, keeps_files (handler e)) ->
  keeps_files (try_except body handler).
Proof.
  intros Hm Hh w. unfold try_except.
  specialize (Hm w). destruct (body w) as [[a | e] w1]; cbn [snd] in *.
  - exact Hm.
  - now rewrite Hh.
Qed.

Lemma keeps_for_loop {A I} (xs : list I) (body : I -> M F (option A))
  (after : M F A) :
  (forall x, keeps_files (body x)) -> keeps_files after ->
  keeps_files (for_loop xs body after).
Proof.
  intros Hbody Hafter. induction xs as [|x xs IH]; [exact Hafter |].
  cbn [for_loop]. apply (keeps_bind (body x)); [apply Hbody |].
  intros [v |]; [apply keeps_ret | exact IH].
Qed.

Ltac keeps :=
  repeat first
    [ lazymatch goal with
      | |- keeps_files (TranscriptionService.poll_loop _ _ _ _) => fail
      | |- keeps_files _ => idtac
      end;
      first
    [ apply keeps_ret | apply keeps_raise | apply keeps_lift
    | apply keeps_send | apply keeps_sleep | apply keeps_exists
    | apply keeps_open | apply keeps_generate | apply keeps_response_json
    | apply keeps_bind | apply keeps_try_except | apply keeps_for_loop ]
    | progress intros
    | match goal with
      | |- keeps_files (if ?b then _ else _) => destruct b
      | |- keeps_files (match ?e with _ => _ end) => destruct e
      | |- keeps_files (let _ := _ in _) => cbv zeta
      end ].

Lemma keeps_upload (self : TranscriptionService.t)
  (file_path mime_type : string) :
  keeps_files
    (TranscriptionService.upload_file_with_retry self file_path mime_type).
Proof.
  unfold TranscriptionService.upload_file_with_retry,
    TranscriptionService.upload_file.
  keeps.
Qed.

Lemma keeps_poll (self : TranscriptionService.t) (transcript_id : json F)
  (headers : gmap string string) (n : nat) :
  keeps_files (TranscriptionService.poll_loop self transcript_id headers n).
Proof.
  induction n as [|n IH]; cbn [TranscriptionService.poll_loop]; keeps.
  exact IH.
Qed.

Lemma keeps_transcribe (self : TranscriptionService.t) (audio_url : json F) :
  keeps_files (TranscriptionService.transcribe_audio self audio_url).
Proof.
  unfold TranscriptionService.transcribe_audio,
    TranscriptionService._poll_transcript.
  keeps; apply keeps_poll.
Qed.

Lemma keeps_pipeline (ASSEMBLYAI_API_KEY file_path mime_type : string) :
  keeps_files (Main.pipeline ASSEMBLYAI_API_KEY file_path mime_type).
Proof.
  unfold Main.pipeline, FeedbackGenerator.generate_feedback.
  apply keeps_bind; [apply keeps_upload |]. intros upload_url.
  apply keeps_bind; [apply keeps_transcribe |]. intros transcription_result.
  keeps.
Qed.

(** The clean-up of [process_audio_task], from a world with the disk of
    [w]: nothing to do for a path that does not exist, the removal for
    one that can be removed, and the error of [os.remove] otherwise. *)
Lemma cleanup_run (file_path : string) (w w1 : World F) :
  disk w1 = disk w ->
  (found ← os_path_exists file_path;
   if found : bool then os_remove file_path else ret tt) w1
  = if bool_decide (file_path ∈ files w)
    then match remove_error w file_path with
         | Some e => (Raise e, w1)
         | None =>
             (Ok tt,
              {| files := files w ∖ {[file_path]};
                 read_error := read_error w;
                 remove_error := remove_error w;
                 network := network w1;
                 generative := generative w1;
                 trace := trace w1 ++ [Removed file_path] |})
         end
    else (Ok tt, w1).
Proof.
  intros Hdisk. injection Hdisk as Hfiles Hread Hremove.
  unfold mbind, M_bind, bind, os_path_exists, os_remove, ret.
  rewrite Hfiles.
  destruct (bool_decide (file_path ∈ files w)) eqn:Hfound; [| reflexivity].
  rewrite Hfiles, Hfound, Hremove, Hread.
  now destruct (remove_error w file_path).
Qed.

(** The task is its pipeline followed by the clean-up. *)
Lemma process_audio_task_run
  (ASSEMBLYAI_API_KEY file_path file_name mime_type : string) (w : World F) :
  let body := Main.pipeline ASSEMBLYAI_API_KEY file_path mime_type w in
  Main.process_audio_task ASSEMBLYAI_API_KEY file_path file_name mime_type w
  = if bool_decide (file_path ∈ files w)
    then match remove_error w file_path with
         | Some e => (Raise e, snd body)
         | None =>
             (fst body,
              {| files := files w ∖ {[file_path]};
                 read_error := read_error w;
                 remove_error := remove_error w;
                 network := network (snd body);
                 generative := generative (snd body);
                 trace := trace (snd body) ++ [Removed file_path] |})
         end
    else body.
Proof.
  intros body.
  pose proof (keeps_pipeline ASSEMBLYAI_API_KEY file_path mime_type w)
    as Hdisk.
  fold body in Hdisk.
  unfold Main.process_audio_task, try_finally, try_except. fold body.
  destruct body as [[response_data | e] w1]; cbn [fst snd] in *;
    unfold raise; rewrite (cleanup_run file_path w w1 Hdisk);
    destruct (bool_decide (file_path ∈ files w));
    try destruct (remove_error w file_path); reflexivity.
Qed.

(** C7. [process_audio_task] removes the uploaded file on every exit
    path of its pipeline, whatever the providers answered
    and whether the pipeline returned a result or raised, provided that
    the removal itself does not fail: then the files left are those of
    before without the uploaded one.  When [os.remove] raises for the
    file (it may not be deleted, or the path is a directory), the file
    stays on disk and the task fails with that error. *)
Theorem process_audio_task_removes_file (ASSEMBLYAI_API_KEY : string)
  (file_path file_name mime_type : string) (w : World F) :
  let run :=
    Main.process_audio_task ASSEMBLYAI_API_KEY file_path file_name
      mime_type w in
  (remove_error w file_path = None ->
   (file_path ∉ files (snd run))
   /\ files (snd run) = files w ∖ {[ file_path ]}
   /\ (forall e, fst run = Raise e -> file_path ∉ files (snd run))
   /\ (forall response_data, fst run = Ok response_data ->
                             file_path ∉ files (snd run)))
  /\ (forall e,
        file_path ∈ files w ->
        remove_error w file_path = Some e ->
        fst run = Raise e
        /\ file_path ∈ files (snd run)
        /\ files (snd run) = files w).
Proof.
  intros run. subst run. rewrite process_audio_task_run. cbv zeta.
  pose proof (keeps_pipeline ASSEMBLYAI_API_KEY file_path mime_type w)
    as Hdisk.
  injection Hdisk as Hfiles _ _.
  split.
  - intros Hremovable. rewrite Hremovable.
    assert (Hleft :
      files (snd (if bool_decide (file_path ∈ files w)
                  then (fst (Main.pipeline ASSEMBLYAI_API_KEY file_path
                               mime_type w),
                        {| files := files w ∖ {[file_path]};
                           read_error := read_error w;
                           remove_error := remove_error w;
                           network := network (snd (Main.pipeline
                             ASSEMBLYAI_API_KEY file_path mime_type w));
                           generative := generative (snd (Main.pipeline
                             ASSEMBLYAI_API_KEY file_path mime_type w));
                           trace := trace (snd (Main.pipeline
                             ASSEMBLYAI_API_KEY file_path mime_type w))
                                    ++ [Removed file_path] |})
                  else Main.pipeline ASSEMBLYAI_API_KEY file_path mime_type w))
      = files w ∖ {[ file_path ]}).
    { destruct (bool_decide (file_path ∈ files w)) eqn:Hfound;
        [reflexivity |].
      apply bool_decide_eq_false in Hfound. rewrite Hfiles. symmetry.
      now apply difference_disjoint_L, disjoint_singleton_r. }
    assert (Hgone : file_path ∉ files w ∖ {[ file_path ]}).
    { intros [_ Hnot]%elem_of_difference.
      apply Hnot. now apply elem_of_singleton. }
    rewrite Hleft. repeat split; try assumption; intros; assumption.
  - intros e Hfile Hlocked.
    rewrite (bool_decide_eq_true_2 _ Hfile), Hlocked. cbn [fst snd].
    rewrite Hfiles. repeat split. exact Hfile.
Qed.

End TaskFacts.

Lemma process_audio_task_removes_file_witness :
  "uploads/speech.wav"
  ∉ files (snd (Main.process_audio_task (PR:=example_repr) "key"
                  "uploads/speech.wav" "speech.wav" "audio/x-wav"
                  (example_world cooperative_network))).
Proof.
  exact (proj1 (proj1 (process_audio_task_removes_file (PR:=example_repr)
                         "key" "uploads/speech.wav" "speech.wav" "audio/x-wav"
                         (example_world cooperative_network))
                  eq_refl)).
Defined.

(** A run in which the uploaded file survives the task: the pipeline
    succeeds, [os.remove] is refused in the [finally] clause, the task
    ends with that [OSError] and the file is still on disk. *)
Lemma process_audio_task_file_survives :
  let run := Main.process_audio_task (PR:=example_repr) "key"
               "uploads/speech.wav" "speech.wav" "audio/x-wav" locked_world in
  (exists response_data,
     fst (Main.pipeline (PR:=example_repr) "key"
            "uploads/speech.wav" "audio/x-wav" locked_world)
     = Ok response_data)
  /\ fst run
     = Raise (OSError "[Errno 13] Permission denied: 'uploads/speech.wav'")
  /\ ~ ("uploads/speech.wav" ∉ files (snd run)).
Proof.
  intros run.
  split; [vm_compute; eexists; reflexivity |].
  split; [vm_compute; reflexivity |].
  intros Hgone. apply Hgone.
  apply (bool_decide_eq_true_1 _). vm_compute. reflexivity.
Qed.

(** * Further properties of the code *)

(** ** The analyzers *)

Section PauseCount.
Context {F : Type} {PF : PyFloat F}.

Lemma gaps_snoc (words : list (Word F)) (l w : Word F) :
  gaps ((words ++ [l]) ++ [w])
  = gaps (words ++ [l]) ++ [fsub (start w) (end_ l)].
Proof.
  induction words as [|a [|b rest] IH]; [reflexivity | reflexivity |].
  change (fsub (start b) (end_ a) :: gaps (((b :: rest) ++ [l]) ++ [w])
          = (fsub (start b) (end_ a) :: gaps ((b :: rest) ++ [l]))
            ++ [fsub (start w) (end_ l)]).
  now rewrite IH.
Qed.

Lemma analyze_pauses_count (words : list (Word F)) :
  exists r, analyze_pauses words = Ok r
            /\ pause_count r = len (qualifying_pauses words).
Proof.
  destruct (analyze_pauses_counts_pauses_only words) as (r & Hr & Hc & _).
  now exists r.
Qed.

(** X1. [analyze_pauses] returns for every word list, on every float
    arithmetic, and its pause count is never negative and never more
    than the number of adjacent pairs: at most [len(words) - 1], and 0
    for fewer than two words. *)
Theorem pause_count_bounded (words : list (Word F)) :
  exists r,
    analyze_pauses words = Ok r
    /\ 0 <= pause_count r
    /\ pause_count r <= Z.max 0 (len words - 1).
Proof.
  destruct (analyze_pauses_count words) as (r & Hr & Hc).
  exists r. split; [exact Hr |]. rewrite Hc. unfold len, qualifying_pauses.
  pose proof (List.filter_length_le is_pause (gaps words)) as Hle.
  rewrite gaps_length in Hle. lia.
Qed.

(** X2. One more word at the end changes the pause count of
    [analyze_pauses] by the one new gap only: the count goes up by 1
    when the new word starts more than the threshold after the end of
    the word before it, and stays as it is otherwise. *)
Theorem pause_count_grows_by_one (words : list (Word F)) (l w : Word F) :
  exists r r',
    analyze_pauses (words ++ [l]) = Ok r
    /\ analyze_pauses ((words ++ [l]) ++ [w]) = Ok r'
    /\ pause_count r'
       = pause_count r
         + (if flt Config.PAUSE_THRESHOLD (fsub (start w) (end_ l))
            then 1 else 0).
Proof.
  destruct (analyze_pauses_count (words ++ [l])) as (r & Hr & Hc).
  destruct (analyze_pauses_count ((words ++ [l]) ++ [w])) as (r' & Hr' & Hc').
  exists r, r'. split; [exact Hr |]. split; [exact Hr' |].
  rewrite Hc, Hc'. unfold qualifying_pauses, len.
  rewrite gaps_snoc, List.filter_app, length_app. cbn [List.filter].
  unfold is_pause at 2.
  destruct (flt Config.PAUSE_THRESHOLD (fsub (start w) (end_ l)));
    cbn [length]; lia.
Qed.

End PauseCount.

(** Pacing on binary64 floats.  For a duration of at least [2^-960]
    seconds the sixtieth does not underflow to 0 and the rate of fewer
    than [2^53] words does not overflow, so neither the division nor
    [round] raises. *)

Lemma Prim2SF_sixty :
  Prim2SF (of_Q 60) = S754_finite false 8444249301319680 (-47).
Proof. vm_compute. reflexivity. Qed.

Lemma Prim2SF_least_duration :
  Prim2SF 0x1p-960 = S754_finite false 4503599627370496 (-1012).
Proof. vm_compute. reflexivity. Qed.

Lemma Zdigits2_upper (m : Z) : 0 <= m -> m < 2 ^ Zdigits2 m.
Proof.
  intros Hm. destruct m as [|p|p]; [reflexivity | | lia].
  cbn [Zdigits2]. apply digits2_pos_bounds.
Qed.

Lemma Zdigits2_le (m k : Z) :
  0 <= m -> 0 <= k -> m < 2 ^ k -> Zdigits2 m <= k.
Proof.
  intros Hm0 Hk Hm. destruct m as [|p|p]; cbn [Zdigits2]; try lia.
  pose proof (digits2_pos_bounds p) as [Hlo _].
  destruct (Z.le_gt_cases (Zpos (digits2_pos p)) k) as [? | Hgt]; [assumption |].
  assert (2 ^ k <= 2 ^ (Zpos (digits2_pos p) - 1))
    by (apply Z.pow_le_mono_r; lia).
  lia.
Qed.

Lemma Zdigits2_ge (m k : Z) : 0 <= k -> 2 ^ k <= m -> k + 1 <= Zdigits2 m.
Proof.
  intros Hk Hm. pose proof (pow2_pos k Hk) as Hpos.
  destruct m as [|p|p]; cbn [Zdigits2]; try lia.
  pose proof (digits2_pos_bounds p) as [_ Hhi].
  destruct (Z.le_gt_cases (k + 1) (Zpos (digits2_pos p))) as [? | Hgt];
    [assumption |].
  assert (2 ^ Zpos (digits2_pos p) <= 2 ^ k)
    by (apply Z.pow_le_mono_r; lia).
  lia.
Qed.

Lemma round_nearest_even_le m l : round_nearest_even m l <= m + 1.
Proof.
  destruct l as [|[]]; cbn [round_nearest_even]; try lia.
  destruct (Z.even m); lia.
Qed.

Lemma binary_round_aux_finite (m e : Z) (l : location) :
  0 <= m ->
  e <= fexp 53 1024 (Zdigits2 m + e) ->
  Zdigits2 m + e <= 1023 ->
  sf_finite_nonneg (binary_round_aux 53 1024 false m e l).
Proof.
  intros Hm Hprec Hmag. rewrite fexp_eq in Hprec.
  pose proof (Zdigits2_upper m Hm) as Hdig.
  assert (Hd0 : 0 <= Zdigits2 m) by (destruct m; cbn; lia).
  unfold binary_round_aux.
  destruct (shr_fexp 53 1024 m e l) as [mrs' e1] eqn:H1.
  assert (Hstep1 : 0 <= shr_m mrs' < 2 ^ 53 /\ e1 <= 970).
  { revert H1. unfold shr_fexp, shr. rewrite fexp_eq.
    destruct (Z.max (Zdigits2 m + e - 53) (-1074) - e) as [|p|p] eqn:Hn.
    - intros [= <- <-]. rewrite shr_record_of_loc_m.
      split; [| lia]. split; [lia |].
      eapply Z.lt_le_trans; [exact Hdig |]. apply Z.pow_le_mono_r; lia.
    - intros [= <- <-].
      rewrite iter_pos_shr_m by (rewrite shr_record_of_loc_m; exact Hm).
      rewrite shr_record_of_loc_m.
      pose proof (pow2_pos (Zpos p) ltac:(lia)) as HP.
      split; [| lia]. split; [apply Z.div_pos; lia |].
      apply Z.div_lt_upper_bound; [exact HP |].
      rewrite <- pow2_split by lia.
      eapply Z.lt_le_trans; [exact Hdig |]. apply Z.pow_le_mono_r; lia.
    - lia. }
  destruct Hstep1 as [[Hm0 Hm53] He1].
  pose proof (round_nearest_even_ge (shr_m mrs') (loc_of_shr_record mrs'))
    as Hge.
  pose proof (round_nearest_even_le (shr_m mrs') (loc_of_shr_record mrs'))
    as Hle.
  set (m2 := round_nearest_even (shr_m mrs') (loc_of_shr_record mrs')) in *.
  assert (Hd2 : Zdigits2 m2 <= 54).
  { apply Zdigits2_le; [lia | lia |].
    change (2 ^ 54) with (2 * 2 ^ 53). lia. }
  destruct (shr_fexp 53 1024 m2 e1 loc_Exact) as [mrs'' e2] eqn:H2.
  assert (Hstep2 : 0 <= shr_m mrs'' /\ e2 <= 971).
  { revert H2. unfold shr_fexp, shr. rewrite fexp_eq.
    destruct (Z.max (Zdigits2 m2 + e1 - 53) (-1074) - e1) as [|p|p] eqn:Hn.
    - intros [= <- <-]. cbn [shr_record_of_loc shr_m]. lia.
    - intros [= <- <-].
      rewrite iter_pos_shr_m by (cbn [shr_record_of_loc shr_m]; lia).
      cbn [shr_record_of_loc shr_m].
      pose proof (pow2_pos (Zpos p) ltac:(lia)) as HP.
      split; [apply Z.div_pos; lia | lia].
    - intros [= <- <-]. cbn [shr_record_of_loc shr_m]. lia. }
  destruct Hstep2 as [Hm2 He2].
  destruct (shr_m mrs'') as [|q|q]; cbn [sf_finite_nonneg]; [exact I | | lia].
  destruct (Z.leb_spec e2 (1024 - 53)) as [_ | Hbad];
    cbn [sf_finite_nonneg]; [exact I | lia].
Qed.

Lemma shifted_dividend (m s : Z) :
  0 <= s ->
  match s with
  | Zpos _ => Z.shiftl m s
  | Z0 => m
  | Zneg _ => 0
  end = m * 2 ^ s.
Proof.
  intros Hs. destruct s as [|p|p]; [cbn; lia | | lia].
  apply Z.shiftl_mul_pow2. lia.
Qed.

Lemma valid_digits s m e :
  valid_binary (S754_finite s m e) = true ->
  -1074 <= e /\ Zpos (digits2_pos m) <= 53.
Proof. intros H%valid_exponent. lia. Qed.

Lemma leb_least_duration (d : float) :
  PrimFloat.leb 0x1p-960 d = true -> sf_ge 1 (-960) (Prim2SF d).
Proof.
  rewrite leb_spec, Prim2SF_least_duration.
  pose proof (Prim2SF_valid d) as Hv.
  destruct (Prim2SF d) as [s|[|]| |[|] m e]; cbn [SFleb SFcompare sf_ge];
    try discriminate; auto.
  pose proof (valid_exponent _ _ _ Hv) as He.
  pose proof (digits2_pos_bounds m) as [Hlo Hhi].
  change (-960 + 1075) with 115.
  destruct (Z.compare_spec (-1012) e) as [Heq | Hlt | Hgt]; try discriminate.
  - subst e.
    change (PosDef.Pos.compare_cont Eq 4503599627370496 m)
      with (Pos.compare 4503599627370496 m).
    destruct (Pos.compare_spec 4503599627370496 m) as [Hm | Hm | Hm];
      try discriminate; intros _; (split; [lia |]);
      change (-1012 + 1075) with 63;
      assert (H115 : 2 ^ 115 = 4503599627370496 * 2 ^ 63) by reflexivity;
      rewrite H115; pose proof (pow2_pos 63 ltac:(lia));
      set (A := 2 ^ 63) in *; clearbody A; nia.
  - intros _. split; [lia |].
    assert (Hd : Zpos (digits2_pos m) = 53) by lia.
    rewrite Hd in Hlo. change (2 ^ (53 - 1)) with 4503599627370496 in Hlo.
    replace (e + 1075) with (63 + (e + 1012)) by lia.
    rewrite (pow2_split 63 (e + 1012)) by lia.
    pose proof (pow2_pos (e + 1012) ltac:(lia)).
    assert (H115 : 2 ^ 115 = 4503599627370496 * 2 ^ 63) by reflexivity.
    rewrite H115. pose proof (pow2_pos 63 ltac:(lia)).
    set (A := 2 ^ 63) in *. set (B := 2 ^ (e + 1012)) in *.
    clearbody A B. nia.
Qed.

Lemma div_sixty_lower (d : float) :
  sf_ge 1 (-960) (Prim2SF d) ->
  sf_ge 1 (-970) (Prim2SF (d / of_Q 60)).
Proof.
  rewrite div_spec, Prim2SF_sixty. unfold SF64div.
  pose proof (Prim2SF_valid d) as Hv.
  destruct (Prim2SF d) as [s|[|]| |[|] m e]; cbn [sf_ge]; try contradiction;
    try lia.
  { intros _. exact I. }
  intros [He Hle]. change (-960 + 1075) with 115 in Hle.
  cbn [SFdiv xorb].
  destruct (valid_digits _ _ _ Hv) as [_ Hd53].
  pose proof (digits2_pos_bounds m) as [Hlo Hhi].
  set (d1 := Zpos (digits2_pos m)) in *.
  assert (Hd1 : 1 <= d1) by (subst d1; lia).
  assert (Hmag : -959 <= d1 + e).
  { destruct (Z.le_gt_cases (-959) (d1 + e)) as [? | Hsmall]; [assumption |].
    assert (Hp : 2 ^ (d1 + (e + 1075)) <= 2 ^ 115)
      by (apply Z.pow_le_mono_r; lia).
    rewrite pow2_split in Hp by lia.
    pose proof (pow2_pos (e + 1075) ltac:(lia)). nia. }
  assert (Hcore :
    SFdiv_core_binary prec emax (Zpos m) e 8444249301319680 (-47)
    = (Zpos m * 2 ^ (106 - d1) / 8444249301319680, d1 + e - 59,
       new_location 8444249301319680
         ((Zpos m * 2 ^ (106 - d1)) mod 8444249301319680))).
  { unfold SFdiv_core_binary. cbn [Zdigits2]. fold d1.
    change (Z.pos (digits2_pos 8444249301319680)) with 53.
    change prec with 53. change emax with 1024. rewrite fexp_eq.
    replace (Z.min (Z.max (d1 + e - (53 + -47) - 53) (-1074)) (e - -47))
      with (d1 + e - 59) by lia.
    replace (e - -47 - (d1 + e - 59)) with (106 - d1) by lia.
    rewrite shifted_dividend by lia.
    now rewrite div_eucl_div_mod. }
  rewrite Hcore.
  pose proof (pow2_pos (106 - d1) ltac:(lia)) as HS.
  assert (Hnum : 2 ^ 105 <= Zpos m * 2 ^ (106 - d1)).
  { replace 105 with ((d1 - 1) + (106 - d1)) by lia.
    rewrite pow2_split by lia. nia. }
  assert (Hq : 2 ^ 52 <= Zpos m * 2 ^ (106 - d1) / 8444249301319680).
  { apply Z.div_le_lower_bound; [lia |].
    eapply Z.le_trans; [| exact Hnum]. vm_compute. discriminate. }
  apply binary_round_aux_ge; try lia.
  change (-970 + 1075) with 105.
  set (q := Zpos m * 2 ^ (106 - d1) / 8444249301319680) in *.
  assert (HE : 2 ^ 57 <= 2 ^ (d1 + e - 59 + 1075))
    by (apply Z.pow_le_mono_r; lia).
  assert (H105 : 2 ^ 105 <= 2 ^ 52 * 2 ^ 57) by (vm_compute; discriminate).
  set (A := 2 ^ (d1 + e - 59 + 1075)) in *.
  assert (0 < 2 ^ 52) by reflexivity.
  nia.
Qed.

Lemma float_eqb_zero_false (x : float) :
  sf_ge 1 (-970) (Prim2SF x) -> PrimFloat.eqb x (Z2float 0) = false.
Proof.
  rewrite FloatAxioms.eqb_spec.
  replace (Prim2SF (Z2float 0)) with (S754_zero false)
    by (vm_compute; reflexivity).
  destruct (Prim2SF x) as [s|[|]| |[|] m e]; cbn [sf_ge]; try contradiction;
    try lia; reflexivity.
Qed.

Lemma pacing_rate_finite (n : positive) (dm : float) :
  Zpos n < 2 ^ 53 ->
  sf_ge 1 (-970) (Prim2SF dm) ->
  sf_finite_nonneg (Prim2SF (Z2float (Zpos n) / dm)).
Proof.
  intros Hn.
  destruct (Z2float_spec n Hn) as (mn & en & Hmn & Hen & Hval & Hdn).
  pose proof (digits2_pos_bounds mn) as [Hnlo Hnhi].
  rewrite Hdn in Hnlo, Hnhi. change (53 - 1) with 52 in Hnlo.
  rewrite div_spec, Hmn. unfold SF64div.
  pose proof (Prim2SF_valid dm) as Hv.
  destruct (Prim2SF dm) as [s|[|]| |[|] m2 e2]; cbn [sf_ge]; try contradiction;
    try lia.
  { intros _. exact I. }
  intros [He2 Hle]. change (-970 + 1075) with 105 in Hle.
  cbn [SFdiv xorb].
  destruct (valid_digits _ _ _ Hv) as [_ Hd53].
  pose proof (digits2_pos_bounds m2) as [Hlo Hhi].
  set (d2 := Zpos (digits2_pos m2)) in *.
  assert (Hd2 : 1 <= d2) by (subst d2; lia).
  assert (Hmag : -969 <= d2 + e2).
  { destruct (Z.le_gt_cases (-969) (d2 + e2)) as [? | Hsmall]; [assumption |].
    assert (Hp : 2 ^ (d2 + (e2 + 1075)) <= 2 ^ 105)
      by (apply Z.pow_le_mono_r; lia).
    rewrite pow2_split in Hp by lia.
    pose proof (pow2_pos (e2 + 1075) ltac:(lia)). nia. }
  set (e' := Z.min (Z.max (53 + en - (d2 + e2) - 53) (-1074)) (en - e2)).
  set (s := en - e2 - e').
  assert (Hs : 0 <= s) by (subst s e'; lia).
  assert (Hcore :
    SFdiv_core_binary prec emax (Zpos mn) en (Zpos m2) e2
    = (Zpos mn * 2 ^ s / Zpos m2, e',
       new_location (Zpos m2) ((Zpos mn * 2 ^ s) mod Zpos m2))).
  { unfold SFdiv_core_binary. cbn [Zdigits2]. rewrite Hdn. fold d2.
    change prec with 53. change emax with 1024. rewrite fexp_eq.
    fold e'. fold s.
    rewrite shifted_dividend by exact Hs.
    now rewrite div_eucl_div_mod. }
  rewrite Hcore.
  pose proof (pow2_pos s Hs) as HS.
  set (q := Zpos mn * 2 ^ s / Zpos m2) in *.
  assert (Hq0 : 0 <= q) by (apply Z.div_pos; lia).
  assert (Hqhi : q < 2 ^ (54 + s - d2)).
  { apply Z.div_lt_upper_bound; [lia |].
    replace (54 + s - d2) with ((53 - (d2 - 1)) + s) by lia.
    rewrite pow2_split by lia.
    assert (H53 : 2 ^ 53 = 2 ^ (d2 - 1) * 2 ^ (53 - (d2 - 1))).
    { rewrite <- pow2_split by lia. f_equal. lia. }
    pose proof (pow2_pos (53 - (d2 - 1)) ltac:(lia)) as HK.
    set (K := 2 ^ (53 - (d2 - 1))) in *. set (L := 2 ^ (d2 - 1)) in *.
    set (S := 2 ^ s) in *. clearbody K L S.
    assert (Zpos mn * S < L * K * S) by nia.
    nia. }
  assert (Hdq : Zdigits2 q <= 54 + s - d2)
    by (apply Zdigits2_le; [exact Hq0 | lia | exact Hqhi]).
  apply binary_round_aux_finite; [exact Hq0 | | subst s; lia].
  rewrite fexp_eq.
  destruct (Z.le_gt_cases 0 (52 + s - d2)) as [Hbig | Hsmall].
  - assert (Hqlo : 2 ^ (52 + s - d2) <= q).
    { apply Z.div_le_lower_bound; [lia |].
      assert (H52 : 2 ^ (52 + s) = 2 ^ d2 * 2 ^ (52 + s - d2)).
      { rewrite <- pow2_split by lia. f_equal. lia. }
      rewrite (pow2_split 52 s) in H52 by lia.
      pose proof (pow2_pos (52 + s - d2) Hbig) as HK.
      set (K := 2 ^ (52 + s - d2)) in *. set (L := 2 ^ d2) in *.
      set (S := 2 ^ s) in *. clearbody K L S. nia. }
    pose proof (Zdigits2_ge q (52 + s - d2) Hbig Hqlo) as Hdq'.
    subst s e'. lia.
  - assert (Zdigits2 q >= 0) by (destruct q; cbn; lia).
    subst s e'. lia.
Qed.

Lemma float_round_int_nonneg (x : float) :
  sf_finite_nonneg (Prim2SF x) ->
  exists n, float_round_int x = Ok n /\ 0 <= n.
Proof.
  unfold float_round_int.
  destruct (Prim2SF x) as [[|]|[|]| |[|] m e]; cbn [sf_finite_nonneg];
    try contradiction; intros _.
  - exists 0. split; [reflexivity | lia].
  - eexists. split; [reflexivity |]. cbv zeta.
    destruct (Z.leb_spec 0 e) as [Hpos | Hneg].
    + pose proof (pow2_pos e Hpos). lia.
    + eapply Z.le_trans; [| apply round_half_even_ge_floor].
      apply Z.div_pos; [lia |]. apply pow2_pos. lia.
Qed.

(** X17. On binary64 floats, for a non-empty list of fewer than [2^53]
    words and a duration of at least [2^-960] seconds (plus infinity
    included), [analyze_pacing] never fails: it returns the rounded
    rate [round(len(words) / (duration / 60))], which is not negative,
    with the feedback chosen by the thresholds 90 and 150. *)
Theorem analyze_pacing_returns (words : list (Word float))
  (audio_duration : float) :
  words <> [] ->
  len words < 2 ^ 53 ->
  PrimFloat.leb 0x1p-960 audio_duration = true ->
  exists wpm,
    round_int (fdiv (of_int (len words)) (fdiv audio_duration (of_Q 60)))
    = Ok wpm
    /\ 0 <= wpm
    /\ analyze_pacing words audio_duration
       = Ok {| pacing_wpm := wpm;
               pacing_feedback :=
                 if wpm <? 90 then
                   "Your speaking pace is too slow. Try to speak a bit faster."
                 else if 150 <? wpm then
                   "Your speaking pace is too fast. Try to slow down a bit."
                 else "Your speaking pace is appropriate." |}.
Proof.
  intros Hwords Hlen Hd.
  pose proof (div_sixty_lower _ (leb_least_duration _ Hd)) as Hminutes.
  assert (Hn : exists n, len words = Zpos n).
  { destruct words as [|w ws]; [congruence |].
    unfold len. cbn [length]. rewrite Nat2Z.inj_succ.
    destruct (Z.of_nat (length ws)) eqn:E; try lia; eexists; reflexivity. }
  destruct Hn as [n Hn].
  pose proof (pacing_rate_finite n _ ltac:(lia) Hminutes) as Hrate.
  destruct (float_round_int_nonneg _ Hrate) as (wpm & Hround & Hwpm).
  exists wpm.
  split; [rewrite Hn; exact Hround |]. split; [exact Hwpm |].
  unfold analyze_pacing, truediv.
  destruct words as [|w ws]; [congruence |].
  assert (Hnz : feq audio_duration (of_int 0) = false).
  { cbn [feq of_int binary64]. rewrite FloatAxioms.eqb_spec.
    replace (Prim2SF (Z2float 0)) with (S754_zero false)
      by (vm_compute; reflexivity).
    pose proof (leb_least_duration _ Hd) as Hge.
    destruct (Prim2SF audio_duration) as [s|[|]| |[|] m e];
      cbn [sf_ge] in Hge; try contradiction; try lia; reflexivity. }
  rewrite Hnz. cbn [orb].
  replace (feq (of_Q 60) (of_int 0)) with false by (vm_compute; reflexivity).
  cbn [mbind result_bind rbind].
  cbn [feq fdiv of_int round_int binary64].
  rewrite (float_eqb_zero_false _ Hminutes).
  rewrite Hn. cbn [of_Q binary64] in Hround |- *.
  cbn [mbind result_bind rbind]. rewrite Hround. reflexivity.
Qed.

Lemma analyze_pacing_returns_witness :
  exists wpm,
    0 <= wpm
    /\ analyze_pacing example_words 1.2%float
       = Ok {| pacing_wpm := wpm;
               pacing_feedback :=
                 if wpm <? 90 then
                   "Your speaking pace is too slow. Try to speak a bit faster."
                 else if 150 <? wpm then
                   "Your speaking pace is too fast. Try to slow down a bit."
                 else "Your speaking pace is appropriate." |}.
Proof.
  destruct (analyze_pacing_returns example_words 1.2%float)
    as (wpm & _ & Hwpm & Hrun).
  - discriminate.
  - vm_compute. reflexivity.
  - vm_compute. reflexivity.
  - exists wpm. split; [exact Hwpm | exact Hrun].
Defined.

(** X4. A provider result with a text and no words (the field missing
    or an empty list), with or without a duration, goes through the
    normaliser and the three analyzers without an error: no word, score
    0 and nothing mispronounced, a rate of 0 with "Unable to calculate
    pacing.", no pause with "Insufficient data for pause analysis.". *)
Theorem silent_transcript_metrics (m : gmap string (json float))
  (text : string) :
  m !! "text" = Some (JStr text) ->
  default (JArr []) (m !! "words") = JArr [] ->
  (m !! "audio_duration" = None
   \/ exists duration, m !! "audio_duration" = Some (JNum duration)) ->
  exists parsed,
    TranscriptionService.parse_transcription_result (JObj m) = Ok parsed
    /\ TranscriptionService.transcript parsed = text
    /\ TranscriptionService.words parsed = []
    /\ analyze_pronunciation (TranscriptionService.words parsed)
       = Ok {| pronunciation_score := 0; mispronounced_words := [] |}
    /\ analyze_pacing (TranscriptionService.words parsed)
         (TranscriptionService.audio_duration_sec parsed)
       = Ok {| pacing_wpm := 0;
               pacing_feedback := "Unable to calculate pacing." |}
    /\ analyze_pauses (TranscriptionService.words parsed)
       = Ok {| pause_count := 0;
               total_pause_time_sec := 0%float;
               pause_feedback := "Insufficient data for pause analysis." |}.
Proof.
  intros Htext Hwords Hdur.
  assert (Hparse : exists duration_sec,
    TranscriptionService.parse_transcription_result (JObj m)
    = Ok {| TranscriptionService.transcript := text;
            TranscriptionService.words := [];
            TranscriptionService.audio_duration_sec := duration_sec |}).
  { unfold TranscriptionService.parse_transcription_result.
    cbn [dict_get dict_item]. rewrite Hwords, Htext.
    cbn [mbind result_bind rbind iterate as_string for_each].
    destruct Hdur as [Hdur | [duration Hdur]]; rewrite Hdur;
      cbn [from_option id mbind result_bind rbind as_number].
    - rewrite zero_duration_default. now eexists.
    - rewrite truediv_1000. now eexists. }
  destruct Hparse as [duration_sec Hparse].
  eexists. split; [exact Hparse |].
  cbn [TranscriptionService.transcript TranscriptionService.words
       TranscriptionService.audio_duration_sec].
  repeat split.
Qed.

Lemma silent_transcript_metrics_witness :
  exists parsed,
    TranscriptionService.parse_transcription_result
      (JObj {[ "text" := JStr "" ]}) = Ok parsed
    /\ analyze_pacing (TranscriptionService.words parsed)
         (TranscriptionService.audio_duration_sec parsed)
       = Ok {| pacing_wpm := 0;
               pacing_feedback := "Unable to calculate pacing." |}.
Proof.
  destruct (silent_transcript_metrics {[ "text" := JStr "" ]} "")
    as (parsed & Hparse & _ & _ & _ & Hpacing & _).
  - vm_compute. reflexivity.
  - vm_compute. reflexivity.
  - left. vm_compute. reflexivity.
  - exists parsed. split; assumption.
Defined.

(** ** Requests sent and seconds waited *)

Section Budget.
Context {F : Type} {PF : PyFloat F} {PR : PyRepr F}.
Variable c : nat.

Lemma total_sleep_app (tr1 tr2 : list (event F)) :
  total_sleep (tr1 ++ tr2) = total_sleep tr1 + total_sleep tr2.
Proof.
  unfold total_sleep, sleeps. rewrite flat_map_app.
  induction (flat_map _ tr1) as [|x xs IH]; cbn [app fold_right]; lia.
Qed.

Lemma requests_app (tr1 tr2 : list (event F)) :
  requests (tr1 ++ tr2) = requests tr1 ++ requests tr2.
Proof. unfold requests. apply flat_map_app. Qed.

Lemma http_requests_app (tr1 tr2 : list (event F)) :
  http_requests c (tr1 ++ tr2)
  = (http_requests c tr1 + http_requests c tr2)%nat.
Proof.
  unfold http_requests. rewrite requests_app, map_app.
  induction (map (cost c) (requests tr1)) as [|x xs IH];
    cbn [app fold_right]; lia.
Qed.

Lemma within_still {A} (m : M F A) (n : nat) (s : Z) :
  (forall w, snd (m w) = w) -> 0 <= s -> within c n s m.
Proof.
  intros Hm Hs w. exists []. rewrite Hm, app_nil_r. cbn. repeat split; lia.
Qed.

Lemma within_ret {A} (a : A) n s : 0 <= s -> within (F:=F) c n s (ret a).
Proof. now apply within_still. Qed.

Lemma within_raise {A} (e : exn) n s :
  0 <= s -> within (F:=F) c n s (raise (A:=A) e).
Proof. now apply within_still. Qed.

Lemma within_lift {A} (r : result A) n s :
  0 <= s -> within (F:=F) c n s (lift r).
Proof. now apply within_still. Qed.

Lemma within_exists (path : string) n s :
  0 <= s -> within (F:=F) c n s (os_path_exists path).
Proof. now apply within_still. Qed.

Lemma within_open (path : string) n s :
  0 <= s -> within (F:=F) c n s (open_rb path).
Proof.
  intros Hs. apply within_still; [| exact Hs].
  intros w. unfold open_rb.
  destruct (bool_decide _); [destruct (read_error w path) |]; reflexivity.
Qed.

Lemma within_generate (prompt : string) n s :
  0 <= s -> within (F:=F) c n s (generate_content prompt).
Proof. now apply within_still. Qed.

Lemma within_response_json (response : Response F) n s :
  0 <= s -> within c n s (response_json response).
Proof.
  intros Hs. apply within_still; [| exact Hs].
  intros w. unfold response_json. now destruct (json_body response).
Qed.

Lemma within_send (r : Request F) n s :
  (cost c r <= n)%nat -> 0 <= s -> within c n s (send r).
Proof.
  intros Hn Hs w. exists [Sent r]. cbn. repeat split; lia.
Qed.

Lemma within_sleep (seconds : Z) n s :
  0 <= seconds <= s -> within (F:=F) c n s (sleep seconds).
Proof.
  intros Hs w. exists [Slept seconds]. cbn. repeat split; lia.
Qed.

Lemma within_remove (path : string) n s :
  0 <= s -> within (F:=F) c n s (os_remove path).
Proof.
  intros Hs w. unfold os_remove.
  destruct (bool_decide (path ∈ files w));
    [destruct (remove_error w path) |].
  - exists []. cbn. rewrite app_nil_r. repeat split; lia.
  - exists [Removed path]. cbn. repeat split; lia.
  - exists []. cbn. rewrite app_nil_r. repeat split; lia.
Qed.

Lemma within_bind {A B} (n1 n2 : nat) (s1 s2 : Z) (m : M F A)
  (k : A -> M F B) n s :
  within c n1 s1 m -> (forall a, within c n2 s2 (k a)) ->
  (n1 + n2 <= n)%nat -> s1 + s2 <= s -> 0 <= s2 ->
  within c n s (m ≫= k).
Proof.
  intros Hm Hk Hn Hs Hs0 w. unfold mbind, M_bind, bind.
  destruct (Hm w) as (tr1 & Ht1 & Hr1 & Hs1).
  destruct (m w) as [[a | e] w1]; cbn [snd] in *.
  - destruct (Hk a w1) as (tr2 & Ht2 & Hr2 & Hs2).
    exists (tr1 ++ tr2). rewrite Ht2, Ht1, <- app_assoc.
    rewrite http_requests_app, total_sleep_app.
    repeat split; lia.
  - exists tr1. repeat split; try assumption; lia.
Qed.

Lemma within_try_except {A} (n1 n2 : nat) (s1 s2 : Z) (body : M F A)
  (handler : exn -> M F A) n s :
  within c n1 s1 body -> (forall e, within c n2 s2 (handler e)) ->
  (n1 + n2 <= n)%nat -> s1 + s2 <= s -> 0 <= s2 ->
  within c n s (try_except body handler).
Proof.
  intros Hm Hk Hn Hs Hs0 w. unfold try_except.
  destruct (Hm w) as (tr1 & Ht1 & Hr1 & Hs1).
  destruct (body w) as [[a | e] w1]; cbn [snd] in *.
  - exists tr1. repeat split; try assumption; lia.
  - destruct (Hk e w1) as (tr2 & Ht2 & Hr2 & Hs2).
    exists (tr1 ++ tr2). rewrite Ht2, Ht1, <- app_assoc.
    rewrite http_requests_app, total_sleep_app.
    repeat split; lia.
Qed.

Lemma within_try_finally {A} (n1 n2 : nat) (s1 s2 : Z) (body : M F A)
  (cleanup : M F unit) n s :
  within c n1 s1 body -> within c n2 s2 cleanup ->
  (n1 + n2 <= n)%nat -> s1 + s2 <= s ->
  within c n s (try_finally body cleanup).
Proof.
  intros Hm Hk Hn Hs w. rewrite try_finally_cleanup.
  destruct (Hm w) as (tr1 & Ht1 & Hr1 & Hs1).
  destruct (Hk (snd (body w))) as (tr2 & Ht2 & Hr2 & Hs2).
  exists (tr1 ++ tr2). rewrite Ht2, Ht1, <- app_assoc.
  rewrite http_requests_app, total_sleep_app.
  repeat split; lia.
Qed.

(** Computations that send nothing and do not wait. *)
Ltac quiet :=
  repeat first
    [ apply within_ret | apply within_raise | apply within_lift
    | apply within_exists | apply within_open | apply within_generate
    | apply within_response_json
    | lia
    | progress intros
    | match goal with
      | |- within _ _ _ (if ?b then _ else _) => destruct b
      | |- within _ _ _ (match ?e with _ => _ end) => destruct e
      | |- within _ _ _ (let _ := _ in _) => cbv zeta
      | |- within _ ?n ?s (_ ≫= _) =>
          apply (within_bind 0 n 0 s); [ | | lia | lia | lia]
      end ].

Lemma within_upload_file (self : TranscriptionService.t)
  (file_path mime_type : string) n s :
  (c <= n)%nat -> 0 <= s ->
  within c n s (TranscriptionService.upload_file self file_path mime_type).
Proof.
  intros Hn Hs. unfold TranscriptionService.upload_file.
  destruct (negb _); [quiet |]. cbv zeta.
  apply (within_try_except n 0 s 0); [| quiet | lia | lia | lia].
  apply (within_bind 0 n 0 s); [quiet | | lia | lia | lia].
  intros found. destruct (negb found); [quiet |]. cbv zeta.
  apply (within_bind 0 n 0 s); [quiet | | lia | lia | lia].
  intros _.
  apply (within_bind c 0 0 s);
    [apply within_send; cbn [cost follow_redirects]; lia | | lia | lia | lia].
  quiet.
Qed.

Lemma within_retry_step (self : TranscriptionService.t)
  (file_path mime_type : string) (attempt : Z) :
  TranscriptionService.max_retries self = 3 -> 0 <= attempt ->
  within c c (if attempt =? 2 then 0 else 2 ^ attempt)
    (retry_step self file_path mime_type attempt).
Proof.
  intros Hmax Hattempt. unfold retry_step. rewrite Hmax.
  change (3 - 1) with 2.
  assert (Hpow : 0 <= 2 ^ attempt) by (apply Z.pow_nonneg; lia).
  assert (Hs : 0 <= (if attempt =? 2 then 0 else 2 ^ attempt))
    by (destruct (attempt =? 2); lia).
  apply (within_try_except c 0 0 (if attempt =? 2 then 0 else 2 ^ attempt));
    [| | lia | lia | lia].
  - apply (within_bind c 0 0 0); [| quiet | lia | lia | lia].
    apply within_upload_file; lia.
  - intros e. destruct e; try (apply within_raise; lia).
    destruct (attempt =? 2); [apply within_raise; lia |].
    cbv zeta.
    apply (within_bind 0 0 (2 ^ attempt) 0); [| quiet | lia | lia | lia].
    apply within_sleep. lia.
Qed.

Lemma within_upload_file_with_retry (self : TranscriptionService.t)
  (file_path mime_type : string) :
  TranscriptionService.max_retries self = 3 ->
  within c (3 * c) 3
    (TranscriptionService.upload_file_with_retry self file_path mime_type).
Proof.
  intros Hmax. rewrite upload_file_with_retry_unfold, Hmax.
  change (map Z.of_nat (range 0 (Z.to_nat 3))) with [0; 1; 2].
  cbn [for_loop].
  apply (within_bind c (2 * c) 1 2 (retry_step self file_path mime_type 0));
    [apply (within_retry_step self file_path mime_type 0 Hmax); lia
    | | lia | lia | lia].
  intros [v |]; [quiet |].
  apply (within_bind c c 2 0 (retry_step self file_path mime_type 1));
    [apply (within_retry_step self file_path mime_type 1 Hmax); lia
    | | lia | lia | lia].
  intros [v |]; [quiet |].
  apply (within_bind c 0 0 0 (retry_step self file_path mime_type 2));
    [apply (within_retry_step self file_path mime_type 2 Hmax); lia
    | | lia | lia | lia].
  intros [v |]; quiet.
Qed.

Lemma within_poll_loop (self : TranscriptionService.t)
  (transcript_id : json F) (headers : gmap string string) (n : nat) :
  within c n (Z.of_nat n)
    (TranscriptionService.poll_loop self transcript_id headers n).
Proof.
  induction n as [|n IH]; cbn [TranscriptionService.poll_loop].
  - apply within_raise. lia.
  - apply (within_bind 1 n 1 (Z.of_nat n)); [| | lia | lia | lia].
    + apply (within_try_except 1 0 1 0); [| | lia | lia | lia].
      * apply (within_bind 1 0 0 1);
          [apply within_send; cbn [cost follow_redirects]; lia
          | | lia | lia | lia].
        intros response. destruct (negb _); [quiet |].
        apply (within_bind 0 0 0 1); [quiet | | lia | lia | lia].
        intros result.
        apply (within_bind 0 0 0 1); [quiet | | lia | lia | lia].
        intros status. destruct (eq_str status "completed"); [quiet |].
        destruct (eq_str status "error"); [quiet |].
        destruct (_ || _); [| quiet].
        apply (within_bind 0 0 1 0); [apply within_sleep; lia | quiet | lia | lia | lia].
      * intros e. destruct e; try (apply within_raise; lia);
          destruct (Str.contains _ _); apply within_raise; lia.
    + intros [result |]; [quiet | exact IH].
Qed.

Lemma within_transcribe_audio (self : TranscriptionService.t)
  (audio_url : json F) :
  within c 61 60 (TranscriptionService.transcribe_audio self audio_url).
Proof.
  unfold TranscriptionService.transcribe_audio.
  destruct (negb _); [quiet |]. cbv zeta.
  apply (within_try_except 61 0 60 0); [| quiet | lia | lia | lia].
  apply (within_bind 1 60 0 60);
    [apply within_send; cbn [cost follow_redirects]; lia
    | | lia | lia | lia].
  intros response. destruct (negb _); [quiet |].
  apply (within_bind 0 60 0 60); [quiet | | lia | lia | lia].
  intros submitted.
  apply (within_bind 0 60 0 60); [quiet | | lia | lia | lia].
  intros transcript_id. destruct (negb _); [quiet |].
  apply (within_poll_loop self transcript_id _ 60).
Qed.

Lemma within_pipeline (key file_path mime_type : string) :
  within c (3 * c + 61) 63 (Main.pipeline key file_path mime_type).
Proof.
  unfold Main.pipeline, FeedbackGenerator.generate_feedback.
  apply (within_bind (3 * c) 61 3 60);
    [now apply within_upload_file_with_retry | | lia | lia | lia].
  intros upload_url.
  apply (within_bind 61 0 60 0);
    [apply within_transcribe_audio | | lia | lia | lia].
  intros transcription_result.
  quiet.
  apply (within_try_except 0 0 0 0); quiet.
Qed.

Lemma within_process_audio_task
  (ASSEMBLYAI_API_KEY file_path file_name mime_type : string) :
  within c (3 * c + 61) 63
    (Main.process_audio_task ASSEMBLYAI_API_KEY file_path file_name mime_type).
Proof.
  unfold Main.process_audio_task.
  apply (within_try_finally (3 * c + 61) 0 63 0); [| | lia | lia].
  - apply (within_try_except (3 * c + 61) 0 63 0); [| | lia | lia | lia].
    + apply within_pipeline.
    + intros e. now apply within_raise.
  - apply (within_bind 0 0 0 0); [| | lia | lia | lia].
    + now apply within_exists.
    + intros [|]; [now apply within_remove | now apply within_ret].
Qed.

End Budget.

(** Counted with weight one, the requests of a trace are its client
    calls. *)
Lemma http_requests_calls {F : Type} (tr : list (event F)) :
  http_requests 1 tr = length (requests tr).
Proof.
  unfold http_requests.
  induction (requests tr) as [|r rs IH]; [reflexivity |].
  cbn [map fold_right length]. rewrite IH. unfold cost.
  now destruct (follow_redirects r).
Qed.

(** ** What a call returns and raises *)

Section Outcomes.
Context {F : Type} {PF : PyFloat F} {PR : PyRepr F}.

Lemma yields_ret {A} (P : A -> Prop) Q (a : A) :
  P a -> yields (F:=F) P Q (ret a).
Proof. intros Ha w. exact Ha. Qed.

Lemma yields_raise {A} (P : A -> Prop) (Q : exn -> Prop) (e : exn) :
  Q e -> yields (F:=F) P Q (raise e).
Proof. intros He w. exact He. Qed.

Lemma yields_at_bind {A B} (w : World F) (PA : A -> Prop) (PB : B -> Prop) Q
  (m : M F A) (k : A -> M F B) :
  yields_at w PA Q m -> (forall a, PA a -> yields PB Q (k a)) ->
  yields_at w PB Q (m ≫= k).
Proof.
  unfold yields_at, mbind, M_bind, bind. intros Hm Hk.
  destruct (m w) as [[a | e] w1]; cbn [fst] in *; [| exact Hm].
  apply (Hk a Hm w1).
Qed.

Lemma yields_bind {A B} (PA : A -> Prop) (PB : B -> Prop) Q (m : M F A)
  (k : A -> M F B) :
  yields PA Q m -> (forall a, PA a -> yields PB Q (k a)) ->
  yields PB Q (m ≫= k).
Proof. intros Hm Hk w. now apply (yields_at_bind w PA). Qed.

Lemma yields_at_try_except {A} (w : World F) (P : A -> Prop)
  (Q1 Q2 : exn -> Prop) (body : M F A) (handler : exn -> M F A) :
  yields_at w P Q1 body -> (forall e, Q1 e -> yields P Q2 (handler e)) ->
  yields_at w P Q2 (try_except body handler).
Proof.
  unfold yields_at, try_except. intros Hm Hh.
  destruct (body w) as [[a | e] w1]; cbn [fst] in *; [exact Hm |].
  apply (Hh e Hm w1).
Qed.

Lemma yields_try_except {A} (P : A -> Prop) (Q1 Q2 : exn -> Prop)
  (body : M F A) (handler : exn -> M F A) :
  yields P Q1 body -> (forall e, Q1 e -> yields P Q2 (handler e)) ->
  yields P Q2 (try_except body handler).
Proof. intros Hm Hh w. now apply (yields_at_try_except w P Q1). Qed.

Lemma yields_any {A} (m : M F A) :
  yields (fun _ => True) (fun _ => True) m.
Proof. intros w. unfold yields_at. now destruct (fst (m w)). Qed.

Lemma yields_lift_eq {A} (Q : exn -> Prop) (r : result A) :
  (forall e, r = Raise e -> Q e) ->
  yields (F:=F) (fun a => r = Ok a) Q (lift r).
Proof.
  intros Hr w. unfold yields_at. cbn.
  destruct r; [reflexivity | now apply Hr].
Qed.

Lemma yields_weaken {A} (P P' : A -> Prop) (Q Q' : exn -> Prop) (m : M F A) :
  yields P Q m -> (forall a, P a -> P' a) -> (forall e, Q e -> Q' e) ->
  yields P' Q' m.
Proof.
  intros Hm HP HQ w. specialize (Hm w). unfold yields_at in *.
  destruct (fst (m w)); [now apply HP | now apply HQ].
Qed.

(** [upload_file] returns only a truthy upload URL, and raises only
    [ReadError] or [Exception]. *)
Lemma yields_upload_file (self : TranscriptionService.t)
  (file_path mime_type : string) :
  yields (fun upload_url => truthy upload_url = true)
         (fun e => (exists msg, e = ReadError msg) \/ is_exception e)
         (TranscriptionService.upload_file self file_path mime_type).
Proof.
  unfold TranscriptionService.upload_file.
  destruct (negb _); [apply yields_raise; right; now eexists |]. cbv zeta.
  apply (yields_try_except _ (fun _ => True)).
  - apply (yields_bind (fun _ => True)); [apply yields_any |].
    intros found _. destruct (negb found); [now apply yields_raise |].
    cbv zeta.
    apply (yields_bind (fun _ => True)); [apply yields_any |].
    intros _ _.
    apply (yields_bind (fun _ => True)); [apply yields_any |].
    intros response _.
    destruct (_ =? 401); [now apply yields_raise |].
    destruct (_ =? 413); [now apply yields_raise |].
    destruct (_ =? 429); [now apply yields_raise |].
    destruct (negb _); [now apply yields_raise |].
    apply (yields_bind (fun _ => True)); [apply yields_any |].
    intros result _.
    apply (yields_bind (fun _ => True)); [apply yields_any |].
    intros upload_url _.
    destruct (truthy upload_url) eqn:Htruthy; cbn [negb];
      [now apply yields_ret | now apply yields_raise].
  - intros e _. destruct e; apply yields_raise;
      solve [left; now eexists | right; now eexists].
Qed.

Lemma yields_retry_step (self : TranscriptionService.t)
  (file_path mime_type : string) (attempt : Z) :
  TranscriptionService.max_retries self = 3 ->
  yields (fun r => match r with
                   | Some upload_url => truthy upload_url = true
                   | None => attempt <> 2
                   end)
         is_exception
         (retry_step self file_path mime_type attempt).
Proof.
  intros Hmax. unfold retry_step. rewrite Hmax. change (3 - 1) with 2.
  apply (yields_try_except _
           (fun e => (exists msg, e = ReadError msg) \/ is_exception e)).
  - apply (yields_bind (fun upload_url => truthy upload_url = true));
      [apply yields_upload_file |].
    intros upload_url Htruthy. now apply yields_ret.
  - intros e [[msg ->] | [msg ->]].
    + destruct (Z.eqb_spec attempt 2);
        [apply yields_raise; now eexists |].
      cbv zeta. apply (yields_bind (fun _ => True)); [now intros w |].
      intros _ _. now apply yields_ret.
    + apply yields_raise. now eexists.
Qed.

(** [_poll_transcript] returns only a completed result and never lets a
    [TimeoutException] out. *)
Lemma yields_poll_loop (self : TranscriptionService.t) (transcript_id : json F)
  (headers : gmap string string) (remaining : nat) :
  yields completed not_timeout
    (TranscriptionService.poll_loop self transcript_id headers remaining).
Proof.
  induction remaining as [| remaining IH]; cbn [TranscriptionService.poll_loop].
  - now apply yields_raise.
  - apply (yields_bind (fun r => match r with
                                 | Some result => completed result
                                 | None => True
                                 end)).
    + apply (yields_try_except _ (fun _ => True)).
      * apply (yields_bind (fun _ => True)); [apply yields_any |].
        intros response _.
        destruct (negb _); [now apply yields_raise |].
        apply (yields_bind (fun _ => True)); [apply yields_any |].
        intros result _.
        apply (yields_bind
                 (fun status => dict_get result "status" JNull = Ok status));
          [now apply yields_lift_eq |].
        intros status Hstatus.
        destruct (eq_str status "completed") eqn:Hcompleted;
          [apply yields_ret; now exists status |].
        destruct (eq_str status "error").
        { apply (yields_bind (fun _ => True)); [apply yields_any |].
          intros error_msg _. now apply yields_raise. }
        destruct (_ || _); [| now apply yields_raise].
        apply (yields_bind (fun _ => True)); [apply yields_any |].
        intros _ _. now apply yields_ret.
      * intros e _.
        destruct e; try (now apply yields_raise);
          destruct (Str.contains _ _); now apply yields_raise.
    + intros [result |] Hr; [now apply yields_ret | exact IH].
Qed.

(** What [transcribe_audio] does with the outcome of the submission
    request, from the world [w]. *)
Lemma yields_at_transcribe_audio (self : TranscriptionService.t)
  (audio_url : json F) (w : World F) (Q : exn -> Prop) :
  Q (Exception "AssemblyAI API key not configured") ->
  (forall msg, Q (Exception ("Transcription process failed: " +:+ msg))) ->
  ((exists msg, network w 0%nat = Raise (TimeoutException msg)) ->
   Q (Exception "Timeout when submitting transcription job.")) ->
  yields_at w completed Q
    (TranscriptionService.transcribe_audio self audio_url).
Proof.
  intros Hkey Hwrapped Htimeout.
  unfold TranscriptionService.transcribe_audio.
  destruct (negb _); [exact Hkey |]. cbv zeta.
  apply (yields_at_try_except w _
           (fun e => forall msg, e = TimeoutException msg ->
                       exists msg', network w 0%nat = Raise (TimeoutException msg'))).
  - eapply (yields_at_bind w (fun _ => True)).
    + unfold yields_at, send. cbn [fst].
      destruct (network w 0%nat) as [response | e]; [exact I |].
      intros msg ->. now exists msg.
    + intros response _.
      destruct (negb _); [now apply yields_raise |].
      apply (yields_bind (fun _ => True)).
      { intros w1. unfold yields_at, response_json.
        now destruct (json_body response). }
      intros submitted _.
      apply (yields_bind (fun _ => True)).
      { intros w1. unfold yields_at. now destruct submitted. }
      intros transcript_id _.
      destruct (negb _); [now apply yields_raise |].
      eapply yields_weaken; [apply yields_poll_loop | auto |].
      intros e He msg ->. now contradiction (He msg).
  - intros e He. destruct e; apply yields_raise; try apply Hwrapped.
    apply Htimeout. now apply (He msg).
Qed.

End Outcomes.

(** ** Submission and polling *)

Section SubmitFacts.
Context {F : Type} {PF : PyFloat F} {PR : PyRepr F}.

Lemma marker_in_failure (msg : string) :
  Str.contains "Transcription failed:" ("Transcription failed: " +:+ msg)
  = true.
Proof. reflexivity. Qed.

(** After an accepted submission [transcribe_audio] is the poll for the
    returned id, with the same headers; what the poll raises is wrapped. *)
Lemma transcribe_audio_accepted (self : TranscriptionService.t)
  (audio_url transcript_id : json F) (w : World F) :
  Str.truthy (TranscriptionService.api_key self) = true ->
  accepts (network w 0%nat) transcript_id ->
  let poll :=
    TranscriptionService._poll_transcript self transcript_id
      (transcribe_headers self)
      (later 1 [Sent (submit_request self audio_url)] w) in
  TranscriptionService.transcribe_audio self audio_url w
  = (match fst poll with
     | Ok result => Ok result
     | Raise e => Raise (Exception ("Transcription process failed: "
                                    +:+ str_exn e))
     end, snd poll).
Proof.
  intros Hkey (response & m & Hnet & Hcode & Hbody & Hid & Htruthy) poll.
  pose proof (yields_poll_loop self transcript_id (transcribe_headers self)
                (Z.to_nat TranscriptionService.max_attempts)
                (later 1 [Sent (submit_request self audio_url)] w)) as Hpoll.
  unfold yields_at in Hpoll.
  fold (TranscriptionService._poll_transcript self transcript_id
          (transcribe_headers self)) in Hpoll.
  fold poll in Hpoll.
  unfold TranscriptionService.transcribe_audio. rewrite Hkey. cbn [negb].
  cbv zeta. fold (transcribe_headers self).
  fold (submit_request self audio_url).
  unfold try_except, mbind, M_bind, bind at 1, send. rewrite Hnet.
  change {| files := files w; read_error := read_error w;
     remove_error := remove_error w; network := fun n => network w (S n);
            generative := generative w;
            trace := trace w ++ [Sent (submit_request self audio_url)] |}
    with (later 1 [Sent (submit_request self audio_url)] w).
  rewrite Hcode. cbn [Z.eqb Pos.eqb negb].
  unfold response_json. rewrite Hbody.
  unfold bind, ret, lift. cbn [dict_get]. rewrite Hid. cbn [from_option id].
  rewrite Htruthy. cbn [negb]. fold poll.
  destruct poll as [[result | e] w1]; cbn [fst snd] in *; [reflexivity |].
  destruct e; try reflexivity. now contradiction (Hpoll msg).
Qed.

End SubmitFacts.

Section PollMore.
Context {F : Type} {PF : PyFloat F} {PR : PyRepr F}.
Variables (self : TranscriptionService.t) (transcript_id : json F)
  (headers : gmap string string).

Local Abbreviation req := (poll_request self transcript_id headers).

(** The first answer that is not a non-terminal status ends the loop
    with its verdict. *)
Lemma poll_loop_finished (k n : nat) (w : World F) (r : result (json F)) :
  (forall i, (i < k)%nat -> non_terminal (network w i)) ->
  poll_outcome (network w k) = Finished r ->
  TranscriptionService.poll_loop self transcript_id headers (k + S n) w
  = (r, later 1 [Sent req] (polled k req w)).
Proof.
  intros Hpending Hdone.
  rewrite poll_loop_pending by assumption.
  rewrite poll_step, polled_network, Nat.add_0_r, Hdone. reflexivity.
Qed.

Lemma poll_transcript_finished (k : nat) (w : World F) (r : result (json F)) :
  (k < 60)%nat ->
  (forall i, (i < k)%nat -> non_terminal (network w i)) ->
  poll_outcome (network w k) = Finished r ->
  let run :=
    TranscriptionService._poll_transcript self transcript_id headers w in
  fst run = r
  /\ trace (snd run) = trace w ++ polling k req ++ [Sent req].
Proof.
  intros Hk Hpending Hdone run. subst run.
  unfold TranscriptionService._poll_transcript.
  change (Z.to_nat TranscriptionService.max_attempts) with 60%nat.
  replace 60%nat with (k + S (59 - k))%nat by lia.
  rewrite (poll_loop_finished _ _ _ _ Hpending Hdone).
  cbn [fst snd later trace]. split; [reflexivity |].
  rewrite polled_trace. now rewrite <- app_assoc.
Qed.

Lemma poll_outcome_error (o : result (Response F))
  (m : gmap string (json F)) :
  reports o "error" (JObj m) ->
  poll_outcome o
  = Finished (Raise (Exception ("Transcription failed: "
       +:+ str_json (default (JStr "Unknown transcription error")
                             (m !! "error"))))).
Proof.
  intros (response & m' & -> & Hcode & Hbody & Heq & Hstatus).
  injection Heq as <-.
  unfold poll_outcome. cbn [mbind result_bind rbind].
  rewrite Hcode, Hbody.
  cbn [Z.eqb Pos.eqb negb mbind result_bind rbind dict_get].
  rewrite Hstatus. cbn [eq_str mbind result_bind rbind from_option id].
  change (String.eqb "error" "completed") with false.
  change (String.eqb "error" "error") with true.
  cbn [mbind result_bind rbind str_exn].
  now rewrite marker_in_failure.
Qed.

(** X12. A status request that fails ends the polling at once, also
    when the failure is a read error: polling has no retry.  After [k]
    non-terminal answers, [k < 60], a request that raises [e] gives the
    polling-timeout error when [e] is a timeout, [e] itself when its
    text contains "Transcription failed:", and the polling error with
    the text of [e] otherwise; an answer with a status code other than
    200 gives the polling error that names the code and the body.  In
    both cases [k + 1] requests were sent. *)
Theorem poll_stops_at_first_failure (k : nat) (w : World F) :
  (k < 60)%nat ->
  (forall i, (i < k)%nat -> non_terminal (network w i)) ->
  let run :=
    TranscriptionService._poll_transcript self transcript_id headers w in
  (forall e,
     network w k = Raise e ->
     fst run
     = Raise (match e with
              | TimeoutException _ =>
                  Exception "Polling timeout - transcription taking too long"
              | _ => if Str.contains "Transcription failed:" (str_exn e)
                     then e
                     else Exception ("Polling error: " +:+ str_exn e)
              end)
     /\ trace (snd run) = trace w ++ polling k req ++ [Sent req])
  /\ (forall response,
        network w k = Ok response ->
        status_code response <> 200 ->
        let failure := "Polling failed: " +:+ pretty (status_code response)
                       +:+ " - " +:+ text response in
        fst run
        = Raise (Exception (if Str.contains "Transcription failed:" failure
                            then failure
                            else "Polling error: " +:+ failure))
        /\ trace (snd run) = trace w ++ polling k req ++ [Sent req]).
Proof.
  intros Hk Hpending run. split.
  - intros e Hnet.
    apply (poll_transcript_finished k w _ Hk Hpending).
    rewrite Hnet. destruct e; reflexivity.
  - intros response Hnet Hcode failure.
    apply (poll_transcript_finished k w _ Hk Hpending).
    rewrite Hnet. unfold poll_outcome. cbn [mbind result_bind rbind].
    apply Z.eqb_neq in Hcode. rewrite Hcode. cbn [negb str_exn].
    fold failure. now destruct (Str.contains _ failure).
Qed.

End PollMore.

Section TranscribeTheorems.
Context {F : Type} {PF : PyFloat F} {PR : PyRepr F}.

(** X5. [upload_file_with_retry] of the service as [__init__] builds it
    (3 attempts) returns only a truthy upload URL and raises only a
    plain [Exception]: never [None], never an httpx error. *)
Theorem upload_returns_url_or_exception
  (ASSEMBLYAI_API_KEY file_path mime_type : string) (w : World F) :
  match fst (TranscriptionService.upload_file_with_retry
               (TranscriptionService.init ASSEMBLYAI_API_KEY)
               file_path mime_type w) with
  | Ok upload_url => truthy upload_url = true
  | Raise e => exists msg, e = Exception msg
  end.
Proof.
  revert w.
  change (yields (F:=F) (fun upload_url => truthy upload_url = true)
            is_exception
            (TranscriptionService.upload_file_with_retry
               (TranscriptionService.init ASSEMBLYAI_API_KEY)
               file_path mime_type)).
  rewrite upload_file_with_retry_unfold.
  change (map Z.of_nat _) with [0; 1; 2].
  cbn [for_loop].
  eapply yields_bind; [apply (yields_retry_step (TranscriptionService.init ASSEMBLYAI_API_KEY)
                        file_path mime_type 0 eq_refl) |].
  intros [upload_url |] Hfirst; [now apply yields_ret |].
  eapply yields_bind; [apply (yields_retry_step (TranscriptionService.init ASSEMBLYAI_API_KEY)
                        file_path mime_type 1 eq_refl) |].
  intros [upload_url |] Hsecond; [now apply yields_ret |].
  eapply yields_bind; [apply (yields_retry_step (TranscriptionService.init ASSEMBLYAI_API_KEY)
                        file_path mime_type 2 eq_refl) |].
  intros [upload_url |] Hthird; [now apply yields_ret |].
  now contradiction Hthird.
Qed.

(** X6. Without a key, or with a key and without the file on disk,
    [upload_file_with_retry] fails at once with the error of
    [upload_file]: nothing is sent, no wait is made, and the failure is
    not retried. *)
Theorem upload_without_key_or_file
  (ASSEMBLYAI_API_KEY file_path mime_type : string) (w : World F) :
  let run :=
    TranscriptionService.upload_file_with_retry
      (TranscriptionService.init ASSEMBLYAI_API_KEY) file_path mime_type w in
  (Str.truthy ASSEMBLYAI_API_KEY = false ->
   run = (Raise (Exception "AssemblyAI API key not configured"), w))
  /\ (Str.truthy ASSEMBLYAI_API_KEY = true ->
      file_path ∉ files w ->
      run = (Raise (Exception ("File upload error: File not found: "
                               +:+ file_path)), w)).
Proof.
  intros run. subst run.
  rewrite upload_file_with_retry_unfold.
  change (map Z.of_nat _) with [0; 1; 2].
  cbn [for_loop]. unfold bind at 1, bind at 2.
  unfold retry_step, try_except, mbind, M_bind, bind at 1, bind at 2.
  unfold TranscriptionService.upload_file.
  cbn [TranscriptionService.api_key TranscriptionService.init].
  split.
  - intros ->. reflexivity.
  - intros -> Hfile. cbn [negb].
    unfold try_except, mbind, M_bind, bind, os_path_exists.
    rewrite (bool_decide_eq_false_2 _ Hfile). reflexivity.
Qed.

(** X25. A file that exists and cannot be opened for reading: [open]
    raises its [OSError] inside the [try] of [upload_file], whose last
    clause turns it into a plain [Exception], and
    [upload_file_with_retry] passes that on at once: nothing is sent,
    no wait is made, and the failure is not retried. *)
Theorem upload_unreadable_file
  (ASSEMBLYAI_API_KEY file_path mime_type msg : string) (w : World F) :
  Str.truthy ASSEMBLYAI_API_KEY = true ->
  file_path ∈ files w ->
  read_error w file_path = Some (OSError msg) ->
  TranscriptionService.upload_file_with_retry
    (TranscriptionService.init ASSEMBLYAI_API_KEY) file_path mime_type w
  = (Raise (Exception ("File upload error: " +:+ msg)), w).
Proof.
  intros Hkey Hfile Hopen.
  rewrite upload_file_with_retry_unfold.
  change (map Z.of_nat _) with [0; 1; 2].
  cbn [for_loop]. unfold bind at 1.
  unfold retry_step, try_except, mbind, M_bind, bind at 1.
  unfold TranscriptionService.upload_file.
  cbn [TranscriptionService.api_key TranscriptionService.init].
  rewrite Hkey. cbn [negb].
  unfold try_except, mbind, M_bind, bind, os_path_exists, open_rb.
  rewrite (bool_decide_eq_true_2 _ Hfile). cbn [negb].
  cbv beta iota zeta.
  rewrite ?(bool_decide_eq_true_2 _ Hfile), Hopen. reflexivity.
Qed.

(** X7. [transcribe_audio] returns only a provider result whose status
    is "completed", and every failure is a plain [Exception] with one
    of three texts: the missing key, the submission timeout, or
    "Transcription process failed: " followed by the cause. *)
Theorem transcribe_audio_outcomes (self : TranscriptionService.t)
  (audio_url : json F) (w : World F) :
  match fst (TranscriptionService.transcribe_audio self audio_url w) with
  | Ok result =>
      exists status, dict_get result "status" JNull = Ok status
                     /\ eq_str status "completed" = true
  | Raise e =>
      e = Exception "AssemblyAI API key not configured"
      \/ e = Exception "Timeout when submitting transcription job."
      \/ exists msg, e = Exception ("Transcription process failed: " +:+ msg)
  end.
Proof.
  apply (yields_at_transcribe_audio self audio_url w transcribe_failure).
  - now left.
  - intros msg. right. right. now exists msg.
  - intros _. right. now left.
Qed.

(** X8. [transcribe_audio] reports a submission timeout exactly when
    the key is set and the submission request itself times out: a
    timeout of a later status request is never reported as one. *)
Theorem submission_timeout_iff (self : TranscriptionService.t)
  (audio_url : json F) (w : World F) :
  fst (TranscriptionService.transcribe_audio self audio_url w)
  = Raise (Exception "Timeout when submitting transcription job.")
  <-> Str.truthy (TranscriptionService.api_key self) = true
      /\ exists msg, network w 0%nat = Raise (TimeoutException msg).
Proof.
  split.
  - destruct (Str.truthy (TranscriptionService.api_key self)) eqn:Hkey.
    + intros Hrun. split; [reflexivity |].
      pose proof (yields_at_transcribe_audio self audio_url w
        (fun e => e = Exception "Timeout when submitting transcription job."
                  -> exists msg, network w 0%nat = Raise (TimeoutException msg)))
        as Hyields.
      unfold yields_at in Hyields. rewrite Hrun in Hyields.
      apply Hyields; [discriminate | discriminate | auto | reflexivity].
    + unfold TranscriptionService.transcribe_audio. rewrite Hkey.
      discriminate.
  - intros [Hkey [msg Hnet]].
    unfold TranscriptionService.transcribe_audio. rewrite Hkey.
    cbn [negb]. cbv zeta.
    unfold try_except, mbind, M_bind, bind, send. rewrite Hnet. reflexivity.
Qed.

(** X9. The happy path of [transcribe_audio]: when the provider accepts
    the submission and, after [k] non-terminal answers, [k < 60],
    reports the job as completed, the call returns that result; it has
    sent the submission, which carries the audio URL, and then [k + 1]
    status requests for the id the submission returned, with the
    headers of the submission, waiting 1 second after each of the first
    [k]. *)
Theorem transcribe_audio_completes (self : TranscriptionService.t)
  (audio_url transcript_id result : json F) (k : nat) (w : World F) :
  Str.truthy (TranscriptionService.api_key self) = true ->
  accepts (network w 0%nat) transcript_id ->
  (k < 60)%nat ->
  (forall i, (i < k)%nat -> non_terminal (network w (S i))) ->
  reports (network w (S k)) "completed" result ->
  let run := TranscriptionService.transcribe_audio self audio_url w in
  let poll := poll_request self transcript_id (transcribe_headers self) in
  fst run = Ok result
  /\ trace (snd run)
     = trace w ++ [Sent (submit_request self audio_url)]
               ++ polling k poll ++ [Sent poll].
Proof.
  intros Hkey Haccepts Hk Hpending Hdone run poll. subst run.
  rewrite (transcribe_audio_accepted _ _ _ _ Hkey Haccepts).
  destruct (poll_transcript_finished self transcript_id
              (transcribe_headers self) k
              (later 1 [Sent (submit_request self audio_url)] w)
              (Ok result) Hk) as [Hfst Htrace].
  - intros i Hi. cbn [later network]. now apply Hpending.
  - cbn [later network]. now apply poll_outcome_completed.
  - cbn [fst snd]. rewrite Hfst, Htrace. cbn [later trace].
    split; [reflexivity |]. fold poll. now rewrite <- app_assoc.
Qed.

(** X10. A submission that the provider does not accept ends
    [transcribe_audio] after that one request: a status code other than
    200 gives the error with the code and the body ("Unknown error" for
    an empty body), and a 200 answer without a usable id gives the
    missing-id error, both behind "Transcription process failed: ". *)
Theorem transcribe_audio_submission_refused (self : TranscriptionService.t)
  (audio_url : json F) (response : Response F) (w : World F) :
  Str.truthy (TranscriptionService.api_key self) = true ->
  network w 0%nat = Ok response ->
  let run := TranscriptionService.transcribe_audio self audio_url w in
  (status_code response <> 200 ->
   run = (Raise (Exception
            ("Transcription process failed: Failed to submit transcription job: "
             +:+ pretty (status_code response) +:+ " - "
             +:+ (if Str.truthy (text response) then text response
                  else "Unknown error"))),
          later 1 [Sent (submit_request self audio_url)] w))
  /\ (forall m,
        status_code response = 200 ->
        json_body response = Some (JObj m) ->
        truthy (default JNull (m !! "id")) = false ->
        run = (Raise (Exception
                 "Transcription process failed: Failed to get transcript ID from submission response."),
               later 1 [Sent (submit_request self audio_url)] w)).
Proof.
  intros Hkey Hnet run. subst run.
  split; [intros Hcode | intros m Hcode Hbody Hid];
    unfold TranscriptionService.transcribe_audio; rewrite Hkey; cbn [negb];
    cbv zeta; fold (transcribe_headers self);
    fold (submit_request self audio_url);
    unfold try_except, mbind, M_bind, bind at 1, send; rewrite Hnet;
    change {| files := files w; read_error := read_error w;
     remove_error := remove_error w; network := fun n => network w (S n);
              generative := generative w;
              trace := trace w ++ [Sent (submit_request self audio_url)] |}
      with (later 1 [Sent (submit_request self audio_url)] w).
  - apply Z.eqb_neq in Hcode. rewrite Hcode. reflexivity.
  - rewrite Hcode. cbn [Z.eqb Pos.eqb negb].
    unfold response_json. rewrite Hbody.
    unfold bind, ret, lift. cbn [dict_get]. rewrite Hid. reflexivity.
Qed.

(** X11. An error status of the provider reaches the caller of
    [transcribe_audio] with the provider's own text: after an accepted
    submission and [k] non-terminal answers, [k < 60], an answer with
    status "error" gives "Transcription process failed: Transcription
    failed: " followed by the error field (a default text when the
    field is missing), with no "Polling error: " in between, and no
    further request is sent. *)
Theorem transcribe_audio_provider_error (self : TranscriptionService.t)
  (audio_url transcript_id : json F) (m : gmap string (json F))
  (k : nat) (w : World F) :
  Str.truthy (TranscriptionService.api_key self) = true ->
  accepts (network w 0%nat) transcript_id ->
  (k < 60)%nat ->
  (forall i, (i < k)%nat -> non_terminal (network w (S i))) ->
  reports (network w (S k)) "error" (JObj m) ->
  let run := TranscriptionService.transcribe_audio self audio_url w in
  let poll := poll_request self transcript_id (transcribe_headers self) in
  fst run
  = Raise (Exception
      ("Transcription process failed: Transcription failed: "
       +:+ str_json (default (JStr "Unknown transcription error")
                             (m !! "error"))))
  /\ trace (snd run)
     = trace w ++ [Sent (submit_request self audio_url)]
               ++ polling k poll ++ [Sent poll].
Proof.
  intros Hkey Haccepts Hk Hpending Hdone run poll. subst run.
  rewrite (transcribe_audio_accepted _ _ _ _ Hkey Haccepts).
  pose proof (poll_outcome_error _ _ Hdone) as Hverdict.
  assert (Hpending' : forall i, (i < k)%nat ->
            non_terminal
              (network (later 1 [Sent (submit_request self audio_url)] w) i))
    by (intros i Hi; cbn [later network]; now apply Hpending).
  destruct (poll_transcript_finished self transcript_id
              (transcribe_headers self) k
              (later 1 [Sent (submit_request self audio_url)] w)
              _ Hk Hpending' Hverdict) as [Hfst Htrace].
  cbn [fst snd]. rewrite Hfst, Htrace. cbn [later trace str_exn].
  split; [reflexivity |]. fold poll. now rewrite <- app_assoc.
Qed.

(** X13. Whatever the provider answers, one call of [transcribe_audio]
    sends at most 61 requests (the submission and 60 status requests)
    and waits at most 60 seconds in all. *)
Theorem transcribe_audio_budget (self : TranscriptionService.t)
  (audio_url : json F) (w : World F) :
  exists tr,
    trace (snd (TranscriptionService.transcribe_audio self audio_url w))
    = trace w ++ tr
    /\ (length (requests tr) <= 61)%nat
    /\ 0 <= total_sleep tr <= 60.
Proof.
  destruct (within_transcribe_audio 1 self audio_url w)
    as (tr & Htrace & Hcalls & Hsleep).
  exists tr. now rewrite <- http_requests_calls.
Qed.

(** X14. Whatever the providers answer, one run of [process_audio_task]
    makes at most 64 client calls to the transcription provider (3
    uploads, the submission, 60 status requests) and waits at most 63
    seconds in all (1 + 2 between the uploads, 60 while polling).  Only
    the three uploads go through a client that follows redirects: when
    one such call sends at most [c] HTTP requests, the run sends at most
    [3 * c + 61] of them, which is 124 with httpx's default limit of 20
    redirects ([c] = 21). *)
Theorem process_audio_task_budget
  (ASSEMBLYAI_API_KEY file_path file_name mime_type : string) (w : World F) :
  exists tr,
    trace (snd (Main.process_audio_task ASSEMBLYAI_API_KEY
                  file_path file_name mime_type w))
    = trace w ++ tr
    /\ (length (requests tr) <= 64)%nat
    /\ (forall c, (http_requests c tr <= 3 * c + 61)%nat)
    /\ (http_requests 21 tr <= 124)%nat
    /\ 0 <= total_sleep tr <= 63.
Proof.
  pose proof (fun c => within_process_audio_task c ASSEMBLYAI_API_KEY
                         file_path file_name mime_type w) as Hwithin.
  destruct (Hwithin 1%nat) as (tr & Htrace & Hcalls & Hsleep).
  assert (Hall : forall c, (http_requests c tr <= 3 * c + 61)%nat).
  { intros c. destruct (Hwithin c) as (tr' & Htrace' & Hcost & _).
    rewrite Htrace in Htrace'. apply app_inv_head in Htrace'.
    now subst tr'. }
  exists tr. split; [exact Htrace |].
  split; [rewrite <- http_requests_calls; exact Hcalls |].
  split; [exact Hall |].
  split; [exact (Hall 21%nat) | exact Hsleep].
Qed.

End TranscribeTheorems.

(** ** Missing fields, the task and the health check *)

Lemma for_each_app {A S} (xs ys : list A) (acc : S)
  (body : S -> A -> result S) :
  for_each (xs ++ ys) acc body
  = (acc' ← for_each xs acc body; for_each ys acc' body).
Proof.
  revert acc. induction xs as [|x xs IH]; intros acc; [reflexivity |].
  cbn [app for_each mbind result_bind rbind].
  destruct (body acc x) as [acc' | e]; [apply IH | reflexivity].
Qed.

(** X15. A provider result that lacks a field makes
    [parse_transcription_result] fail with the [KeyError] of that
    field.  After any number of well-formed words, a word that lacks
    one of its four fields fails the parse with that field's name,
    whatever comes after it; and when all words are well formed, a
    result without "text" fails with "text". *)
Theorem parse_missing_field (m : gmap string (json float))
  (word_list : list (json float)) (pws : list ProviderWord) :
  Forall2 encodes_word word_list pws ->
  (forall mw pw field rest,
     encodes_word (JObj mw) pw ->
     field ∈ word_fields ->
     default (JArr []) (m !! "words")
     = JArr (word_list ++ JObj (delete field mw) :: rest) ->
     TranscriptionService.parse_transcription_result (JObj m)
     = Raise (KeyError field))
  /\ (default (JArr []) (m !! "words") = JArr word_list ->
      m !! "text" = None ->
      TranscriptionService.parse_transcription_result (JObj m)
      = Raise (KeyError "text")).
Proof.
  intros Hall.
  pose proof (parse_words_loop word_list pws [] Hall) as Hloop.
  cbn [app] in Hloop. split.
  - intros mw pw field rest (mw' & Heq & Htext & Hstart & Hend & Hconf)
      Hfield Hwords.
    injection Heq as <-.
    unfold TranscriptionService.parse_transcription_result.
    cbn [dict_get]. rewrite Hwords.
    cbn [mbind result_bind rbind iterate].
    rewrite for_each_app, Hloop.
    cbn [mbind result_bind rbind for_each dict_item].
    unfold word_fields in Hfield.
    repeat (apply elem_of_cons in Hfield; destruct Hfield as [-> | Hfield]).
    + now rewrite lookup_delete_eq.
    + rewrite (lookup_delete_ne mw "start" "text"), Htext by discriminate.
      cbn [mbind result_bind rbind as_string].
      now rewrite lookup_delete_eq.
    + rewrite (lookup_delete_ne mw "end" "text"), Htext by discriminate.
      cbn [mbind result_bind rbind as_string].
      rewrite (lookup_delete_ne mw "end" "start"), Hstart by discriminate.
      cbn [mbind result_bind rbind as_number]. rewrite truediv_1000.
      cbn [mbind result_bind rbind].
      now rewrite lookup_delete_eq.
    + rewrite (lookup_delete_ne mw "confidence" "text"), Htext
        by discriminate.
      cbn [mbind result_bind rbind as_string].
      rewrite (lookup_delete_ne mw "confidence" "start"), Hstart
        by discriminate.
      cbn [mbind result_bind rbind as_number]. rewrite truediv_1000.
      cbn [mbind result_bind rbind].
      rewrite (lookup_delete_ne mw "confidence" "end"), Hend by discriminate.
      cbn [mbind result_bind rbind as_number]. rewrite truediv_1000.
      cbn [mbind result_bind rbind].
      now rewrite lookup_delete_eq.
    + now apply elem_of_nil in Hfield.
  - intros Hwords Htext.
    unfold TranscriptionService.parse_transcription_result.
    cbn [dict_get dict_item]. rewrite Hwords, Htext.
    cbn [mbind result_bind rbind iterate].
    rewrite Hloop. reflexivity.
Qed.

Section TaskMore.
Context {F : Type} {PF : PyFloat F} {PR : PyRepr F}.

(** X16. [process_audio_task] hands on what its pipeline returned or
    raised, unchanged, whenever the clean-up does not fail: when the
    file is not there, or when it is removed.  The run is then the
    pipeline's followed by the removal of the file, if it was there.
    When [os.remove] raises for the file, its error replaces the
    outcome of the pipeline, a returned result included, and nothing
    is removed. *)
Theorem process_audio_task_outcome
  (ASSEMBLYAI_API_KEY file_path file_name mime_type : string) (w : World F) :
  let task :=
    Main.process_audio_task ASSEMBLYAI_API_KEY file_path file_name
      mime_type w in
  let body := Main.pipeline ASSEMBLYAI_API_KEY file_path mime_type w in
  ((file_path ∉ files w) \/ remove_error w file_path = None ->
   fst task = fst body
   /\ trace (snd task)
      = trace (snd body)
        ++ (if bool_decide (file_path ∈ files w) then [Removed file_path]
            else []))
  /\ (forall e,
        file_path ∈ files w ->
        remove_error w file_path = Some e ->
        fst task = Raise e /\ snd task = snd body).
Proof.
  intros task body. subst task. rewrite process_audio_task_run.
  cbv zeta. fold body. split.
  - intros [Habsent | Hremovable].
    + rewrite (bool_decide_eq_false_2 _ Habsent).
      now rewrite app_nil_r.
    + rewrite Hremovable.
      destruct (bool_decide (file_path ∈ files w)); cbn [fst snd trace];
        now rewrite ?app_nil_r.
  - intros e Hfile Hlocked.
    now rewrite (bool_decide_eq_true_2 _ Hfile), Hlocked.
Qed.

(** X18. [assemblyai_health_check] never raises and sends exactly one
    request; it reports "healthy" exactly when the provider answers
    with status code 200 or 404. *)
Theorem assemblyai_health_check_total (ASSEMBLYAI_API_KEY : string)
  (w : World F) :
  exists report,
    Main.assemblyai_health_check ASSEMBLYAI_API_KEY w
    = (Ok report, later 1 [Sent (health_request ASSEMBLYAI_API_KEY)] w)
    /\ (report !! "status" = Some "healthy"
        <-> exists response,
              network w 0%nat = Ok response
              /\ (status_code response = 200 \/ status_code response = 404)).
Proof.
  unfold Main.assemblyai_health_check, try_except, mbind, M_bind, bind,
    send. cbv zeta. fold (health_request (F:=F) ASSEMBLYAI_API_KEY).
  change {| files := files w; read_error := read_error w;
     remove_error := remove_error w; network := fun n => network w (S n);
            generative := generative w;
            trace := trace w ++ [Sent (health_request ASSEMBLYAI_API_KEY)] |}
    with (later 1 [Sent (health_request ASSEMBLYAI_API_KEY)] w).
  destruct (network w 0%nat) as [response | e].
  - destruct (Z.eqb_spec (status_code response) 401) as [H401 | H401].
    { eexists. split; [reflexivity |]. split; [discriminate |].
      intros (r & [= <-] & [H | H]); lia. }
    destruct (Z.eqb_spec (status_code response) 429) as [H429 | H429].
    { eexists. split; [reflexivity |]. split; [discriminate |].
      intros (r & [= <-] & [H | H]); lia. }
    destruct (Z.eqb_spec (status_code response) 200) as [H200 | H200];
      [| destruct (Z.eqb_spec (status_code response) 404) as [H404 | H404]];
      cbn [orb].
    + eexists. split; [reflexivity |]. split; [| reflexivity].
      intros _. exists response. auto.
    + eexists. split; [reflexivity |]. split; [| reflexivity].
      intros _. exists response. auto.
    + eexists. split; [reflexivity |]. split; [discriminate |].
      intros (r & [= <-] & [H | H]); lia.
  - destruct e; (eexists; split; [reflexivity |]; split; [discriminate |];
                 intros (r & Hr & _); discriminate Hr).
Qed.

End TaskMore.

(** ** The upload endpoint *)

Section EndpointFacts.
Variable suffix : string -> string.
Variable guess_type : string -> option string.
Variable repr_allowed : string.

Local Abbreviation endpoint :=
  (Api.transcribe_and_evaluate suffix guess_type repr_allowed).

Lemma valid_mime_type_test (mime_type : option string) :
  negb (Api.truthy_opt mime_type)
  || negb (bool_decide (default "" mime_type
                        ∈ ["audio/wav"; "audio/mpeg"; "audio/x-wav"]))
  = false <-> valid_mime_type mime_type.
Proof.
  rewrite orb_false_iff, !negb_false_iff, bool_decide_eq_true.
  split.
  - intros [Htruthy Hin]. destruct mime_type as [t |]; [| discriminate].
    now exists t.
  - intros (t & -> & Hin). split; [| exact Hin].
    cbn. destruct t; [| reflexivity].
    repeat (apply elem_of_cons in Hin; destruct Hin as [Hin | Hin];
            [discriminate Hin |]).
    now apply elem_of_nil in Hin.
Qed.

Ltac run_endpoint :=
  unfold Api.transcribe_and_evaluate, Api.try_except, mbind, Api.E_bind,
    Api.bind, Api.uuid4, Api.throw, Api.ret;
  cbn [fst snd Api.disk Api.queue Api.uuids Api.open_error Api.broker].

(** X19. An upload without a file name, or whose extension is not an
    allowed one, is refused with status 400 before anything is written:
    the disk and the queue are as before. *)
Theorem upload_refused_unsaved (file : Api.UploadFile) (s : Api.App) :
  Api.truthy_opt (Api.filename file) = false
  \/ ~ allowed_extension suffix (default "" (Api.filename file)) ->
  let run := endpoint file s in
  (exists detail, fst run = Api.Throw (Api.HTTPException 400 detail))
  /\ Api.disk (snd run) = Api.disk s
  /\ Api.queue (snd run) = Api.queue s.
Proof.
  intros Hcase run. subst run. run_endpoint.
  destruct (Api.truthy_opt (Api.filename file)) eqn:Hname; cbn [negb].
  - destruct Hcase as [Hcase | Hcase]; [discriminate |].
    unfold allowed_extension in Hcase.
    rewrite (bool_decide_eq_false_2 _ Hcase). cbn [negb fst snd Api.disk Api.queue].
    eauto.
  - cbn [fst snd Api.disk Api.queue]. eauto.
Qed.

(** The clean-up of a file that exists removes it. *)
Lemma remove_existing {A} (path content : string) (k : Api.E A)
  (s : Api.App) :
  Api.disk s !! path = Some content ->
  (found ← Api.os_path_exists path;
   (if found : bool then Api.os_remove path else Api.ret tt);; k) s
  = k (Api.set_disk (delete path (Api.disk s)) s).
Proof.
  intros Hfile.
  unfold mbind, Api.E_bind, Api.bind, Api.os_path_exists, Api.os_remove.
  rewrite Hfile.
  rewrite (bool_decide_eq_true_2 (is_Some (Some content)))
    by (now eexists).
  rewrite Hfile.
  now rewrite (bool_decide_eq_true_2 (is_Some (Some content)))
    by (now eexists).
Qed.

(** The endpoint up to the point where the upload is on disk. *)
Lemma endpoint_saved (file : Api.UploadFile) (s : Api.App)
  (name content : string) :
  Api.filename file = Some name ->
  Str.truthy name = true ->
  allowed_extension suffix name ->
  Api.open_error s (saved_path suffix s name) = None ->
  Api.read file = Ok content ->
  Z.of_nat (String.length content) <> 0 ->
  Z.of_nat (String.length content) <= Config.MAX_FILE_SIZE ->
  let file_path := saved_path suffix s name in
  let saved :=
    {| Api.disk := <[file_path := content]> (Api.disk s);
       Api.uuids := fun n => Api.uuids s (S (S n));
       Api.open_error := Api.open_error s;
       Api.broker := Api.broker s;
       Api.queue := Api.queue s |} in
  endpoint file s
  = Api.try_except
      (let mime_type := guess_type name in
       if negb (Api.truthy_opt mime_type)
          || negb (bool_decide (default "" mime_type
                                ∈ ["audio/wav"; "audio/mpeg"; "audio/x-wav"]))
       then
         found ← Api.os_path_exists file_path;
         (if found : bool then Api.os_remove file_path else Api.ret tt);;
         Api.throw (Api.HTTPException 400 "Invalid or unsupported audio format")
       else
         task_id ← Api.delay file_path name (default "" mime_type);
         Api.ret (<["message" := "Processing started"]>
                    {[ "task_id" := task_id ]}))
      (fun f =>
         match f with
         | Api.HTTPException _ _ => Api.throw f
         | Api.Other e =>
             Api.throw (Api.HTTPException 500
                          ("Failed to start processing: " +:+ str_exn e))
         end)
      saved.
Proof.
  intros Hname Htruthy Hext Hopen Hread Hnonempty Hsize file_path saved.
  unfold Api.transcribe_and_evaluate, Api.try_except at 1.
  unfold mbind, Api.E_bind, Api.bind at 1, Api.uuid4 at 1.
  rewrite Hname. cbn [Api.truthy_opt default from_option id].
  rewrite Htruthy. cbn [negb].
  unfold allowed_extension in Hext.
  rewrite (bool_decide_eq_true_2 _ Hext). cbn [negb]. cbv zeta.
  unfold Api.bind at 1, Api.uuid4 at 1. cbn [Api.uuids].
  fold (saved_path suffix s name). fold file_path.
  unfold Api.bind at 1, Api.open_wb at 1. cbn [Api.open_error Api.disk].
  fold file_path in Hopen. rewrite Hopen.
  unfold Api.bind at 1. rewrite Hread. cbn [Api.lift]. unfold Api.ret at 1.
  unfold Api.bind at 1.
  apply Z.eqb_neq in Hnonempty. rewrite Hnonempty.
  replace (Config.MAX_FILE_SIZE <? Z.of_nat (String.length content))
    with false by (symmetry; apply Z.ltb_ge; exact Hsize).
  unfold Api.write, Api.set_disk.
  cbn [Api.disk Api.uuids Api.open_error Api.broker Api.queue].
  rewrite lookup_insert_eq, insert_insert_eq.
  cbn [default from_option id String.append].
  reflexivity.
Qed.

(** X20. An empty or oversized upload is refused with status 400, but
    only after its file was opened for writing: an empty file stays on
    disk under the generated name, and nothing is enqueued. *)
Theorem upload_refused_content_leaves_empty_file (file : Api.UploadFile)
  (s : Api.App) (name content : string) :
  Api.filename file = Some name ->
  Str.truthy name = true ->
  allowed_extension suffix name ->
  Api.open_error s (saved_path suffix s name) = None ->
  Api.read file = Ok content ->
  let run := endpoint file s in
  let size := Z.of_nat (String.length content) in
  (size = 0 ->
   fst run = Api.Throw (Api.HTTPException 400 "Empty file")
   /\ Api.disk (snd run) = <[saved_path suffix s name := ""]> (Api.disk s)
   /\ Api.queue (snd run) = Api.queue s)
  /\ (Config.MAX_FILE_SIZE < size ->
      fst run = Api.Throw (Api.HTTPException 400 "File too large")
      /\ Api.disk (snd run) = <[saved_path suffix s name := ""]> (Api.disk s)
      /\ Api.queue (snd run) = Api.queue s).
Proof.
  intros Hname Htruthy Hext Hopen Hread run size. subst run.
  assert (Hrun :
    size = 0 \/ Config.MAX_FILE_SIZE < size ->
    endpoint file s
    = (Api.Throw (Api.HTTPException 400
                    (if size =? 0 then "Empty file" else "File too large")),
       Api.set_disk (<[saved_path suffix s name := ""]> (Api.disk s))
         {| Api.disk := Api.disk s;
            Api.uuids := fun n => Api.uuids s (S (S n));
            Api.open_error := Api.open_error s;
            Api.broker := Api.broker s;
            Api.queue := Api.queue s |})).
  { intros Hsize.
    unfold Api.transcribe_and_evaluate, Api.try_except.
    unfold mbind, Api.E_bind, Api.bind at 1, Api.uuid4 at 1.
    rewrite Hname. cbn [Api.truthy_opt default from_option id].
    rewrite Htruthy. cbn [negb].
    unfold allowed_extension in Hext.
    rewrite (bool_decide_eq_true_2 _ Hext). cbn [negb]. cbv zeta.
    unfold Api.bind at 1, Api.uuid4 at 1. cbn [Api.uuids].
    fold (saved_path suffix s name).
    unfold Api.bind at 1, Api.open_wb at 1. cbn [Api.open_error Api.disk].
    rewrite Hopen.
    unfold Api.bind at 1. rewrite Hread. cbn [Api.lift]. unfold Api.ret at 1.
    unfold Api.bind at 1. fold size.
    destruct (Z.eqb_spec size 0) as [Hzero | Hzero]; [reflexivity |].
    destruct (Z.ltb_spec Config.MAX_FILE_SIZE size) as [Hlarge | Hlarge];
      [reflexivity | lia]. }
  split; intros Hsize.
  - rewrite Hrun by now left. rewrite Hsize. now repeat split.
  - rewrite Hrun by now right.
    replace (size =? 0) with false
      by (symmetry; apply Z.eqb_neq; unfold Config.MAX_FILE_SIZE in Hsize; lia).
    now repeat split.
Qed.

(** X21. A saved upload whose name [mimetypes] does not map to one of
    the three accepted audio types is refused with status 400 and its
    file is removed again; nothing is enqueued. *)
Theorem upload_invalid_mime_removes_file (file : Api.UploadFile)
  (s : Api.App) (name content : string) :
  Api.filename file = Some name ->
  Str.truthy name = true ->
  allowed_extension suffix name ->
  Api.open_error s (saved_path suffix s name) = None ->
  Api.read file = Ok content ->
  Z.of_nat (String.length content) <> 0 ->
  Z.of_nat (String.length content) <= Config.MAX_FILE_SIZE ->
  ~ valid_mime_type (guess_type name) ->
  let run := endpoint file s in
  fst run
  = Api.Throw (Api.HTTPException 400 "Invalid or unsupported audio format")
  /\ Api.disk (snd run) = delete (saved_path suffix s name) (Api.disk s)
  /\ Api.queue (snd run) = Api.queue s.
Proof.
  intros Hname Htruthy Hext Hopen Hread Hnonempty Hsize Hmime run. subst run.
  rewrite (endpoint_saved _ _ _ _ Hname Htruthy Hext Hopen Hread Hnonempty
             Hsize).
  cbv zeta.
  destruct (negb (Api.truthy_opt (guess_type name)) || _) eqn:Htest.
  2:{ now apply valid_mime_type_test in Htest. }
  unfold Api.try_except.
  rewrite (remove_existing _ content) by apply lookup_insert_eq.
  cbn [fst snd Api.disk Api.queue Api.set_disk Api.throw].
  now rewrite delete_insert_eq.
Qed.

(** X22. A valid upload (a name with an allowed extension and an
    accepted audio type, between 1 byte and 25 MB) is saved under the
    generated name and handed to the broker with that path, the
    client's file name and the guessed type.  When the broker takes it,
    the endpoint returns the task id and exactly that task is in the
    queue; when the broker fails, the endpoint answers with status 500,
    enqueues nothing, and the saved file stays on disk. *)
Theorem upload_valid_is_enqueued (file : Api.UploadFile) (s : Api.App)
  (name content mime_type : string) :
  Api.filename file = Some name ->
  Str.truthy name = true ->
  allowed_extension suffix name ->
  Api.open_error s (saved_path suffix s name) = None ->
  Api.read file = Ok content ->
  Z.of_nat (String.length content) <> 0 ->
  Z.of_nat (String.length content) <= Config.MAX_FILE_SIZE ->
  guess_type name = Some mime_type ->
  mime_type ∈ ["audio/wav"; "audio/mpeg"; "audio/x-wav"] ->
  let run := endpoint file s in
  let task := {| Api.task_file_path := saved_path suffix s name;
                 Api.task_file_name := name;
                 Api.task_mime_type := mime_type |} in
  Api.disk (snd run) = <[saved_path suffix s name := content]> (Api.disk s)
  /\ (forall task_id,
        Api.broker s task = Ok task_id ->
        fst run = Api.Return (<["message" := "Processing started"]>
                                {[ "task_id" := task_id ]})
        /\ Api.queue (snd run) = Api.queue s ++ [task])
  /\ (forall e,
        Api.broker s task = Raise e ->
        fst run = Api.Throw (Api.HTTPException 500
                               ("Failed to start processing: " +:+ str_exn e))
        /\ Api.queue (snd run) = Api.queue s).
Proof.
  intros Hname Htruthy Hext Hopen Hread Hnonempty Hsize Hguess Hvalid run task.
  subst run.
  rewrite (endpoint_saved _ _ _ _ Hname Htruthy Hext Hopen Hread Hnonempty
             Hsize).
  cbv zeta.
  assert (Htest : valid_mime_type (guess_type name))
    by (exists mime_type; now split).
  apply valid_mime_type_test in Htest. rewrite Htest.
  rewrite Hguess. cbn [default from_option id].
  unfold Api.try_except, mbind, Api.E_bind, Api.bind, Api.delay, Api.throw,
    Api.ret.
  cbn [Api.disk Api.uuids Api.open_error Api.broker Api.queue].
  fold task.
  destruct (Api.broker s task) as [task_id | e];
    cbn [fst snd Api.disk Api.queue].
  - split; [reflexivity |]. split.
    + intros task_id' [= <-]. now split.
    + intros e [=].
  - split; [reflexivity |]. split.
    + intros task_id [=].
    + intros e' [= <-]. now split.
Qed.

(** X23. Whatever the upload and the state of the server,
    [transcribe_and_evaluate] fails only with an [HTTPException] of
    status 400 or 500, and a failure enqueues nothing; when it returns,
    it has enqueued exactly one task, for a file that is on disk with
    the uploaded bytes. *)
Theorem upload_outcomes (file : Api.UploadFile) (s : Api.App) :
  let run := endpoint file s in
  match fst run with
  | Api.Return _ =>
      exists task content,
        Api.queue (snd run) = Api.queue s ++ [task]
        /\ Api.read file = Ok content
        /\ Api.disk (snd run) !! Api.task_file_path task = Some content
        /\ Api.filename file = Some (Api.task_file_name task)
  | Api.Throw f =>
      (exists detail, f = Api.HTTPException 400 detail
                      \/ f = Api.HTTPException 500 detail)
      /\ Api.queue (snd run) = Api.queue s
  end.
Proof.
  intros run. subst run.
  destruct (endpoint file s) as [r s'] eqn:Hrun. cbn [fst snd].
  assert (Hfails : forall (f : Api.failure) (s0 : Api.App),
    (Api.Throw f, s0) = (r, s') ->
    (exists detail, f = Api.HTTPException 400 detail
                    \/ f = Api.HTTPException 500 detail) ->
    Api.queue s0 = Api.queue s ->
    match r with
    | Api.Return _ =>
        exists task content,
          Api.queue s' = Api.queue s ++ [task]
          /\ Api.read file = Ok content
          /\ Api.disk s' !! Api.task_file_path task = Some content
          /\ Api.filename file = Some (Api.task_file_name task)
    | Api.Throw f =>
        (exists detail, f = Api.HTTPException 400 detail
                        \/ f = Api.HTTPException 500 detail)
        /\ Api.queue s' = Api.queue s
    end) by (intros f s0 [= <- <-] Hf Hq; now split).
  revert Hrun.
  unfold Api.transcribe_and_evaluate, Api.try_except.
  unfold mbind, Api.E_bind, Api.bind at 1, Api.uuid4 at 1.
  destruct (Api.filename file) as [name |] eqn:Hname;
    cbn [Api.truthy_opt default from_option id negb];
    [| intros Hrun; apply (Hfails _ _ Hrun); eauto].
  destruct (Str.truthy name); cbn [negb];
    [| intros Hrun; apply (Hfails _ _ Hrun); eauto].
  destruct (bool_decide _); cbn [negb];
    [| intros Hrun; apply (Hfails _ _ Hrun); eauto].
  cbv zeta.
  unfold Api.bind at 1, Api.uuid4 at 1. cbn [Api.uuids].
  unfold Api.bind at 1, Api.open_wb at 1. cbn [Api.open_error Api.disk].
  destruct (Api.open_error s _) as [e1 |];
    [intros Hrun; apply (Hfails _ _ Hrun); eauto |].
  unfold Api.bind at 1.
  destruct (Api.read file) as [content | e2]; cbn [Api.lift];
    [| intros Hrun; apply (Hfails _ _ Hrun); eauto].
  unfold Api.ret at 1. unfold Api.bind at 1.
  destruct (_ =? 0); [intros Hrun; apply (Hfails _ _ Hrun); eauto |].
  destruct (_ <? _); [intros Hrun; apply (Hfails _ _ Hrun); eauto |].
  unfold Api.write, Api.set_disk.
  cbn [Api.disk Api.uuids Api.open_error Api.broker Api.queue].
  rewrite lookup_insert_eq, insert_insert_eq.
  cbn [default from_option id String.append].
  destruct (negb _ || _).
  - match goal with
    | |- context [Api.bind (Api.os_path_exists ?p) ?k ?st] =>
        change (Api.bind (Api.os_path_exists p) k st)
          with ((found ← Api.os_path_exists p;
                 (if found : bool then Api.os_remove p else Api.ret tt);;
                 Api.throw (A:=gmap string string)
                   (Api.HTTPException 400
                      "Invalid or unsupported audio format")) st);
        rewrite (remove_existing p content _ st) by apply lookup_insert_eq
    end.
    intros Hrun; apply (Hfails _ _ Hrun); eauto.
  - unfold Api.bind, Api.delay, Api.ret, Api.throw.
    cbn [Api.disk Api.uuids Api.open_error Api.broker Api.queue].
    destruct (Api.broker s _) as [task_id | e3];
      [| intros Hrun; apply (Hfails _ _ Hrun); eauto].
    intros [= <- <-].
    eexists _, content. cbn [Api.queue Api.disk Api.task_file_path
                             Api.task_file_name].
    repeat split. apply lookup_insert_eq.
Qed.

End EndpointFacts.

(** ** The properties above on the example worlds *)

Lemma upload_unreadable_file_witness :
  TranscriptionService.upload_file_with_retry
    (TranscriptionService.init "key") "uploads/speech.wav" "audio/x-wav"
    unreadable_world
  = (Raise (Exception
       "File upload error: [Errno 13] Permission denied: 'uploads/speech.wav'"),
     unreadable_world).
Proof.
  apply upload_unreadable_file.
  - reflexivity.
  - apply elem_of_singleton. reflexivity.
  - reflexivity.
Defined.

Lemma transcribe_audio_completes_witness :
  let run :=
    TranscriptionService.transcribe_audio (PR:=example_repr)
      (TranscriptionService.init "key")
      (JStr "https://cdn.assemblyai.com/upload/1")
      (example_world submitted_network) in
  fst run
  = Ok (JObj (<["status" := JStr "completed"]> example_provider_result))
  /\ length (requests (trace (snd run))) = 3%nat
  /\ sleeps (trace (snd run)) = [1].
Proof.
  destruct (transcribe_audio_completes (PR:=example_repr)
              (TranscriptionService.init "key")
              (JStr "https://cdn.assemblyai.com/upload/1") (JStr "t-1")
              (JObj (<["status" := JStr "completed"]> example_provider_result))
              1 (example_world submitted_network)) as [Hfst Htrace].
  - reflexivity.
  - eexists. eexists. repeat split; vm_compute; reflexivity.
  - lia.
  - intros i Hi. destruct i as [|i]; [| lia].
    eexists. right. eexists. eexists. repeat split; vm_compute; reflexivity.
  - eexists. eexists. repeat split; vm_compute; reflexivity.
  - cbv zeta. rewrite Hfst, Htrace. repeat split.
Defined.

Lemma transcribe_audio_submission_refused_witness :
  TranscriptionService.transcribe_audio (PR:=example_repr)
    (TranscriptionService.init "key")
    (JStr "https://cdn.assemblyai.com/upload/1")
    (example_world refusing_network)
  = (Raise (Exception
      "Transcription process failed: Failed to submit transcription job: 400 - Unknown error"),
     later 1 [Sent (submit_request (TranscriptionService.init "key")
                      (JStr "https://cdn.assemblyai.com/upload/1"))]
       (example_world refusing_network)).
Proof.
  refine (proj1 (transcribe_audio_submission_refused (PR:=example_repr)
                   (TranscriptionService.init "key")
                   (JStr "https://cdn.assemblyai.com/upload/1")
                   {| status_code := 400; text := ""; json_body := None |}
                   (example_world refusing_network) eq_refl eq_refl) _).
  cbn. lia.
Defined.

Lemma transcribe_audio_provider_error_witness :
  fst (TranscriptionService.transcribe_audio (PR:=example_repr)
         (TranscriptionService.init "key")
         (JStr "https://cdn.assemblyai.com/upload/1")
         (example_world failing_job_network))
  = Raise (Exception
      "Transcription process failed: Transcription failed: Audio could not be decoded").
Proof.
  destruct (transcribe_audio_provider_error (PR:=example_repr)
              (TranscriptionService.init "key")
              (JStr "https://cdn.assemblyai.com/upload/1") (JStr "t-1")
              (<["status" := JStr "error"]>
                 {[ "error" := JStr "Audio could not be decoded" ]})
              1 (example_world failing_job_network)) as [Hfst _].
  - reflexivity.
  - eexists. eexists. repeat split; vm_compute; reflexivity.
  - lia.
  - intros i Hi. destruct i as [|i]; [| lia].
    eexists. right. eexists. eexists. repeat split; vm_compute; reflexivity.
  - eexists. eexists. repeat split; vm_compute; reflexivity.
  - cbv zeta in Hfst. rewrite Hfst. vm_compute. reflexivity.
Defined.

Lemma poll_stops_at_first_failure_witness :
  let run :=
    TranscriptionService._poll_transcript (PR:=example_repr)
      (TranscriptionService.init "key") (JStr "t-1") ∅
      (example_world dropping_network) in
  fst run = Raise (Exception "Polling error: connection reset")
  /\ length (requests (trace (snd run))) = 2%nat.
Proof.
  destruct (poll_stops_at_first_failure (PR:=example_repr)
              (TranscriptionService.init "key") (JStr "t-1") ∅
              1 (example_world dropping_network)) as [Hraise _].
  - lia.
  - intros i Hi. destruct i as [|i]; [| lia].
    eexists. right. eexists. eexists. repeat split; vm_compute; reflexivity.
  - destruct (Hraise (ReadError "connection reset") eq_refl)
      as [Hfst Htrace].
    cbv zeta. rewrite Hfst, Htrace. split; reflexivity.
Defined.

Lemma parse_missing_field_witness :
  TranscriptionService.parse_transcription_result
    (JObj (<["text" := JStr "hello"]>
             {[ "words" := JArr [JObj truncated_word] ]}))
  = Raise (KeyError "end").
Proof.
  refine (proj1 (parse_missing_field
                   (<["text" := JStr "hello"]>
                      {[ "words" := JArr [JObj truncated_word] ]})
                   [] [] ltac:(constructor))
            complete_word example_provider_word "end" [] _ _ _).
  - eexists. split; [reflexivity |].
    repeat split; vm_compute; reflexivity.
  - unfold word_fields. repeat constructor.
  - vm_compute. reflexivity.
Defined.

Lemma upload_refused_unsaved_witness :
  let run :=
    Api.transcribe_and_evaluate example_suffix example_guess_type
      "{'.wav', '.mp3'}" (example_upload "notes.txt" "hello") example_app in
  (exists detail, fst run = Api.Throw (Api.HTTPException 400 detail))
  /\ Api.disk (snd run) = Api.disk example_app
  /\ Api.queue (snd run) = Api.queue example_app.
Proof.
  apply (upload_refused_unsaved example_suffix example_guess_type
           "{'.wav', '.mp3'}" (example_upload "notes.txt" "hello")
           example_app).
  right. unfold allowed_extension. vm_compute. intros H.
  discriminate H.
Defined.

Lemma upload_refused_content_leaves_empty_file_witness :
  let run :=
    Api.transcribe_and_evaluate example_suffix example_guess_type
      "{'.wav', '.mp3'}" (example_upload "speech.wav" "") example_app in
  fst run = Api.Throw (Api.HTTPException 400 "Empty file")
  /\ Api.disk (snd run) = {[ "uploads/id-1.wav" := "" ]}.
Proof.
  destruct (upload_refused_content_leaves_empty_file example_suffix
              example_guess_type "{'.wav', '.mp3'}"
              (example_upload "speech.wav" "") example_app
              "speech.wav" "" eq_refl eq_refl) as [Hempty _].
  - unfold allowed_extension. vm_compute. reflexivity.
  - reflexivity.
  - reflexivity.
  - destruct (Hempty eq_refl) as (Hfst & Hdisk & _).
    cbv zeta. rewrite Hfst, Hdisk. split; reflexivity.
Defined.

Lemma upload_invalid_mime_removes_file_witness :
  let run :=
    Api.transcribe_and_evaluate example_suffix (fun _ => Some "audio/basic")
      "{'.wav', '.mp3'}" (example_upload "speech.wav" "RIFF") example_app in
  fst run
  = Api.Throw (Api.HTTPException 400 "Invalid or unsupported audio format")
  /\ Api.disk (snd run) = ∅.
Proof.
  destruct (upload_invalid_mime_removes_file example_suffix
              (fun _ => Some "audio/basic") "{'.wav', '.mp3'}"
              (example_upload "speech.wav" "RIFF") example_app
              "speech.wav" "RIFF" eq_refl eq_refl) as (Hfst & Hdisk & _).
  - unfold allowed_extension. vm_compute. reflexivity.
  - reflexivity.
  - reflexivity.
  - cbn. lia.
  - vm_compute. discriminate.
  - intros (t & [= <-] & Hin).
    repeat (apply elem_of_cons in Hin; destruct Hin as [Hin | Hin];
            [discriminate Hin |]).
    now apply elem_of_nil in Hin.
  - cbv zeta. rewrite Hfst, Hdisk. split; reflexivity.
Defined.

Lemma upload_valid_is_enqueued_witness :
  let run :=
    Api.transcribe_and_evaluate example_suffix example_guess_type
      "{'.wav', '.mp3'}" (example_upload "speech.wav" "RIFF") example_app in
  fst run = Api.Return (<["message" := "Processing started"]>
                          {[ "task_id" := "task-1" ]})
  /\ Api.disk (snd run) = {[ "uploads/id-1.wav" := "RIFF" ]}
  /\ Api.queue (snd run)
     = [ {| Api.task_file_path := "uploads/id-1.wav";
            Api.task_file_name := "speech.wav";
            Api.task_mime_type := "audio/x-wav" |} ].
Proof.
  destruct (upload_valid_is_enqueued example_suffix example_guess_type
              "{'.wav', '.mp3'}" (example_upload "speech.wav" "RIFF")
              example_app "speech.wav" "RIFF" "audio/x-wav" eq_refl eq_refl)
    as (Hdisk & Htaken & _).
  - unfold allowed_extension. vm_compute. reflexivity.
  - reflexivity.
  - reflexivity.
  - cbn. lia.
  - vm_compute. discriminate.
  - reflexivity.
  - repeat constructor.
  - destruct (Htaken "task-1" eq_refl) as [Hfst Hqueue].
    cbv zeta. rewrite Hfst, Hdisk, Hqueue. repeat split.
Defined.


#[local] Existing Instance example_repr.

(** Three runs of the task on the example disk: a successful one, one
    in which the text model is out of service, and one in which the
    upload is exhausted.  The first two return a result, the last one
    raises; the file is gone after each. *)
Example task_succeeds :
  let run := Main.process_audio_task "key"
               "uploads/speech.wav" "speech.wav" "audio/x-wav"
               (example_world cooperative_network) in
  (exists response_data,
     fst run = Ok response_data
     /\ Main.text_feedback response_data = "Well done."
     /\ TranscriptionService.words (Main.transcription response_data)
        = [canonical example_provider_word])
  /\ elements (files (snd run)) = []
  /\ sleeps (trace (snd run)) = [1].
Proof.
  vm_compute. split; [| split; reflexivity].
  eexists. repeat split.
Qed.

Example task_survives_feedback_outage :
  let run := Main.process_audio_task "key"
               "uploads/speech.wav" "speech.wav" "audio/x-wav"
               (feedback_outage (example_world cooperative_network)) in
  (exists response_data,
     fst run = Ok response_data
     /\ Main.text_feedback response_data = FeedbackGenerator.fallback)
  /\ elements (files (snd run)) = [].
Proof.
  vm_compute. split; [| reflexivity].
  eexists. repeat split.
Qed.

Example task_fails_and_cleans_up :
  let run := Main.process_audio_task "key"
               "uploads/speech.wav" "speech.wav" "audio/x-wav"
               (example_world (fun n => Raise (ReadError "connection reset")))
  in
  fst run
  = Raise (Exception "File upload failed after 3 attempts: connection reset")
  /\ elements (files (snd run)) = []
  /\ sleeps (trace (snd run)) = [1; 2].
Proof.
  vm_compute. repeat split.
Qed.
